(** * The batched clustering-and-summarisation pipeline of
      [Updated_azure_pipeline_nov_11.py], embedded in Rocq.

    The embedding comes first and follows the Python source function by
    function:

    - [PyStr]      the [str] methods the parsers rely on;
    - [Data]       posts, insights and insertion-ordered dictionaries;
    - [Gateway]    the oracle, the world it lives in, and [safe_llm_call];
    - [Summarize]  the reply parser of [summarize_batch];
    - [Categorize] the reply parser of [categorize_batch];
    - [Clustering] [_cluster_initial_sample], [_extract_cluster_themes],
                   [_assign_posts_to_clusters] and [llm_cluster_posts];
    - [Insights]   [generate_insights_llm_clustering];
    - [Pipeline]   [summarize_posts], [categorize_posts] and [run_pipeline];
    - [Samples]    concrete oracles and a decoder to run the model on;
    - [Spec]       the predicates the theorems are stated with.

    The proofs follow, one section per stage.

    Python [str] values are modelled by Rocq strings, read as sequences of
    code points below 256.  Python [int] is [Z].  The two library functions
    the parsers call on oracle text, [int] and [json.loads], are parameters
    of the model: every theorem holds for any behaviour of theirs. *)

From Stdlib Require Import ZArith List String Ascii Bool Lia Arith.
From Stdlib Require Import Sorting.Permutation Sorting.Sorted FinFun.
Import ListNotations.

Local Open Scope Z_scope.

(* ====================================================================== *)
(** ** Python string methods *)
(* ====================================================================== *)

Module PyStr.

Local Open Scope string_scope.

(** [str.isspace] on one code point below 256: TAB..CR, FS..US, SPACE,
    NEL and NBSP. *)
Definition is_space (c : ascii) : bool :=
  let n := nat_of_ascii c in
  (((9 <=? n) && (n <=? 13)) || ((28 <=? n) && (n <=? 32))
   || (n =? 133) || (n =? 160))%nat.

Fixpoint lstrip (s : string) : string :=
  match s with
  | EmptyString => EmptyString
  | String c r => if is_space c then lstrip r else s
  end.

Fixpoint rstrip (s : string) : string :=
  match s with
  | EmptyString => EmptyString
  | String c r =>
      match rstrip r with
      | EmptyString => if is_space c then EmptyString else String c EmptyString
      | r' => String c r'
      end
  end.

(** [s.strip()] *)
Definition strip (s : string) : string := rstrip (lstrip s).

(** [s.startswith(p)] *)
Definition startswith (p s : string) : bool := String.prefix p s.

(** [needle in s] *)
Fixpoint contains (needle s : string) : bool :=
  String.prefix needle s
  || match s with
     | EmptyString => false
     | String _ r => contains needle r
     end.

Fixpoint drop (n : nat) (s : string) : string :=
  match n, s with
  | O, _ => s
  | S _, EmptyString => EmptyString
  | S n', String _ r => drop n' r
  end.

(** [s.split(sep, 1)] for a non-empty [sep]: [None] stands for the
    one-element list [[s]] (no occurrence), [Some (a, b)] for [[a, b]],
    cut at the first occurrence. *)
Fixpoint split1 (sep s : string) : option (string * string) :=
  if String.prefix sep s then Some (EmptyString, drop (String.length sep) s)
  else match s with
       | EmptyString => None
       | String c r =>
           match split1 sep r with
           | Some (a, b) => Some (String c a, b)
           | None => None
           end
       end.

(** [s.split(c)] for a one-character separator: never empty. *)
Fixpoint split_char (sep : ascii) (s : string) : list string :=
  match s with
  | EmptyString => [EmptyString]
  | String c r =>
      if Ascii.eqb c sep then EmptyString :: split_char sep r
      else match split_char sep r with
           | h :: t => String c h :: t
           | [] => [String c EmptyString]
           end
  end.

(** [s.split('\n')] *)
Definition lines_of (s : string) : list string :=
  split_char (ascii_of_nat 10) s.

(** [s.replace(pat, "")] for a non-empty [pat]: every non-overlapping
    occurrence, scanning from the left, is removed.  [skip] counts the
    characters of the current occurrence still to be dropped. *)
Fixpoint remove_from (pat : string) (skip : nat) (s : string) : string :=
  match s with
  | EmptyString => EmptyString
  | String c r =>
      match skip with
      | S k => remove_from pat k r
      | O => if String.prefix pat s
             then remove_from pat (String.length pat - 1) r
             else String c (remove_from pat 0 r)
      end
  end.

Definition remove_all (pat s : string) : string := remove_from pat 0 s.

Definition lower_char (c : ascii) : ascii :=
  let n := nat_of_ascii c in
  if (((65 <=? n) && (n <=? 90)) || ((192 <=? n) && (n <=? 214))
      || ((216 <=? n) && (n <=? 222)))%nat
  then ascii_of_nat (n + 32) else c.

(** [s.lower()] *)
Fixpoint lower (s : string) : string :=
  match s with
  | EmptyString => EmptyString
  | String c r => String (lower_char c) (lower r)
  end.

(** [s[:n]] for [n >= 0] *)
Fixpoint take (n : nat) (s : string) : string :=
  match n, s with
  | O, _ => EmptyString
  | S _, EmptyString => EmptyString
  | S n', String c r => String c (take n' r)
  end.

(** [str(n)] for a natural number. *)
Fixpoint digits_of (fuel n : nat) (acc : string) : string :=
  match fuel with
  | O => acc
  | S f =>
      let acc' := String (ascii_of_nat (48 + n mod 10)) acc in
      if (n <? 10)%nat then acc' else digits_of f (n / 10) acc'
  end.

Definition str_of_nat (n : nat) : string := digits_of (S n) n EmptyString.

(** [f"POST_{k}:"] *)
Definition post_tag (k : nat) : string := "POST_" ++ str_of_nat k ++ ":".

(** [str(z)] *)
Definition str_of_Z (z : Z) : string :=
  if (z <? 0)%Z then "-" ++ str_of_nat (Z.to_nat (- z))
  else str_of_nat (Z.to_nat z).

(** A decimal reader in the manner of [int(s)]: surrounding white space,
    an optional sign, then digits in groups separated by single
    underscores.  It is the instance used to run the parsers on concrete
    replies; the parsers themselves are stated for any reader. *)
Definition digit_val (c : ascii) : option Z :=
  let n := nat_of_ascii c in
  if ((48 <=? n) && (n <=? 57))%nat then Some (Z.of_nat (n - 48)) else None.

Definition is_underscore (c : ascii) : bool := (nat_of_ascii c =? 95)%nat.

(** [after_digit]: the previous character was a digit (so an underscore
    may follow, and the text may end here). *)
Fixpoint read_digits (after_digit : bool) (acc : Z) (s : string) : option Z :=
  match s with
  | EmptyString => if after_digit then Some acc else None
  | String c r =>
      match digit_val c with
      | Some d => read_digits true (10 * acc + d) r
      | None =>
          if is_underscore c && after_digit then read_digits false acc r
          else None
      end
  end.

Definition int_dec (s : string) : option Z :=
  match strip s with
  | String "+" r => read_digits false 0 r
  | String "-" r => option_map Z.opp (read_digits false 0 r)
  | t => read_digits false 0 t
  end.

End PyStr.

(* ====================================================================== *)
(** ** Records, insights and dictionaries *)
(* ====================================================================== *)

Module Data.

(** A scraped post, with the fields later stages attach ([None] while the
    key is absent from the Python dict).  The stages after summarization
    read [p['summary']] only to build their prompts, and every post reaches
    them with the key set by [summarize_posts]; these reads are not
    modelled. *)
Record post : Type := Post {
  id : string;
  title : string;
  summary : option string;
  sentiment : option string;
  category : option string
}.

(** One entry of [insights_db[cat]]; the time stamp is left out. *)
Record insight : Type := Insight {
  insight_id : string;
  insight_category : string;
  insight_summary : string;
  linked_posts : list string;
  cluster_size : nat
}.

(** What [save_outputs] and [generate_dashboard_json] are handed. *)
Definition aggregate : Type := (list post * list (string * list insight))%type.

Section Dict.
Context {K V : Type} (eqb : K -> K -> bool).

(** A Python [dict] as an association list in insertion order. *)
Definition dict : Type := list (K * V).

(** [d[k]] *)
Fixpoint dict_get (k : K) (d : dict) : option V :=
  match d with
  | [] => None
  | (k', v) :: r => if eqb k k' then Some v else dict_get k r
  end.

(** [k in d] *)
Definition dict_has (k : K) (d : dict) : bool :=
  match dict_get k d with Some _ => true | None => false end.

(** [d[k] = v]: an existing key keeps its place, a new one goes last. *)
Fixpoint dict_set (k : K) (v : V) (d : dict) : dict :=
  match d with
  | [] => [(k, v)]
  | (k', v') :: r => if eqb k k' then (k', v) :: r
                     else (k', v') :: dict_set k v r
  end.

(** In-place change of the value stored under [k]. *)
Fixpoint dict_update (k : K) (f : V -> V) (d : dict) : dict :=
  match d with
  | [] => []
  | (k', v') :: r => if eqb k k' then (k', f v') :: r
                     else (k', v') :: dict_update k f r
  end.

Definition dict_keys (d : dict) : list K := map fst d.

End Dict.

End Data.

(* ====================================================================== *)
(** ** The oracle gateway *)
(* ====================================================================== *)

Module Gateway.

(** Exceptions derived from [Exception] that the pipeline can meet. *)
Inductive exn : Type :=
| OracleError (msg : string)   (* raised by the completion client *)
| JSONDecodeError
| TypeError
| ValueError
| IndexError
| AttributeError
| OverflowError.

(** One attempt of the completion service: the text of the first choice,
    or the exception the client raised. *)
Inductive attempt : Type :=
| Reply (text : string)
| Failure (e : exn).

(** The world a run lives in: the oracle's answer to its n-th request,
    the number of requests made so far, the back-off delays slept by
    [safe_llm_call] (oldest first), and the aggregates handed to the
    persistence layer.  The fixed pacing sleeps between batches carry no
    information and are left out. *)
Record world : Type := World {
  oracle : nat -> attempt;
  calls : nat;
  slept : list Z;
  saved : list Data.aggregate
}.

Inductive res (A : Type) : Type :=
| Ok (a : A)
| Raise (e : exn).
Arguments Ok {A} a.
Arguments Raise {A} e.

(** Computations that may call the oracle and may raise. *)
Definition M (A : Type) : Type := world -> res A * world.

Definition ret {A} (a : A) : M A := fun w => (Ok a, w).
Definition raise {A} (e : exn) : M A := fun w => (Raise e, w).
Definition bind {A B} (c : M A) (k : A -> M B) : M B :=
  fun w => match c w with
           | (Ok a, w1) => k a w1
           | (Raise e, w1) => (Raise e, w1)
           end.
(** [try: c  except Exception as e: h e] *)
Definition try_except {A} (c : M A) (h : exn -> M A) : M A :=
  fun w => match c w with
           | (Ok a, w1) => (Ok a, w1)
           | (Raise e, w1) => h e w1
           end.
Definition lift {A} (r : res A) : M A := fun w => (r, w).

Declare Scope py_scope.
Delimit Scope py_scope with py.
Notation "x <- c ;; k" := (bind c (fun x => k))
  (at level 61, c at next level, right associativity) : py_scope.

(** The longest length, in whole seconds, that [time.sleep] converts: it
    keeps its argument as a signed 64-bit number of nanoseconds. *)
Definition SLEEP_MAX : Z := (2 ^ 63 - 1) / 10 ^ 9.

(** A length every platform sleeps for.  Between it and [SLEEP_MAX] the
    operating system may still refuse the length, depending on the platform
    and its clock; the theorems on the wrapper keep below it. *)
Definition SLEEP_SAFE : Z := 2 ^ 31 - 1.

(** [time.sleep(d)] inside the retry wrapper, for an integer [d]: the
    conversion to nanoseconds raises [OverflowError] when it does not fit,
    then a negative length raises [ValueError]; otherwise the call sleeps. *)
Definition sleep (d : Z) : M unit :=
  fun w =>
    if SLEEP_MAX <? Z.abs d then (Raise OverflowError, w)
    else if d <? 0 then (Raise ValueError, w)
    else (Ok tt, World (oracle w) (calls w) (slept w ++ [d]) (saved w)).

(** The closure [call] every stage passes to the wrapper: one request,
    then [.strip()] on the returned content. *)
Definition call : M string :=
  fun w =>
    let w1 := World (oracle w) (S (calls w)) (slept w) (saved w) in
    match oracle w (calls w) with
    | Reply text => (Ok (PyStr.strip text), w1)
    | Failure e => (Raise e, w1)
    end.

(** [range(n)] *)
Definition range (n : Z) : list Z := map Z.of_nat (seq 0 (Z.to_nat n)).

(** The body of [safe_llm_call], by recursion on the values [i] still to
    be visited by [for i in range(retries)].  Leaving the loop without
    [return] or [raise] yields Python's [None]; an exception of
    [time.sleep], raised inside the handler, leaves the function. *)
Fixpoint retry_loop {A} (fn : M A) (retries delay : Z) (todo : list Z)
  : M (option A) :=
  match todo with
  | [] => ret None
  | i :: rest =>
      fun w =>
        match fn w with
        | (Ok a, w1) => (Ok (Some a), w1)
        | (Raise e, w1) =>
            if i <? retries - 1
            then bind (sleep (delay * 2 ^ i))
                      (fun _ => retry_loop fn retries delay rest) w1
            else (Raise e, w1)
        end
  end.

Definition safe_llm_call {A} (fn : M A) (retries delay : Z) : M (option A) :=
  retry_loop fn retries delay (range retries).

(** The wrapper as the stages use it: default [retries=3, delay=3].  With
    these defaults the loop cannot fall through; the [None] case is kept
    as the [AttributeError] a caller would get from [None.split]. *)
Definition ask : M string :=
  (r <- safe_llm_call call 3 3 ;;
   match r with
   | Some s => ret s
   | None => raise AttributeError
   end)%py.

(** The delays slept before attempts [a+1 .. a+k]. *)
Definition backoffs (delay : Z) (a k : nat) : list Z :=
  map (fun i => delay * 2 ^ Z.of_nat i) (seq a k).

Definition failed_at (w : world) (n : nat) : Prop :=
  exists e, oracle w n = Failure e.

End Gateway.

(* ====================================================================== *)
(** ** Summarization stage: [summarize_batch] *)
(* ====================================================================== *)

Module Summarize.
Import PyStr Data Gateway.
Local Open Scope string_scope.

(** The inner [for line in lines] of the parser: the first line whose
    stripped text starts with the tag, stripped. *)
Fixpoint find_post_line (tag : string) (lines : list string) : option string :=
  match lines with
  | [] => None
  | line :: rest =>
      if startswith tag (strip line) then Some (strip line)
      else find_post_line tag rest
  end.

(** The text the label is looked for in: what follows [SENTIMENT] and,
    when there is one, its colon, stripped and lower-cased.  [None] is
    the [IndexError] of a missing key word. *)
Definition raw_label (sentiment_part : string) : option string :=
  match split1 "SENTIMENT" sentiment_part with
  | Some (_, raw) =>
      let raw1 :=
        if contains ":" raw
        then match split1 ":" raw with Some (_, r) => r | None => raw end
        else raw in
      Some (lower (strip raw1))
  | None => None
  end.

Definition label_of (raw : string) : string :=
  if contains "pos" raw then "positive"
  else if contains "neg" raw then "negative"
  else "neutral".

(** The label read from the text after [||]. *)
Definition sentiment_of (sentiment_part : string) : string :=
  if contains "SENTIMENT" sentiment_part then
    match raw_label sentiment_part with
    | Some raw => label_of raw
    | None => "neutral"                                       (* swallowed *)
    end
  else "neutral".

(** Summary and sentiment of one record, from its line (if any).  The
    branches marked [swallowed] are the ones the source leaves to
    [except Exception: pass], with the fall-backs already set. *)
Definition parse_post (post_title : string) (post_line : option string)
  : string * string :=
  match post_line with
  | None => (post_title, "neutral")
  | Some l =>
      if String.eqb l "" then (post_title, "neutral")
      else
        match split1 ":" l with
        | None => (post_title, "neutral")                     (* swallowed *)
        | Some (_, rest) =>
            let after_colon := strip rest in
            if contains "||" after_colon then
              match split1 "||" after_colon with
              | Some (summary_part, sentiment_part) =>
                  (strip summary_part, sentiment_of sentiment_part)
              | None => (post_title, "neutral")               (* swallowed *)
              end
            else (after_colon, "neutral")
        end
  end.

(** [for i in range(len(posts))], with [i] the number of records already
    handled. *)
Fixpoint parse_summaries (lines : list string) (i : nat) (posts : list post)
  : list (string * string) :=
  match posts with
  | [] => []
  | p :: rest =>
      parse_post (title p) (find_post_line (post_tag (S i)) lines)
      :: parse_summaries lines (S i) rest
  end.

Definition parse_reply (result : string) (posts : list post)
  : list (string * string) :=
  parse_summaries (lines_of result) 0 posts.

Definition summarize_batch (posts : list post) : M (list (string * string)) :=
  (result <- ask ;; ret (parse_reply result posts))%py.

(** The label rule in the words of the design notes, for comparison:
    substring match against the two label words, anything else neutral. *)
Definition worded_sentiment (text : string) : string :=
  if contains "positive" text then "positive"
  else if contains "negative" text then "negative"
  else "neutral".

End Summarize.

(* ====================================================================== *)
(** ** Categorization stage: [categorize_batch] *)
(* ====================================================================== *)

Module Categorize.
Import PyStr Data Gateway.
Local Open Scope string_scope.

Section Reader.
(** Python's [int] on a string: [None] is [ValueError]. *)
Variable py_int : string -> option Z.

(** The inner [for line in lines]: the first line that contains the tag. *)
Fixpoint first_line_with (tag : string) (lines : list string) : option string :=
  match lines with
  | [] => None
  | line :: rest =>
      if contains tag line then Some line else first_line_with tag rest
  end.

(** [int(post_line.split(':')[1].strip())] *)
Definition number_after_colon (line : string) : option Z :=
  match nth_error (split_char ":" line) 1 with
  | Some field => py_int (strip field)
  | None => None
  end.

Definition category_of (categories : list string) (post_line : option string)
  : string :=
  match post_line with
  | None => "Uncategorized"
  | Some l =>
      if String.eqb l "" then "Uncategorized"
      else
        match number_after_colon l with
        | None => "Uncategorized"
        | Some cat_num =>
            if ((1 <=? cat_num) && (cat_num <=? Z.of_nat (List.length categories)))%Z
            then match nth_error categories (Z.to_nat (cat_num - 1)) with
                 | Some c => c
                 | None => "Uncategorized"
                 end
            else "Uncategorized"
        end
  end.

Fixpoint parse_categories (categories : list string) (lines : list string)
  (i : nat) (posts : list post) : list string :=
  match posts with
  | [] => []
  | _ :: rest =>
      category_of categories (first_line_with (post_tag (S i)) lines)
      :: parse_categories categories lines (S i) rest
  end.

Definition parse_reply (categories : list string) (result : string)
  (posts : list post) : list string :=
  parse_categories categories (lines_of result) 0 posts.

Definition categorize_batch (posts : list post) (categories : list string)
  : M (list string) :=
  (result <- ask ;; ret (parse_reply categories result posts))%py.

End Reader.
End Categorize.

(* ====================================================================== *)
(** ** Clustering engine *)
(* ====================================================================== *)

Module Clustering.
Import PyStr Data Gateway.

(** *** Decoded JSON and Python numbers *)

(** A Python [float]: not-a-number, an infinity, or the finite value
    [m * 2^e]. *)
Inductive pyfloat : Type :=
| FNan
| FInf (negative : bool)
| FDyadic (m e : Z).

(** What [json.loads] returns. *)
#[local] Set Warnings "-register-all".
Inductive json : Type :=
| JNull
| JBool (b : bool)
| JInt (z : Z)
| JFloat (f : pyfloat)
| JStr (s : string)
| JArr (items : list json)
| JObj (fields : list (string * json)).

(** The values that survive the comparison [0 <= i]: numbers.  They are
    what a member list can hold. *)
Inductive pynum : Type :=
| PInt (z : Z)
| PBool (b : bool)
| PFloat (f : pyfloat).

Definition as_num (j : json) : option pynum :=
  match j with
  | JInt z => Some (PInt z)
  | JBool b => Some (PBool b)
  | JFloat f => Some (PFloat f)
  | _ => None
  end.

(** A finite number as mantissa and binary exponent. *)
Definition dyadic_of (x : pynum) : option (Z * Z) :=
  match x with
  | PInt z => Some (z, 0)
  | PBool b => Some (if b then 1 else 0, 0)
  | PFloat (FDyadic m e) => Some (m, e)
  | PFloat _ => None
  end.

(** [0 <= x] *)
Definition le0 (x : pynum) : bool :=
  match dyadic_of x with
  | Some (m, _) => 0 <=? m
  | None => match x with PFloat (FInf false) => true | _ => false end
  end.

(** [x < n] for an int [n]; Python compares int and float exactly. *)
Definition lt_int (x : pynum) (n : Z) : bool :=
  match dyadic_of x with
  | Some (m, e) => if 0 <=? e then m * 2 ^ e <? n else m <? n * 2 ^ (- e)
  | None => match x with PFloat (FInf true) => true | _ => false end
  end.

(** [x == y] on numbers. *)
Definition py_eqb (x y : pynum) : bool :=
  match dyadic_of x, dyadic_of y with
  | Some (m1, e1), Some (m2, e2) =>
      let e := Z.min e1 e2 in
      m1 * 2 ^ (e1 - e) =? m2 * 2 ^ (e2 - e)
  | None, None =>
      match x, y with
      | PFloat (FInf a), PFloat (FInf b) => Bool.eqb a b
      | _, _ => false
      end
  | _, _ => false
  end.

(** [x in xs] for a list or a set of numbers. *)
Definition py_in (x : pynum) (xs : list pynum) : bool :=
  existsb (py_eqb x) xs.

Fixpoint chars_of (s : string) : list json :=
  match s with
  | EmptyString => []
  | String c r => JStr (String c EmptyString) :: chars_of r
  end.

Fixpoint first_keys (seen : list string) (fields : list (string * json))
  : list json :=
  match fields with
  | [] => []
  | (k, _) :: r =>
      if existsb (String.eqb k) seen then first_keys seen r
      else JStr k :: first_keys (k :: seen) r
  end.

(** [for x in j]: the elements of a list, the keys of a dict, the
    characters of a string; anything else is not iterable. *)
Definition py_iter (j : json) : res (list json) :=
  match j with
  | JArr items => Ok items
  | JObj fields => Ok (first_keys [] fields)
  | JStr s => Ok (chars_of s)
  | _ => Raise TypeError
  end.

(** [seq[i]] on a list: ints and bools index (negative ones from the
    end), floats do not. *)
Definition py_index {A} (l : list A) (i : pynum) : res A :=
  match i with
  | PFloat _ => Raise TypeError
  | _ =>
      let z := match i with PInt z => z | PBool true => 1 | _ => 0 end in
      let n := Z.of_nat (List.length l) in
      let pos := if z <? 0 then z + n else z in
      if (0 <=? pos) && (pos <? n)
      then match nth_error l (Z.to_nat pos) with
           | Some a => Ok a
           | None => Raise IndexError
           end
      else Raise IndexError
  end.

(** *** The cluster map *)

(** [Dict[int, List[int]]]: cluster id to member list, in insertion
    order. *)
Definition cluster_map : Type := list (Z * list pynum).

Definition ids (clusters : cluster_map) : list Z := dict_keys clusters.

(** [list(range(n))] as a member list. *)
Definition all_indices (n : nat) : list pynum := map PInt (range (Z.of_nat n)).

(** [max(clusters.keys(), key=lambda k: len(clusters[k]))]: the first key
    of maximal size; [ValueError] on an empty map. *)
Fixpoint max_from (best : Z * list pynum) (rest : cluster_map) : Z :=
  match rest with
  | [] => fst best
  | kv :: r =>
      if (List.length (snd best) <? List.length (snd kv))%nat
      then max_from kv r else max_from best r
  end.

Definition largest (clusters : cluster_map) : res Z :=
  match clusters with
  | [] => Raise ValueError
  | kv :: r => Ok (max_from kv r)
  end.

(** [clusters[k].extend(xs)] and [clusters[k].append(x)] *)
Definition extend (k : Z) (xs : list pynum) (clusters : cluster_map)
  : cluster_map :=
  dict_update Z.eqb k (fun members => members ++ xs) clusters.

Definition append (k : Z) (x : pynum) (clusters : cluster_map) : cluster_map :=
  extend k [x] clusters.

(** *** [_cluster_initial_sample] *)

(** The variables of the validation loop. *)
Record build : Type := Build {
  clusters : cluster_map;
  seen_indices : list pynum;
  next_cluster_id : Z
}.

(** [[i for i in indices if 0 <= i < num_posts and i not in seen_indices]];
    comparing [0] with a value that is not a number raises. *)
Fixpoint valid_indices (num_posts : Z) (seen : list pynum) (indices : list json)
  : res (list pynum) :=
  match indices with
  | [] => Ok []
  | j :: rest =>
      match as_num j with
      | None => Raise TypeError
      | Some x =>
          match valid_indices num_posts seen rest with
          | Raise e => Raise e
          | Ok tail =>
              if le0 x && lt_int x num_posts && negb (py_in x seen)
              then Ok (x :: tail) else Ok tail
          end
      end
  end.

(** One turn of [for indices in clusters_array]. *)
Definition propose (num_posts min_cluster_size : Z) (st : build) (indices : json)
  : res build :=
  match py_iter indices with
  | Raise e => Raise e
  | Ok items =>
      match valid_indices num_posts (seen_indices st) items with
      | Raise e => Raise e
      | Ok valid =>
          if min_cluster_size <=? Z.of_nat (List.length valid)
          then Ok (Build (dict_set Z.eqb (next_cluster_id st) valid (clusters st))
                         (seen_indices st ++ valid)
                         (next_cluster_id st + 1))
          else Ok st
      end
  end.

Fixpoint propose_all (num_posts min_cluster_size : Z) (st : build)
  (clusters_array : list json) : res build :=
  match clusters_array with
  | [] => Ok st
  | indices :: rest =>
      match propose num_posts min_cluster_size st indices with
      | Raise e => Raise e
      | Ok st' => propose_all num_posts min_cluster_size st' rest
      end
  end.

(** [[i for i in range(num_posts) if i not in seen_indices]] *)
Definition missing_indices (num_posts : nat) (seen : list pynum) : list pynum :=
  filter (fun i => negb (py_in i seen)) (all_indices num_posts).

(** Everything after [json.loads]: validation, the missing posts, and the
    final [clusters if clusters else {0: ...}]. *)
Definition build_clusters (num_posts : nat) (min_cluster_size : Z)
  (clusters_array : json) : res cluster_map :=
  match py_iter clusters_array with
  | Raise e => Raise e
  | Ok proposals =>
      match propose_all (Z.of_nat num_posts) min_cluster_size
                        (Build [] [] 0) proposals with
      | Raise e => Raise e
      | Ok st =>
          let missing := missing_indices num_posts (seen_indices st) in
          let filled :=
            match missing with
            | [] => Ok (clusters st)
            | _ :: _ =>
                match clusters st with
                | [] => Ok (dict_set Z.eqb 0 (all_indices num_posts) [])
                | _ :: _ =>
                    match largest (clusters st) with
                    | Ok largest_cluster =>
                        Ok (extend largest_cluster missing (clusters st))
                    | Raise e => Raise e
                    end
                end
            end in
          match filled with
          | Raise e => Raise e
          | Ok [] => Ok [(0, all_indices num_posts)]
          | Ok final => Ok final
          end
      end
  end.

(** The three back-ticks of a code fence. *)
Definition fence : string :=
  String "`" (String "`" (String "`" EmptyString)).

(** [result.replace("```json", "").replace("```", "").strip()] *)
Definition unfence (result : string) : string :=
  strip (remove_all fence (remove_all (fence ++ "json") result)).

Section Decoder.
(** [json.loads]: the decoded value, or [None] for [JSONDecodeError]. *)
Variable json_loads : string -> option json.
(** Python's [int] on a string: [None] is [ValueError]. *)
Variable py_int : string -> option Z.

Definition _cluster_initial_sample (posts : list post) (min_cluster_size : Z)
  : M cluster_map :=
  (result <- ask ;;
   match json_loads (unfence result) with
   | None => raise JSONDecodeError
   | Some clusters_array =>
       lift (build_clusters (List.length posts) min_cluster_size clusters_array)
   end)%py.

(** *** [_extract_cluster_themes] *)

(** [[posts[i] for i in indices[:20]]] *)
Fixpoint pick_posts (posts : list post) (indices : list pynum)
  : res (list post) :=
  match indices with
  | [] => Ok []
  | i :: rest =>
      match py_index posts i with
      | Raise e => Raise e
      | Ok p => match pick_posts posts rest with
                | Raise e => Raise e
                | Ok ps => Ok (p :: ps)
                end
      end
  end.

(** [for cluster_id, indices in clusters.items()], with the themes
    gathered so far. *)
Fixpoint themes_loop (posts : list post) (todo : cluster_map)
  (cluster_themes : list (Z * string)) : M (list (Z * string)) :=
  match todo with
  | [] => ret cluster_themes
  | (cluster_id, indices) :: rest =>
      (cluster_posts <- lift (pick_posts posts (firstn 20 indices)) ;;
       theme <- ask ;;
       themes_loop posts rest (dict_set Z.eqb cluster_id theme cluster_themes))%py
  end.

Definition _extract_cluster_themes (posts : list post) (clusters : cluster_map)
  : M (list (Z * string)) :=
  themes_loop posts clusters [].

(** *** [_assign_posts_to_clusters] *)

(** [f"POST_{post_idx}:"] *)
Definition tag_of (post_idx : Z) : string :=
  ("POST_" ++ str_of_Z post_idx ++ ":")%string.

(** [int(line.split(':')[1].strip())] *)
Definition cluster_number (line : string) : option Z :=
  match nth_error (split_char ":" line) 1 with
  | Some field => py_int (strip field)
  | None => None
  end.

(** The inner [for line in lines] for one record: [Some] of the updated
    map when a line assigned it, [None] when the scan ends unassigned. *)
Fixpoint scan_lines (post_idx : Z) (clusters : cluster_map) (lines : list string)
  : option cluster_map :=
  match lines with
  | [] => None
  | line :: rest =>
      if contains (tag_of post_idx) line then
        match cluster_number line with
        | Some cluster_num =>
            if dict_has Z.eqb cluster_num clusters
            then Some (append cluster_num (PInt post_idx) clusters)
            else scan_lines post_idx clusters rest
        | None => scan_lines post_idx clusters rest
        end
      else scan_lines post_idx clusters rest
  end.

(** One record of a sub-batch: the scan, then the fall-back to the
    cluster that is largest now. *)
Definition assign_post (lines : list string) (clusters : cluster_map)
  (post_idx : Z) : res cluster_map :=
  match scan_lines post_idx clusters lines with
  | Some clusters' => Ok clusters'
  | None =>
      match largest clusters with
      | Ok k => Ok (append k (PInt post_idx) clusters)
      | Raise e => Raise e
      end
  end.

(** [for j, p in enumerate(batch)]: the map is threaded from record to
    record; on a raise it is returned as it stands. *)
Fixpoint assign_parsed (lines : list string) (clusters : cluster_map)
  (indices : list Z) : cluster_map * option exn :=
  match indices with
  | [] => (clusters, None)
  | post_idx :: rest =>
      match assign_post lines clusters post_idx with
      | Ok clusters' => assign_parsed lines clusters' rest
      | Raise e => (clusters, Some e)
      end
  end.

(** The [except Exception] handler of a sub-batch: the largest cluster is
    looked up once and takes every record of the sub-batch. *)
Definition assign_all_to_largest (clusters : cluster_map) (indices : list Z)
  : res cluster_map :=
  match largest clusters with
  | Raise e => Raise e
  | Ok k => Ok (fold_left (fun c post_idx => append k (PInt post_idx) c)
                          indices clusters)
  end.

(** The absolute indices [batch_start + j] of a sub-batch. *)
Definition batch_indices (batch_start : Z) (batch : list post) : list Z :=
  map (fun j => batch_start + Z.of_nat j) (seq 0 (List.length batch)).

Definition assign_batch (batch : list post) (batch_start : Z)
  (clusters : cluster_map) : M cluster_map :=
  fun w =>
    let indices := batch_indices batch_start batch in
    match ask w with
    | (Ok result, w1) =>
        match assign_parsed (lines_of result) clusters indices with
        | (clusters', None) => (Ok clusters', w1)
        | (clusters', Some _) => (assign_all_to_largest clusters' indices, w1)
        end
    | (Raise _, w1) => (assign_all_to_largest clusters indices, w1)
    end.

(** [for i in range(0, num_posts, batch_size)]; [fuel] bounds the number
    of sub-batches and [done] is [i]. *)
Fixpoint assign_loop (fuel : nat) (posts : list post) (start_idx : Z)
  (batch_size : nat) (done : nat) (clusters : cluster_map) : M cluster_map :=
  match fuel with
  | O => ret clusters
  | S fuel' =>
      match skipn done posts with
      | [] => ret clusters
      | todo =>
          (clusters' <- assign_batch (firstn batch_size todo)
                                     (start_idx + Z.of_nat done) clusters ;;
           assign_loop fuel' posts start_idx batch_size
                       (done + batch_size) clusters')%py
      end
  end.

Definition _assign_posts_to_clusters (posts : list post)
  (cluster_themes : list (Z * string)) (clusters : cluster_map)
  (start_idx : Z) (batch_size : nat) : M cluster_map :=
  match batch_size with
  | O => raise ValueError              (* range() arg 3 must not be zero *)
  | S _ => assign_loop (List.length posts) posts start_idx batch_size 0 clusters
  end.

(** *** [llm_cluster_posts] *)

Definition INITIAL_SAMPLE_SIZE : nat := 100.

(** The [return] statement a call leaves through. *)
Inductive exit_point : Type :=
| DirectResult          (* small category, clustering returned *)
| DirectFallback        (* small category, [except] *)
| NoValidClusters       (* large category, [if not clusters] *)
| ThreePhaseResult      (* large category, all phases done *)
| ThreePhaseFallback.   (* large category, [except] *)

Definition one_cluster (num_posts : nat) : cluster_map :=
  [(0, all_indices num_posts)].

Definition llm_cluster_posts_from (posts : list post) (min_cluster_size : Z)
  : M (exit_point * cluster_map) :=
  let num_posts := List.length posts in
  if (num_posts <=? INITIAL_SAMPLE_SIZE)%nat then
    try_except
      (clusters <- _cluster_initial_sample posts min_cluster_size ;;
       ret (DirectResult, clusters))%py
      (fun _ => ret (DirectFallback, one_cluster num_posts))
  else
    try_except
      (clusters <- _cluster_initial_sample (firstn INITIAL_SAMPLE_SIZE posts)
                                           min_cluster_size ;;
       match clusters with
       | [] => ret (NoValidClusters, one_cluster num_posts)
       | _ :: _ =>
           cluster_themes <- _extract_cluster_themes posts clusters ;;
           let remaining_posts := skipn INITIAL_SAMPLE_SIZE posts in
           clusters' <- match remaining_posts with
                        | [] => ret clusters
                        | _ :: _ =>
                            _assign_posts_to_clusters
                              remaining_posts cluster_themes clusters
                              (Z.of_nat INITIAL_SAMPLE_SIZE) 30
                        end ;;
           ret (ThreePhaseResult, clusters')
       end)%py
      (fun _ => ret (ThreePhaseFallback, one_cluster num_posts)).

(** The function as the callers see it: the cluster map alone. *)
Definition llm_cluster_posts (posts : list post) (min_cluster_size : Z)
  : M cluster_map :=
  (r <- llm_cluster_posts_from posts min_cluster_size ;; ret (snd r))%py.

End Decoder.
End Clustering.

(* ====================================================================== *)
(** ** Insight synthesis: [generate_insights_llm_clustering] *)
(* ====================================================================== *)

Module Insights.
Import PyStr Data Gateway Clustering.
Local Open Scope string_scope.

(** [sorted(clusters.items())]: by cluster id. *)
Fixpoint insert_item (kv : Z * list pynum) (l : cluster_map) : cluster_map :=
  match l with
  | [] => [kv]
  | h :: t => if (fst kv <=? fst h)%Z then kv :: l else h :: insert_item kv t
  end.

Definition sorted_items (clusters : cluster_map) : cluster_map :=
  fold_right insert_item [] clusters.

(** [[cat_posts[i] for i in post_indices if i < len(cat_posts)]] *)
Fixpoint cluster_posts_of (cat_posts : list post) (post_indices : list pynum)
  : res (list post) :=
  match post_indices with
  | [] => Ok []
  | i :: rest =>
      if lt_int i (Z.of_nat (List.length cat_posts)) then
        match py_index cat_posts i with
        | Raise e => Raise e
        | Ok p => match cluster_posts_of cat_posts rest with
                  | Raise e => Raise e
                  | Ok ps => Ok (p :: ps)
                  end
        end
      else cluster_posts_of cat_posts rest
  end.

(** [f"{n:02}"] *)
Definition fmt02 (n : Z) : string :=
  if (n <? 0)%Z then "-" ++ str_of_nat (Z.to_nat (- n))
  else if (n <? 10)%Z then "0" ++ str_of_nat (Z.to_nat n)
  else str_of_nat (Z.to_nat n).

(** [cat[:4].lower()] *)
Definition id_prefix (cat : string) : string := lower (take 4 cat).

Definition ids_of (posts : list post) : list string := map id posts.

(** The insight appended for a retained cluster. *)
Definition cluster_insight (cat : string) (cluster_id : Z)
  (cluster_posts : list post) (insight_text : string) : insight :=
  Insight (id_prefix cat ++ "_" ++ fmt02 (cluster_id + 1)) cat insight_text
          (ids_of cluster_posts) (List.length cluster_posts).

(** The insight over the whole category, with id suffix [all] or
    [fallback]. *)
Definition category_insight (cat suffix : string) (cat_posts : list post)
  (insight_text : string) : insight :=
  Insight (id_prefix cat ++ "_" ++ suffix) cat insight_text
          (ids_of cat_posts) (List.length cat_posts).

(** [generate_single_insight] and [generate_category_insight]: one
    oracle request each. *)
Definition generate_single_insight : M string := ask.
Definition generate_category_insight : M string := ask.

(** [for cluster_id, post_indices in sorted(clusters.items())], with the
    insights appended so far. *)
Fixpoint clusters_loop (cat : string) (cat_posts : list post)
  (min_cluster_size : Z) (todo : cluster_map) (cat_insights : list insight)
  : M (list insight) :=
  match todo with
  | [] => ret cat_insights
  | (cluster_id, post_indices) :: rest =>
      (cluster_posts <- lift (cluster_posts_of cat_posts post_indices) ;;
       if (Z.of_nat (List.length cluster_posts) <? min_cluster_size)%Z
       then clusters_loop cat cat_posts min_cluster_size rest cat_insights
       else
         insight_text <- ask ;;
         clusters_loop cat cat_posts min_cluster_size rest
           (cat_insights
            ++ [cluster_insight cat cluster_id cluster_posts insight_text])%list)%py
  end.

(** The part of the [try] body after clustering: the loop, then the
    single insight over all posts when nothing was appended. *)
Definition insights_of_clusters (cat : string) (cat_posts : list post)
  (min_cluster_size : Z) (clusters : cluster_map) : M (list insight) :=
  (cat_insights <- clusters_loop cat cat_posts min_cluster_size
                                 (sorted_items clusters) [] ;;
   match cat_insights with
   | [] =>
       insight_text <- generate_category_insight ;;
       ret [category_insight cat "all" cat_posts insight_text]
   | _ :: _ => ret cat_insights
   end)%py.

Section Decoder.
Variable json_loads : string -> option json.
Variable py_int : string -> option Z.

(** The [try] body of a category with two posts or more. *)
Definition clustered_insights (cat : string) (cat_posts : list post)
  (min_cluster_size : Z) : M (list insight) :=
  (clusters <- llm_cluster_posts json_loads py_int cat_posts min_cluster_size ;;
   insights_of_clusters cat cat_posts min_cluster_size clusters)%py.

(** The [try] with its two nested handlers. *)
Definition category_insights (cat : string) (cat_posts : list post)
  (min_cluster_size : Z) : M (list insight) :=
  try_except (clustered_insights cat cat_posts min_cluster_size)
    (fun _ =>
       try_except
         (insight_text <- generate_category_insight ;;
          ret [category_insight cat "fallback" cat_posts insight_text])%py
         (fun _ => ret [])).

Definition posts_of_category (cat : string) (posts : list post) : list post :=
  filter (fun p => match category p with
                   | Some c => String.eqb c cat
                   | None => false
                   end) posts.

(** [for cat in categories], with [insights_db] as filled so far. *)
Fixpoint categories_loop (posts : list post) (min_cluster_size : Z)
  (todo : list string) (insights_db : list (string * list insight))
  : M (list (string * list insight)) :=
  match todo with
  | [] => ret insights_db
  | cat :: rest =>
      match posts_of_category cat posts with
      | [] => categories_loop posts min_cluster_size rest insights_db
      | [p] =>
          (insight_text <- generate_single_insight ;;
           categories_loop posts min_cluster_size rest
             (dict_set String.eqb cat
                [Insight (id_prefix cat ++ "_01") cat insight_text [id p] 1]
                insights_db))%py
      | cat_posts =>
          (cat_insights <- category_insights cat cat_posts min_cluster_size ;;
           categories_loop posts min_cluster_size rest
             (dict_set String.eqb cat cat_insights insights_db))%py
      end
  end.

Definition generate_insights_llm_clustering (posts : list post)
  (categories : list string) (min_cluster_size : Z)
  : M (list (string * list insight)) :=
  categories_loop posts min_cluster_size categories [].

End Decoder.
End Insights.

(* ====================================================================== *)
(** ** The stages in sequence: [run_pipeline] *)
(* ====================================================================== *)

Module Pipeline.
Import PyStr Data Gateway Clustering Insights.
Local Open Scope string_scope.

Definition BATCH_SIZE : nat := 10.

Definition FIXED_CATEGORIES : list string :=
  [ "Product Efficacy & Usage"; "Purchase Drivers & Intent";
    "Customer Journey Stage"; "Experience Friction" ].

(** The slices [posts[i:i+size]] for [i in range(0, len(posts), size)]. *)
Fixpoint batches {A} (fuel size : nat) (l : list A) : list (list A) :=
  match fuel with
  | O => []
  | S fuel' =>
      match l with
      | [] => []
      | _ :: _ => firstn size l :: batches fuel' size (skipn size l)
      end
  end.

Definition with_summary (p : post) (item : string * string) : post :=
  Post (id p) (title p) (Some (fst item)) (Some (snd item)) (category p).

Definition with_category (p : post) (cat : string) : post :=
  Post (id p) (title p) (summary p) (sentiment p) (Some cat).

(** One batch of [summarize_posts]: the parsed items, or on a raise the
    title and [neutral] for every post of the batch. *)
Definition summarize_one_batch (batch : list post) : M (list post) :=
  try_except
    (summaries <- Summarize.summarize_batch batch ;;
     ret (map (fun ps => with_summary (fst ps) (snd ps))
              (combine batch summaries)))%py
    (fun _ => ret (map (fun p => with_summary p (title p, "neutral")) batch)).

Fixpoint summarize_batches (todo : list (list post)) (summarized : list post)
  : M (list post) :=
  match todo with
  | [] => ret summarized
  | batch :: rest =>
      (done <- summarize_one_batch batch ;;
       summarize_batches rest (summarized ++ done)%list)%py
  end.

Definition summarize_posts (posts : list post) : M (list post) :=
  summarize_batches (batches (List.length posts) BATCH_SIZE posts) [].

Section Decoder.
Variable json_loads : string -> option json.
Variable py_int : string -> option Z.

Definition categorize_one_batch (categories : list string) (batch : list post)
  : M (list post) :=
  try_except
    (cats <- Categorize.categorize_batch py_int batch categories ;;
     ret (map (fun pc => with_category (fst pc) (snd pc))
              (combine batch cats)))%py
    (fun _ => ret (map (fun p => with_category p "Uncategorized") batch)).

Fixpoint categorize_batches (categories : list string)
  (todo : list (list post)) (categorized : list post) : M (list post) :=
  match todo with
  | [] => ret categorized
  | batch :: rest =>
      (done <- categorize_one_batch categories batch ;;
       categorize_batches categories rest (categorized ++ done)%list)%py
  end.

Definition categorize_posts (posts : list post) (categories : list string)
  : M (list post) :=
  categorize_batches categories (batches (List.length posts) BATCH_SIZE posts) [].

(** [save_outputs] followed by [generate_dashboard_json]: the aggregate
    reaches the persistence layer. *)
Definition save_outputs (a : aggregate) : M unit :=
  fun w => (Ok tt, World (oracle w) (calls w) (slept w) (saved w ++ [a])).

(** [run_pipeline], from the outcome of the scraping step on.  The
    function has no [return <value>]: the Python result is [None],
    here [tt], and the aggregate only travels through [save_outputs]. *)
Definition run_pipeline (scraped : res (list post)) (min_cluster_size : Z)
  : M unit :=
  try_except
    (posts <- lift scraped ;;
     match posts with
     | [] => ret tt                         (* "No posts found. Exiting." *)
     | _ :: _ =>
         summarized <- summarize_posts posts ;;
         categorized <- categorize_posts summarized FIXED_CATEGORIES ;;
         insights <- generate_insights_llm_clustering json_loads py_int
                       categorized FIXED_CATEGORIES min_cluster_size ;;
         save_outputs (categorized, insights)
     end)%py
    (fun e => raise e).

End Decoder.
End Pipeline.

(* ====================================================================== *)
(** ** Concrete oracles and a decoder for index arrays *)
(* ====================================================================== *)

Module Samples.
Import PyStr Data Gateway Clustering.
Local Open Scope string_scope.

(** JSON white space: space, TAB, LF, CR. *)
Definition json_ws (c : ascii) : bool :=
  let n := nat_of_ascii c in ((n =? 32) || (n =? 9) || (n =? 10) || (n =? 13))%nat.

Fixpoint skip_ws (s : string) : string :=
  match s with
  | String c r => if json_ws c then skip_ws r else s
  | EmptyString => EmptyString
  end.

(** The digits at the head of [s], their value, and the rest. *)
Fixpoint read_nat (acc : Z) (seen_digit : bool) (s : string)
  : option (Z * string) :=
  match s with
  | String c r =>
      match digit_val c with
      | Some d => read_nat (10 * acc + d)%Z true r
      | None => if seen_digit then Some (acc, s) else None
      end
  | EmptyString => if seen_digit then Some (acc, s) else None
  end.

(** A JSON integer: no leading zero except for zero itself. *)
Definition read_int (s : string) : option (json * string) :=
  let unsigned t :=
    match t with
    | String "0" (String c _) =>
        match digit_val c with
        | Some _ => None
        | None => read_nat 0 false t
        end
    | _ => read_nat 0 false t
    end in
  match s with
  | String "-" r =>
      match unsigned r with
      | Some (z, rest) => Some (JInt (- z), rest)
      | None => None
      end
  | _ => match unsigned s with
         | Some (z, rest) => Some (JInt z, rest)
         | None => None
         end
  end.

Fixpoint read_value (fuel : nat) (s : string) : option (json * string) :=
  match fuel with
  | O => None
  | S fuel' =>
      match skip_ws s with
      | String "[" r =>
          match skip_ws r with
          | String "]" r' => Some (JArr [], r')
          | _ => read_items fuel' r []
          end
      | t => read_int t
      end
  end
with read_items (fuel : nat) (s : string) (acc : list json)
  : option (json * string) :=
  match fuel with
  | O => None
  | S fuel' =>
      match read_value fuel' s with
      | None => None
      | Some (v, r) =>
          match skip_ws r with
          | String "," r' => read_items fuel' r' (acc ++ [v])
          | String "]" r' => Some (JArr (acc ++ [v]), r')
          | _ => None
          end
      end
  end.

(** A decoder for the texts the clustering prompt asks for: arrays,
    nested at will, of JSON integers.  On such a text it returns the value
    [json.loads] returns; it accepts nothing else. *)
Definition loads_index_arrays (text : string) : option json :=
  match read_value (2 * String.length text + 2) text with
  | Some (v, rest) =>
      match skip_ws rest with
      | EmptyString => Some v
      | _ => None
      end
  | None => None
  end.

(** An oracle that answers its requests from a script and fails once the
    script is used up. *)
Definition scripted (script : list attempt) : nat -> attempt :=
  fun n => nth n script (Failure (OracleError "no answer")).

Definition start (script : list attempt) : world :=
  World (scripted script) 0 [] [].

Definition down : attempt := Failure (OracleError "timeout").

(** [n] posts with ids [p0, p1, ...], all in category [cat]. *)
Definition sample_post (cat : string) (i : nat) : post :=
  Post ("p" ++ str_of_nat i) ("title " ++ str_of_nat i)
       (Some ("summary " ++ str_of_nat i)) (Some "neutral") (Some cat).

Definition sample_posts (cat : string) (n : nat) : list post :=
  map (sample_post cat) (seq 0 n).


Definition newline : string := String (ascii_of_nat 10) "".

End Samples.

(* ====================================================================== *)
(** ** Properties the theorems speak about *)
(* ====================================================================== *)

Module Spec.
Import Data Gateway Clustering Insights.

(** [x in clusters[k]] *)
Definition held_by (clusters : cluster_map) (k : Z) (x : pynum) : Prop :=
  exists members,
    dict_get Z.eqb k clusters = Some members /\ py_in x members = true.

(** The ids are [0, 1, ..., K-1], in this order, for the [K] clusters of
    the map. *)
Definition contiguous_ids (clusters : cluster_map) : Prop :=
  ids clusters = range (Z.of_nat (List.length clusters)).

(** The member lists, one after the other. *)
Definition all_members (clusters : cluster_map) : list pynum :=
  List.concat (map snd clusters).

(** The member lists hold exactly the indices [0 .. num_posts-1], each
    once over all lists. *)
Definition exact_partition (num_posts : nat) (clusters : cluster_map) : Prop :=
  Permutation (all_members clusters) (all_indices num_posts).


(** What the validation loop of [_cluster_initial_sample] maintains. *)
Record build_ok (num_posts min_cluster_size : Z) (st : build) : Prop := {
  ok_next : next_cluster_id st = Z.of_nat (List.length (clusters st));
  ok_ids : ids (clusters st) = range (next_cluster_id st);
  ok_members : all_members (clusters st) = seen_indices st;
  ok_range : forall x, In x (seen_indices st) ->
               le0 x = true /\ lt_int x num_posts = true;
  ok_size : forall k members, In (k, members) (clusters st) ->
              min_cluster_size <= Z.of_nat (List.length members);
  ok_disjoint : forall k1 members1 k2 members2 x y,
      In (k1, members1) (clusters st) -> In (k2, members2) (clusters st) ->
      k1 <> k2 -> In x members1 -> In y members2 -> py_eqb x y = false
}.

(** The validation of the proposed clusters in the spec's words: each
    proposal is filtered against the range and against the indices claimed
    by the proposals kept before it, and it is kept when its filtered size
    meets the floor.  The result lists the filtered proposals that are
    kept, in the order proposed. *)
Fixpoint kept_clusters (num_posts min_cluster_size : Z) (seen : list pynum)
  (proposals : list json) : res (list (list pynum)) :=
  match proposals with
  | [] => Ok []
  | indices :: rest =>
      match py_iter indices with
      | Raise e => Raise e
      | Ok items =>
          match valid_indices num_posts seen items with
          | Raise e => Raise e
          | Ok valid =>
              if min_cluster_size <=? Z.of_nat (List.length valid)
              then match kept_clusters num_posts min_cluster_size
                           (seen ++ valid) rest with
                   | Ok kept => Ok (valid :: kept)
                   | Raise e => Raise e
                   end
              else kept_clusters num_posts min_cluster_size seen rest
          end
      end
  end.

(** The test [len(cluster_posts) >= min_cluster_size] of the insight
    loop, for one item of the cluster map. *)
Definition meets_floor (cat_posts : list post) (min_cluster_size : Z)
  (item : Z * list pynum) : bool :=
  match cluster_posts_of cat_posts (snd item) with
  | Ok cluster_posts => min_cluster_size <=? Z.of_nat (List.length cluster_posts)
  | Raise _ => false
  end.

(** The clusters the insight loop keeps, in the order it visits them. *)
Definition retained (cat_posts : list post) (min_cluster_size : Z)
  (clusters : cluster_map) : cluster_map :=
  filter (meets_floor cat_posts min_cluster_size) (sorted_items clusters).

(** An insight made for the cluster [item]: its id, its posts. *)
Definition insight_for (cat : string) (cat_posts : list post)
  (item : Z * list pynum) (ins : insight) : Prop :=
  exists cluster_posts insight_text,
    cluster_posts_of cat_posts (snd item) = Ok cluster_posts /\
    ins = cluster_insight cat (fst item) cluster_posts insight_text.

(** A reply made of integers only, no index twice in one proposed
    cluster. *)
Definition index_arrays (clusters_array : json) : Prop :=
  exists proposals : list (list Z),
    clusters_array = JArr (map (fun c => JArr (map JInt c)) proposals) /\
    Forall (@NoDup Z) proposals.

(** What [_cluster_initial_sample] decodes when it is called in world [w]:
    the reply that survives the retries, without its code fence, through
    [json.loads]; [None] when the call or the decoding fails. *)
Definition decoded_reply (json_loads : string -> option json) (w : world)
  : option json :=
  match ask w with
  | (Ok result, _) => json_loads (unfence result)
  | (Raise _, _) => None
  end.

(** The indices seen by the validation loop are distinct integers of the
    sample. *)
Definition int_seen (num_posts : nat) (seen : list pynum) : Prop :=
  NoDup seen /\ forall x, In x seen -> In x (all_indices num_posts).

(** The absolute indices [lo, lo+1, ..., lo+n-1]. *)
Definition span (lo : Z) (n : nat) : list Z :=
  map (fun j => lo + Z.of_nat j) (seq 0 n).



(** What the spec asks of one record of phase 3: the cluster its line
    names, or else the cluster that is largest in the map at that moment. *)
Definition place_record (py_int : string -> option Z)
  (reply : option (list string)) (clusters : cluster_map) (post_idx : Z)
  : cluster_map :=
  match match reply with
        | Some lines => scan_lines py_int post_idx clusters lines
        | None => None
        end with
  | Some clusters' => clusters'
  | None =>
      match largest clusters with
      | Ok k => append k (PInt post_idx) clusters
      | Raise _ => clusters
      end
  end.

End Spec.

(* ====================================================================== *)
(** ** What a stage does to the world and to the records *)
(* ====================================================================== *)

Module Stages.
Import Data Gateway Clustering.
Local Open Scope string_scope.

(** A computation that leaves the oracle and the saved aggregates alone
    and makes at most [n] requests, whatever the world. *)
Definition within {A} (n : nat) (c : M A) : Prop :=
  forall w, oracle (snd (c w)) = oracle w /\
            saved (snd (c w)) = saved w /\
            (calls w <= calls (snd (c w)) <= calls w + n)%nat.

(** A computation that leaves the oracle and the saved aggregates alone. *)
Definition silent {A} (c : M A) : Prop :=
  forall w, oracle (snd (c w)) = oracle w /\ saved (snd (c w)) = saved w.

(** The three labels the summarization stage can attach. *)
Definition LABELS : list string := ["positive"; "neutral"; "negative"].

(** Both keys written by [summarize_posts] are present, and the label is
    one of the three. *)
Definition summarized (p : post) : Prop :=
  exists s l, summary p = Some s /\ sentiment p = Some l /\ In l LABELS.

(** The key written by [categorize_posts] is present, with a category of
    the list or the sentinel. *)
Definition categorized (categories : list string) (p : post) : Prop :=
  exists c, category p = Some c /\ (In c categories \/ c = "Uncategorized").

(** A post as both batched stages leave it when every request fails: the
    title for summary, [neutral], [Uncategorized]. *)
Definition degraded (p : post) : post :=
  Post (id p) (title p) (Some (title p)) (Some "neutral") (Some "Uncategorized").

(** [ceil(n / size)]: the number of slices [posts[i:i+size]]. *)
Definition batch_count (n size : nat) : nat := ((n + size - 1) / size)%nat.

(** An insight of category [cat] that links posts of [cat_posts] only,
    with [cluster_size] the number of links. *)
Definition links_within (cat : string) (cat_posts : list post) (ins : insight)
  : Prop :=
  insight_category ins = cat /\
  incl (linked_posts ins) (map id cat_posts) /\
  cluster_size ins = List.length (linked_posts ins).

End Stages.

(* ====================================================================== *)
(** ** Coverage of the posts by a cluster map *)
(* ====================================================================== *)

Module Cover.
Import Data Gateway Clustering Spec.

(** Every member of the map is a number below [n]. *)
Definition below (n : Z) (c : cluster_map) : Prop :=
  forall k members x, In (k, members) c -> In x members -> lt_int x n = true.

(** Index [i] is a member of one cluster of the map and of no other. *)
Definition in_one_cluster (c : cluster_map) (i : Z) : Prop :=
  exists k, held_by c k (PInt i) /\
            forall k', held_by c k' (PInt i) -> k' = k.

(** The map has distinct ids, holds nothing beyond the first [n] indices,
    and each of these is in one cluster exactly. *)
Definition covers (n : Z) (c : cluster_map) : Prop :=
  NoDup (ids c) /\ below n c /\ forall i, 0 <= i < n -> in_one_cluster c i.

(** [c'] is [c] after each index of the list, in turn, was appended to
    the member list of some cluster the map already has. *)
Inductive appended : cluster_map -> list Z -> cluster_map -> Prop :=
| appended_nil c : appended c [] c
| appended_cons c k i rest c' :
    In k (ids c) ->
    appended (append k (PInt i) c) rest c' ->
    appended c (i :: rest) c'.

End Cover.

(* ====================================================================== *)
(** ** Step 6: how [generate_dashboard_json] resolves the links *)
(* ====================================================================== *)

Module Dashboard.
Import PyStr Data.
Local Open Scope string_scope.

(** [{p["id"]: p for p in posts}] *)
Definition post_lookup (posts : list post) : list (string * post) :=
  fold_left (fun d p => dict_set String.eqb (id p) p d) posts [].

(** [[post_lookup[i] for i in linked_posts if i in post_lookup]] *)
Definition linked (lookup : list (string * post)) (linked_posts : list string)
  : list post :=
  flat_map (fun i => match dict_get String.eqb i lookup with
                     | Some p => [p]
                     | None => []
                     end) linked_posts.

(** [linked] as the loop computes it for the insight [ins]; the entry's
    [linked_posts_full] lists fields of these posts, one item per post. *)
Definition linked_of (posts : list post) (ins : insight) : list post :=
  linked (post_lookup posts) (linked_posts ins).

End Dashboard.

(* ====================================================================== *)
(** ** Step 1: the two scrapers *)
(* ====================================================================== *)

Module Scrape.
Import PyStr Clustering.

Definition MIN_SCORE : Z := 0.
Definition MIN_NUM_COMMENTS : Z := 0.

(** The attributes the scrapers read from a listing item. *)
Record submission : Type := Submission {
  subm_id : string;
  subm_title : string;
  subm_selftext : option string;
  subm_score : Z;
  subm_num_comments : Z;
  subm_created_utc : pynum;
  subm_permalink : string
}.

(** The dict built for a scraped post. *)
Record scraped : Type := Scraped {
  id : string;
  title : string;
  selftext : string;
  score : Z;
  num_comments : Z;
  created_utc : pynum;
  created_iso : string;
  permalink : string
}.

(** [int(x)] on a number: truncation toward zero; [None] stands for the
    [ValueError] of a NaN and the [OverflowError] of an infinity. *)
Definition py_trunc (x : pynum) : option Z :=
  match x with
  | PInt z => Some z
  | PBool b => Some (if b then 1 else 0)
  | PFloat (FDyadic m e) =>
      Some (if 0 <=? e then m * 2 ^ e else Z.quot m (2 ^ (- e)))
  | PFloat _ => None
  end.

(** [x < y] on numbers. *)
Definition py_ltb (x y : pynum) : bool :=
  match dyadic_of x, dyadic_of y with
  | Some (m1, e1), Some (m2, e2) =>
      let e := Z.min e1 e2 in
      m1 * 2 ^ (e1 - e) <? m2 * 2 ^ (e2 - e)
  | Some _, None => match y with PFloat (FInf false) => true | _ => false end
  | None, Some _ => match x with PFloat (FInf true) => true | _ => false end
  | None, None =>
      match x, y with
      | PFloat (FInf true), PFloat (FInf false) => true
      | _, _ => false
      end
  end.

(** [l[:n]] for an int [n] of either sign. *)
Definition py_take {A} (n : Z) (l : list A) : list A :=
  if 0 <=? n then firstn (Z.to_nat n) l
  else firstn (List.length l - Z.to_nat (- n)) l.

Section Sorting.
Context {A K : Type} (ltb : K -> K -> bool) (key : A -> K).

(** [l.sort(key=key, reverse=True)]: descending and stable, posts with
    equal keys keep their order. *)
Fixpoint insert_desc (x : A) (l : list A) : list A :=
  match l with
  | [] => [x]
  | h :: t => if ltb (key x) (key h) then h :: insert_desc x t else x :: l
  end.

Definition sort_desc (l : list A) : list A := fold_right insert_desc [] l.

End Sorting.

(** Descending by an integer key. *)
Definition descending {A} (key : A -> Z) (a b : A) : Prop := key b <= key a.

(** How a call can end: with a value, with an exception that leaves the
    function, or not at all within the steps allowed. *)
Inductive outcome (A : Type) : Type :=
| Returns (a : A)
| Raises
| OutOfFuel.
Arguments Returns {A} a.
Arguments Raises {A}.
Arguments OutOfFuel {A}.

Section Clock.
(** [datetime.fromtimestamp(t, tz=timezone.utc).isoformat()]; [None]
    when [fromtimestamp] raises. *)
Variable fromtimestamp : pynum -> option string.

(** The dict literal of both scrapers. *)
Definition post_of (subm : submission) : option scraped :=
  match fromtimestamp (subm_created_utc subm) with
  | Some iso =>
      Some (Scraped (subm_id subm) (subm_title subm)
                    (match subm_selftext subm with Some s => s | None => ""%string end)
                    (subm_score subm) (subm_num_comments subm)
                    (subm_created_utc subm) iso
                    ("https://reddit.com" ++ subm_permalink subm)%string)
  | None => None
  end.

(** [max_posts and len(posts) >= max_posts] *)
Definition limit_reached (max_posts : option Z) (posts : list scraped) : bool :=
  match max_posts with
  | None => false
  | Some n => negb (n =? 0) && (n <=? Z.of_nat (List.length posts))
  end.

(** The [for subm in ...new(limit=None)] loop of [scrape_subreddit], over
    the items the listing yields before it ends or raises; [posts] is the
    list built so far.  An exception inside the loop is caught at once and
    ends it as a [break] does. *)
Fixpoint scrape_loop (cutoff_utc : Z) (max_posts : option Z)
  (listing : list submission) (posts : list scraped) : list scraped :=
  match listing with
  | [] => posts
  | subm :: rest =>
      match py_trunc (subm_created_utc subm) with
      | None => posts
      | Some t =>
          if t <? cutoff_utc then posts
          else if subm_score subm <? MIN_SCORE
          then scrape_loop cutoff_utc max_posts rest posts
          else if (0 <? MIN_NUM_COMMENTS)
                  && (subm_num_comments subm <? MIN_NUM_COMMENTS)
          then scrape_loop cutoff_utc max_posts rest posts
          else
            match post_of subm with
            | None => posts
            | Some post =>
                let posts' := (posts ++ [post])%list in
                if limit_reached max_posts posts' then posts'
                else scrape_loop cutoff_utc max_posts rest posts'
            end
      end
  end.

Definition scrape_subreddit (listing : list submission) (cutoff_utc : Z)
  (max_posts : option Z) : list scraped :=
  scrape_loop cutoff_utc max_posts listing [].

(** The fetch loop of [scrape_subreddit_top_timesliced], inside its
    [try]: the posts built before the listing ends or something raises. *)
Fixpoint collect (listing : list submission) : list scraped :=
  match listing with
  | [] => []
  | subm :: rest =>
      match post_of subm with
      | Some post => post :: collect rest
      | None => []
      end
  end.

(** [[p for p in l if lo <= int(p["created_utc"]) <= hi and keep(p)]];
    [None] when [int] raises on some post. *)
Fixpoint between (lo hi : Z) (keep : scraped -> bool) (l : list scraped)
  : option (list scraped) :=
  match l with
  | [] => Some []
  | p :: rest =>
      match py_trunc (created_utc p) with
      | None => None
      | Some t =>
          match between lo hi keep rest with
          | None => None
          | Some tail =>
              if (lo <=? t) && (t <=? hi) && keep p
              then Some (p :: tail) else Some tail
          end
      end
  end.

(** The two filters of a slice beside its time bounds. *)
Definition popular (p : scraped) : bool :=
  (MIN_SCORE <=? score p)
  && ((MIN_NUM_COMMENTS <=? 0) || (MIN_NUM_COMMENTS <=? num_comments p)).

(** The posts a non-empty slice contributes: the [per_slice] first by
    score. *)
Definition select_top (per_slice : Z) (slice_posts : list scraped)
  : list scraped :=
  py_take per_slice (sort_desc Z.ltb score slice_posts).

(** The [while current_end > start_ts] loop; each turn also formats both
    bounds of the slice for its progress line. *)
Fixpoint slices (fuel : nat) (window_posts : list scraped)
  (start_ts slice_days per_slice current_end : Z) (result : list scraped)
  : outcome (list scraped) :=
  match fuel with
  | O => OutOfFuel
  | S fuel' =>
      if start_ts <? current_end then
        let current_start :=
          Z.max start_ts (current_end - slice_days * 86400 + 1) in
        match between current_start current_end popular window_posts with
        | None => Raises
        | Some slice_posts =>
            let result' :=
              match slice_posts with
              | [] => result
              | _ :: _ => (result ++ select_top per_slice slice_posts)%list
              end in
            match fromtimestamp (PInt current_start),
                  fromtimestamp (PInt current_end) with
            | Some _, Some _ =>
                slices fuel' window_posts start_ts slice_days per_slice
                       (current_start - 1) result'
            | _, _ => Raises
            end
        end
      else Returns result
  end.

(** The final loop: a post is kept when its id is not empty and was not
    seen before. *)
Fixpoint dedupe (seen_ids : list string) (result : list scraped)
  : list scraped :=
  match result with
  | [] => []
  | p :: rest =>
      if negb (String.eqb (id p) "") && negb (existsb (String.eqb (id p)) seen_ids)
      then p :: dedupe (id p :: seen_ids) rest
      else dedupe seen_ids rest
  end.

(** [scrape_subreddit_top_timesliced], from the items its listing yields
    on, with [end_ts] for [int(end_dt.timestamp())]. *)
Definition scrape_subreddit_top_timesliced (fuel : nat)
  (listing : list submission) (end_ts lookback_days slice_days per_slice : Z)
  : outcome (list scraped) :=
  let start_ts := end_ts - lookback_days * 86400 in
  match collect listing with
  | [] => Returns []
  | collected =>
      match between start_ts end_ts (fun _ => true) collected with
      | None => Raises
      | Some [] => Returns []
      | Some window_posts =>
          match slices fuel (sort_desc py_ltb created_utc window_posts)
                       start_ts slice_days per_slice end_ts [] with
          | Returns result => Returns (dedupe [] result)
          | Raises => Raises
          | OutOfFuel => OutOfFuel
          end
      end
  end.

End Clock.
End Scrape.

(* ====================================================================== *)
(** ** Run directories: [save_outputs] names them, [backend/app.py] reads
       them back *)
(* ====================================================================== *)

Module Backend.
Import PyStr Clustering Scrape.
Local Open Scope string_scope.

(** An item of [PIPELINE_OUTPUT_DIR.iterdir()]: its name, whether it is a
    directory, and the float [stat().st_mtime]. *)
Record entry : Type := Entry {
  name : string;
  is_dir : bool;
  st_mtime : pynum
}.

(** [sep.join(parts)] *)
Fixpoint join (sep : string) (parts : list string) : string :=
  match parts with
  | [] => ""
  | [p] => p
  | p :: rest => p ++ sep ++ join sep rest
  end.

(** The directory [save_outputs] creates under [OUTPUT_DIR]:
    [f"{subreddit}_{timestamp}"], the time stamp being
    [strftime("%Y%m%d_%H%M%S")] with its date and time digits. *)
Definition run_dir_name (subreddit date time : string) : string :=
  subreddit ++ "_" ++ (date ++ "_" ++ time).

(** [item.is_dir() and item.name.startswith(f"{subreddit}_")] *)
Definition matches (subreddit : string) (item : entry) : bool :=
  is_dir item && startswith (subreddit ++ "_") (name item).

(** [find_latest_output]; [None] for [listing] when
    [PIPELINE_OUTPUT_DIR] does not exist. *)
Definition find_latest_output (listing : option (list entry))
  (subreddit : string) : option entry :=
  match listing with
  | None => None
  | Some items =>
      let matching_dirs := filter (matches subreddit) items in
      match matching_dirs with
      | [] => None
      | _ :: _ =>
          match sort_desc py_ltb st_mtime matching_dirs with
          | latest :: _ => Some latest
          | [] => None
          end
      end
  end.

(** The subreddit [load_existing_data] files a directory under:
    everything before the last two [_]-separated parts; [None] when the
    directory is skipped. *)
Definition subreddit_of_dir (item : entry) : option string :=
  if is_dir item && contains "_" (name item) then
    let parts := split_char "_" (name item) in
    if (3 <=? List.length parts)%nat
    then Some (join "_" (firstn (List.length parts - 2) parts))
    else None
  else None.

(** A float that is neither NaN nor an infinity, or an int. *)
Definition finite (x : pynum) : Prop := dyadic_of x <> None.

(** [a] is not below [b] by a numeric key. *)
Definition not_below {A} (key : A -> pynum) (a b : A) : Prop :=
  py_ltb (key a) (key b) = false.

End Backend.

(* ====================================================================== *)
(** ** Sample listings and a clock *)
(* ====================================================================== *)

Module ScrapeSamples.
Import PyStr Clustering Scrape.
Local Open Scope string_scope.

(** A clock for the years 1970 to 9999: it accepts the epoch seconds of
    that range and renders them as a decimal. *)
Definition clock (t : pynum) : option string :=
  match py_trunc t with
  | Some z =>
      if ((0 <=? z) && (z <? 253402300800))%Z
      then Some ("t" ++ str_of_nat (Z.to_nat z)) else None
  | None => None
  end.

(** A link post (no self text, no comment) named [name], created at the
    whole second [created]. *)
Definition item (name : string) (points created : Z) : submission :=
  Submission name ("title " ++ name) None points 0
             (PFloat (FDyadic created 0)) ("/r/sample/" ++ name).

(** Five items: [a] twice, a post with a negative score, and one older
    than every window used below. *)
Definition listing : list submission :=
  [ item "a" 5 150000; item "b" 7 100000; item "a" 9 50000;
    item "c" (-1) 160000; item "d" 3 10 ].

End ScrapeSamples.

(* ====================================================================== *)
(** * Proofs *)
(* ====================================================================== *)

Ltac split5 := split; [|split; [|split; [|split]]].

Section RetryFacts.
Import PyStr Gateway.
Variables (retries delay : Z).

Lemma call_reply w text :
  oracle w (calls w) = Reply text ->
  call w = (Ok (strip text), World (oracle w) (S (calls w)) (slept w) (saved w)).
Proof. unfold call. now intros ->. Qed.

Lemma call_failure w e :
  oracle w (calls w) = Failure e ->
  call w = (Raise e, World (oracle w) (S (calls w)) (slept w) (saved w)).
Proof. unfold call. now intros ->. Qed.

Lemma sleep_in_range d w :
  0 <= d <= SLEEP_MAX ->
  sleep d w = (Ok tt, World (oracle w) (calls w) (slept w ++ [d]) (saved w)).
Proof.
  intros Hd. unfold sleep.
  destruct (Z.ltb_spec SLEEP_MAX (Z.abs d)); [lia|].
  destruct (Z.ltb_spec d 0); [lia | reflexivity].
Qed.

Lemma sleep_negative d w :
  - SLEEP_MAX <= d < 0 -> sleep d w = (Raise ValueError, w).
Proof.
  intros Hd. unfold sleep.
  destruct (Z.ltb_spec SLEEP_MAX (Z.abs d)); [lia|].
  destruct (Z.ltb_spec d 0); [reflexivity | lia].
Qed.

(** Every back-off of the loop is a length [time.sleep] takes. *)
Lemma backoff_in_range i :
  0 <= delay -> delay * 2 ^ (retries - 2) <= SLEEP_MAX ->
  0 <= i < retries - 1 ->
  0 <= delay * 2 ^ i <= SLEEP_MAX.
Proof.
  intros Hd Hmax Hi. split; [apply Z.mul_nonneg_nonneg; [lia | apply Z.pow_nonneg; lia]|].
  apply Z.le_trans with (delay * 2 ^ (retries - 2)); [|exact Hmax].
  apply Z.mul_le_mono_nonneg_l; [exact Hd|].
  apply Z.pow_le_mono_r; lia.
Qed.

Lemma retry_loop_spec :
  forall m a w,
    0 <= delay -> delay * 2 ^ (retries - 2) <= SLEEP_MAX ->
    (a + m = Z.to_nat retries)%nat ->
    let out := retry_loop call retries delay (map Z.of_nat (seq a m)) w in
    oracle (snd out) = oracle w /\
    saved (snd out) = saved w /\
    (calls (snd out) <= calls w + m)%nat /\
    (forall k text, (k < m)%nat ->
        (forall j, (j < k)%nat -> failed_at w (calls w + j)) ->
        oracle w (calls w + k) = Reply text ->
        fst out = Ok (Some (strip text)) /\
        calls (snd out) = (calls w + k + 1)%nat /\
        slept (snd out) = slept w ++ backoffs delay a k) /\
    (forall e, (0 < m)%nat ->
        (forall j, (j < m)%nat -> failed_at w (calls w + j)) ->
        oracle w (calls w + (m - 1)) = Failure e ->
        fst out = Raise e /\
        calls (snd out) = (calls w + m)%nat /\
        slept (snd out) = slept w ++ backoffs delay a (m - 1)).
Proof.
  induction m as [|m IH]; intros a w Hd Hmax Hn; cbn zeta.
  - cbn. split5; try lia; try reflexivity; intros; lia.
  - cbn [seq map retry_loop].
    destruct (oracle w (calls w)) as [text0|e0] eqn:Ho.
    + rewrite (call_reply _ _ Ho). cbn.
      split5; try lia; try reflexivity.
      * intros k text Hk Hj Hr. destruct k as [|k].
        -- rewrite Nat.add_0_r, Ho in Hr. injection Hr as <-.
           rewrite app_nil_r. repeat split; try lia.
        -- destruct (Hj 0%nat ltac:(lia)) as [e He].
           rewrite Nat.add_0_r, Ho in He. discriminate.
      * intros e _ Hj _. destruct (Hj 0%nat ltac:(lia)) as [e' He].
        rewrite Nat.add_0_r, Ho in He. discriminate.
    + rewrite (call_failure _ _ Ho).
      destruct (Z.ltb_spec (Z.of_nat a) (retries - 1)) as [Hlt|Hge].
      * (* another attempt follows *)
        assert (Hm : (0 < m)%nat) by lia.
        set (w2 := World (oracle w) (S (calls w))
                         (slept w ++ [delay * 2 ^ Z.of_nat a]) (saved w)).
        assert (Hstep :
          bind (sleep (delay * 2 ^ Z.of_nat a))
               (fun _ => retry_loop call retries delay
                           (map Z.of_nat (seq (S a) m)))
               (World (oracle w) (S (calls w)) (slept w) (saved w))
          = retry_loop call retries delay (map Z.of_nat (seq (S a) m)) w2).
        { unfold bind.
          now rewrite (sleep_in_range _ _
                         (backoff_in_range (Z.of_nat a) Hd Hmax ltac:(lia))). }
        rewrite Hstep. clear Hstep.
        specialize (IH (S a) w2 Hd Hmax ltac:(lia)). cbn zeta in IH.
        destruct IH as (IHo & IHs & IHc & IHok & IHex).
        cbn [oracle calls slept saved w2] in *.
        assert (Hshift : forall n, (forall j, (j < S n)%nat -> failed_at w (calls w + j)) ->
                  forall j, (j < n)%nat -> failed_at w2 (S (calls w) + j)).
        { intros n Hj j Hjn. specialize (Hj (S j) ltac:(lia)).
          unfold failed_at in *. unfold w2; cbn [oracle].
          now replace (S (calls w) + j)%nat with (calls w + S j)%nat by lia. }
        split5; try assumption; try lia.
        -- intros k text Hk Hj Hr. destruct k as [|k].
           ++ rewrite Nat.add_0_r, Ho in Hr. discriminate.
           ++ destruct (IHok k text ltac:(lia)) as (H1 & H2 & H3).
              ** now apply Hshift.
              ** replace (S (calls w) + k)%nat with (calls w + S k)%nat by lia.
                 exact Hr.
              ** split; [assumption|]. split; [lia|].
                 rewrite H3, <- app_assoc. reflexivity.
        -- intros e _ Hj He.
           destruct (IHex e Hm) as (H1 & H2 & H3).
           ++ now apply Hshift.
           ++ now replace (S (calls w) + (m - 1))%nat
                with (calls w + (S m - 1))%nat by lia.
           ++ split; [assumption|]. split; [lia|].
              rewrite H3, <- app_assoc.
              replace (S m - 1)%nat with (S (m - 1)) by lia.
              reflexivity.
      * (* the last attempt: re-raise *)
        assert (Hm : m = 0%nat) by lia. subst m. cbn.
        split5; try lia; try reflexivity.
        -- intros k text Hk _ Hr. assert (k = 0%nat) by lia. subst k.
           rewrite Nat.add_0_r, Ho in Hr. discriminate.
        -- intros e _ _ He. rewrite Nat.add_0_r, Ho in He. injection He as <-.
           rewrite app_nil_r. repeat split; lia.
Qed.

(** C9.  For a [delay] that is not negative and whose longest back-off is
    a length every platform sleeps for, [safe_llm_call] makes at most [retries]
    requests; the first successful attempt [k] ends the call with that
    attempt's text, after the delays [delay * 2^0 .. delay * 2^(k-1)]; when
    all [retries] attempts fail, the exception of the last one is re-raised,
    after the delays [delay * 2^0 .. delay * 2^(retries-2)], and no value is
    returned.  With [retries <= 0] the loop body never runs and the call
    returns [None]. *)
Theorem safe_llm_call_retry_contract :
  forall w : world,
    0 <= delay ->
    delay * 2 ^ (retries - 2) <= SLEEP_SAFE ->
    let out := safe_llm_call call retries delay w in
    let n := Z.to_nat retries in
    (calls (snd out) <= calls w + n)%nat /\
    (forall k text, (k < n)%nat ->
        (forall j, (j < k)%nat -> failed_at w (calls w + j)) ->
        oracle w (calls w + k) = Reply text ->
        fst out = Ok (Some (strip text)) /\
        calls (snd out) = (calls w + k + 1)%nat /\
        slept (snd out) = slept w ++ backoffs delay 0 k) /\
    (forall e, (0 < n)%nat ->
        (forall j, (j < n)%nat -> failed_at w (calls w + j)) ->
        oracle w (calls w + (n - 1)) = Failure e ->
        fst out = Raise e /\
        calls (snd out) = (calls w + n)%nat /\
        slept (snd out) = slept w ++ backoffs delay 0 (n - 1)) /\
    (retries <= 0 -> out = (Ok None, w)).
Proof.
  intros w Hd Hsafe out n.
  assert (Hmax : delay * 2 ^ (retries - 2) <= SLEEP_MAX).
  { apply Z.le_trans with SLEEP_SAFE; [exact Hsafe | vm_compute; discriminate]. }
  destruct (retry_loop_spec n 0%nat w Hd Hmax eq_refl) as (_ & _ & Hc & Hok & Hex).
  split; [exact Hc|]. split; [exact Hok|]. split; [exact Hex|].
  intros Hle. unfold out, safe_llm_call, range.
  replace (Z.to_nat retries) with 0%nat by lia. reflexivity.
Qed.

(** Outside that range the wrapper does not retry: with a negative [delay]
    the first failed attempt that is not the last one ends the call with the
    [ValueError] of [time.sleep], after one request. *)
Lemma safe_llm_call_negative_delay :
  forall (w : world) (e : exn),
    2 <= retries -> - SLEEP_MAX <= delay < 0 ->
    oracle w (calls w) = Failure e ->
    let out := safe_llm_call call retries delay w in
    fst out = Raise ValueError /\ calls (snd out) = S (calls w) /\
    slept (snd out) = slept w.
Proof.
  intros w e Hr Hd Ho out. subst out. unfold safe_llm_call, range.
  destruct (Z.to_nat retries) as [|n] eqn:Hn; [lia|].
  cbn [seq map retry_loop]. rewrite (call_failure _ _ Ho).
  destruct (Z.ltb_spec (Z.of_nat 0) (retries - 1)) as [_|Hge]; [|cbn in Hge; lia].
  unfold bind. change (2 ^ Z.of_nat 0) with 1. rewrite Z.mul_1_r.
  rewrite sleep_negative by lia. cbn [fst snd calls slept]. auto.
Qed.

End RetryFacts.

Section RetryExamples.
Import PyStr Gateway Samples.
Lemma safe_llm_call_retry_witness :
  (let out := safe_llm_call call 3 3 (start [down; Reply " ok "%string]) in
   fst out = Ok (Some "ok"%string) /\ calls (snd out) = 2%nat /\ slept (snd out) = [3])
  /\
  (let out := safe_llm_call call 3 3 (start [down; down; down]) in
   fst out = Raise (OracleError "timeout") /\ calls (snd out) = 3%nat
   /\ slept (snd out) = [3; 6]).
Proof.
  split.
  - refine (proj1 (proj2 (safe_llm_call_retry_contract 3 3
              (start [down; Reply " ok "%string]) _ _)) 1%nat " ok "%string _ _ _).
    + lia.
    + vm_compute. discriminate.
    + vm_compute. lia.
    + intros j Hj. assert (j = 0%nat) as -> by lia.
      exists (OracleError "timeout"). reflexivity.
    + reflexivity.
  - refine (proj1 (proj2 (proj2 (safe_llm_call_retry_contract 3 3
              (start [down; down; down]) _ _))) (OracleError "timeout") _ _ _).
    + lia.
    + vm_compute. discriminate.
    + vm_compute. lia.
    + intros j Hj. exists (OracleError "timeout").
      change (Z.to_nat 3) with 3%nat in Hj.
      destruct j as [|[|[|j]]]; try reflexivity; lia.
    + reflexivity.
Defined.

End RetryExamples.

Section StringFacts.
Import PyStr.
Local Open Scope string_scope.

Lemma prefix_trans a b c :
  String.prefix a b = true -> String.prefix b c = true -> String.prefix a c = true.
Proof.
  revert b c. induction a as [|x a IH]; intros [|y b] [|z c]; cbn; try easy.
  destruct (Ascii.ascii_dec x y) as [->|]; [|easy].
  destruct (Ascii.ascii_dec y z) as [->|]; [|easy].
  apply IH.
Qed.

Lemma prefix_cons x a y b :
  String.prefix (String x a) (String y b)
  = if Ascii.ascii_dec x y then String.prefix a b else false.
Proof. reflexivity. Qed.

Lemma prefix_cons_inv x a y b :
  String.prefix (String x a) (String y b) = true -> x = y /\ String.prefix a b = true.
Proof. cbn. destruct (Ascii.ascii_dec x y); [auto | discriminate]. Qed.

(** A text that starts with [p] contains whatever [p] contains. *)
Lemma contains_of_prefix needle p s :
  String.prefix p s = true -> contains needle p = true -> contains needle s = true.
Proof.
  revert s. induction p as [|x p IH]; intros s Hp Hc.
  - cbn [contains] in Hc. rewrite orb_false_r in Hc.
    destruct s; cbn [contains]; rewrite (prefix_trans _ _ _ Hc Hp); reflexivity.
  - destruct s as [|y s]; [discriminate|].
    apply prefix_cons_inv in Hp as [<- Hp].
    cbn [contains] in Hc |- *. apply orb_true_iff in Hc as [Hc|Hc].
    + rewrite (prefix_trans needle (String x p) (String x s)); [reflexivity|assumption|].
      cbn. destruct (Ascii.ascii_dec x x); [assumption|congruence].
    + rewrite (IH s Hp Hc). apply orb_true_r.
Qed.

(** [s.split(sep, 1)] has two parts exactly when [sep in s]. *)
Lemma split1_contains sep s :
  contains sep s = true <-> exists a b, split1 sep s = Some (a, b).
Proof.
  induction s as [|c s IH]; cbn [contains split1].
  - destruct (String.prefix sep "") eqn:Hp; cbn.
    + split; eauto.
    + split; [discriminate | intros (a & b & H); discriminate].
  - destruct (String.prefix sep (String c s)) eqn:Hp; cbn.
    + split; eauto.
    + rewrite IH. split.
      * intros (a & b & ->). eauto.
      * destruct (split1 sep s) as [[a b]|]; [eauto | intros (a & b & H); discriminate].
Qed.

Lemma contains_nonempty needle s :
  needle <> "" -> contains needle s = true -> s <> "".
Proof.
  intros Hn Hc ->. cbn [contains] in Hc. rewrite orb_false_r in Hc.
  destruct needle; [congruence | discriminate].
Qed.

Lemma post_tag_cons k : exists r, post_tag k = String "P" r.
Proof. unfold post_tag. cbn. eauto. Qed.

Lemma post_tag_nonempty k : post_tag k <> "".
Proof. destruct (post_tag_cons k) as [r ->]. discriminate. Qed.

Lemma contains_app_r needle a b :
  contains needle b = true -> contains needle (a ++ b) = true.
Proof.
  induction a as [|c a IH]; cbn [append contains]; [easy|].
  intros H. rewrite (IH H). apply orb_true_r.
Qed.

Lemma post_tag_has_colon k : contains ":" (post_tag k) = true.
Proof.
  unfold post_tag. apply (contains_app_r ":" "POST_"), contains_app_r.
  reflexivity.
Qed.

End StringFacts.

Section CategorizeFacts.
Import PyStr Data Categorize.
Local Open Scope string_scope.
Variable py_int : string -> option Z.

Lemma first_line_with_contains tag lines l :
  first_line_with tag lines = Some l -> contains tag l = true.
Proof.
  induction lines as [|x lines IH]; cbn [first_line_with]; [discriminate|].
  destruct (contains tag x) eqn:Hx; [|exact IH].
  now intros [= <-].
Qed.

Lemma parse_categories_length categories lines k posts :
  List.length (parse_categories py_int categories lines k posts) = List.length posts.
Proof.
  revert k. induction posts as [|p posts IH]; intros k; cbn; [reflexivity|].
  now rewrite IH.
Qed.

Lemma parse_categories_nth categories lines posts :
  forall k i, (i < List.length posts)%nat ->
    nth_error (parse_categories py_int categories lines k posts) i
    = Some (category_of py_int categories
              (first_line_with (post_tag (S (k + i))) lines)).
Proof.
  induction posts as [|p posts IH]; intros k i Hi; cbn in Hi; [lia|].
  destruct i as [|i]; cbn [parse_categories nth_error].
  - now rewrite Nat.add_0_r.
  - rewrite IH by lia. now rewrite Nat.add_succ_r.
Qed.

Lemma category_of_found categories l :
  l <> "" ->
  category_of py_int categories (Some l)
  = match number_after_colon py_int l with
    | None => "Uncategorized"
    | Some cat_num =>
        if ((1 <=? cat_num) && (cat_num <=? Z.of_nat (List.length categories)))%Z
        then match nth_error categories (Z.to_nat (cat_num - 1)) with
             | Some c => c
             | None => "Uncategorized"
             end
        else "Uncategorized"
    end.
Proof.
  intros Hl. unfold category_of.
  destruct (String.eqb_spec l ""); [contradiction|reflexivity].
Qed.

(** C7.  The categorization parser returns one label per record; a record
    with no line naming it, with a line whose number does not parse, or
    with a number outside [1 .. len(categories)] (so also [0] and
    [len(categories) + 1]) is labelled [Uncategorized], and a number in
    range selects exactly the category at that 1-based position. *)
Theorem categorize_parse_sentinel :
  forall (categories : list string) (result : string) (posts : list post),
    let out := Categorize.parse_reply py_int categories result posts in
    List.length out = List.length posts /\
    forall i, (i < List.length posts)%nat ->
      let post_line := first_line_with (post_tag (S i)) (lines_of result) in
      (post_line = None -> nth_error out i = Some "Uncategorized") /\
      (forall l, post_line = Some l ->
         number_after_colon py_int l = None ->
         nth_error out i = Some "Uncategorized") /\
      (forall l cat_num, post_line = Some l ->
         number_after_colon py_int l = Some cat_num ->
         (cat_num < 1 \/ Z.of_nat (List.length categories) < cat_num)%Z ->
         nth_error out i = Some "Uncategorized") /\
      (forall l cat_num, post_line = Some l ->
         number_after_colon py_int l = Some cat_num ->
         (1 <= cat_num <= Z.of_nat (List.length categories))%Z ->
         nth_error out i = nth_error categories (Z.to_nat (cat_num - 1))).
Proof.
  intros categories result posts out. split.
  - apply parse_categories_length.
  - intros i Hi post_line.
    assert (Hout : nth_error out i = Some (category_of py_int categories post_line)).
    { unfold out, Categorize.parse_reply. now rewrite parse_categories_nth. }
    assert (Hne : forall l, post_line = Some l -> l <> "").
    { intros l Hl. apply first_line_with_contains in Hl.
      eapply contains_nonempty; [apply (post_tag_nonempty (S i)) | exact Hl]. }
    rewrite Hout. split; [|split; [|split]].
    + now intros ->.
    + intros l Hl Hnum. rewrite Hl, category_of_found, Hnum by auto. reflexivity.
    + intros l cat_num Hl Hnum Hrange.
      rewrite Hl, category_of_found, Hnum by auto.
      destruct (Z.leb_spec 1 cat_num); cbn [andb]; [|reflexivity].
      destruct (Z.leb_spec cat_num (Z.of_nat (List.length categories)));
        [lia | reflexivity].
    + intros l cat_num Hl Hnum Hrange.
      rewrite Hl, category_of_found, Hnum by auto.
      destruct (Z.leb_spec 1 cat_num); [|lia]. cbn [andb].
      destruct (Z.leb_spec cat_num (Z.of_nat (List.length categories))); [|lia].
      destruct (nth_error categories (Z.to_nat (cat_num - 1))) eqn:Hc; [reflexivity|].
      apply nth_error_None in Hc. lia.
Qed.

End CategorizeFacts.

Section CategorizeExamples.
Import PyStr Data Samples.
Local Open Scope string_scope.

Lemma categorize_parse_sentinel_witness :
  let out := Categorize.parse_reply int_dec ["A"; "B"; "C"]
               ("POST_1: 0" ++ newline ++ "POST_2: 4" ++ newline ++ "POST_3: 3")
               (sample_posts "c" 3) in
  nth_error out 0 = Some "Uncategorized" /\
  nth_error out 1 = Some "Uncategorized" /\
  nth_error out 2 = Some "C".
Proof.
  pose proof (categorize_parse_sentinel int_dec ["A"; "B"; "C"]
                ("POST_1: 0" ++ newline ++ "POST_2: 4" ++ newline ++ "POST_3: 3")
                (sample_posts "c" 3)) as [_ H].
  split; [|split].
  - refine (proj1 (proj2 (proj2 (H 0%nat _))) "POST_1: 0" 0%Z _ _ _);
      [vm_compute; lia | reflexivity | reflexivity | lia].
  - refine (proj1 (proj2 (proj2 (H 1%nat _))) "POST_2: 4" 4%Z _ _ _);
      [vm_compute; lia | reflexivity | reflexivity | cbn; lia].
  - refine (proj2 (proj2 (proj2 (H 2%nat _))) "POST_3: 3" 3%Z _ _ _);
      [vm_compute; lia | reflexivity | reflexivity | cbn; lia].
Defined.

End CategorizeExamples.

Section SummarizeFacts.
Import PyStr Data Summarize.
Local Open Scope string_scope.

Lemma find_post_line_prefix tag lines l :
  find_post_line tag lines = Some l -> String.prefix tag l = true.
Proof.
  induction lines as [|x lines IH]; cbn [find_post_line]; [discriminate|].
  destruct (startswith tag (strip x)) eqn:Hx; [|exact IH].
  now intros [= <-].
Qed.

Lemma parse_summaries_length lines k posts :
  List.length (parse_summaries lines k posts) = List.length posts.
Proof.
  revert k. induction posts as [|p posts IH]; intros k; cbn; [reflexivity|].
  now rewrite IH.
Qed.

Lemma parse_summaries_nth lines posts :
  forall k i p, nth_error posts i = Some p ->
    nth_error (parse_summaries lines k posts) i
    = Some (parse_post (title p) (find_post_line (post_tag (S (k + i))) lines)).
Proof.
  induction posts as [|q posts IH]; intros k i p Hi; [now destruct i|].
  destruct i as [|i]; cbn [parse_summaries nth_error] in *.
  - injection Hi as ->. now rewrite Nat.add_0_r.
  - rewrite (IH _ _ _ Hi). now rewrite Nat.add_succ_r.
Qed.

(** C6, as the code has it.  The summarization parser returns one
    (summary, sentiment) pair per record, in input order, whatever the
    reply.  A record with no line starting with its tag gets its title and
    [neutral].  A found line without [||] gives the whole text after the
    tag as summary, and [neutral].  With [||], the summary is the text before
    it; the sentiment is [neutral] unless the text after it holds the key
    word [SENTIMENT], and then the lower-cased label text is searched for
    [pos] first, then [neg], anything else being [neutral]. *)
Theorem summarize_parse_total :
  forall (result : string) (posts : list post),
    let out := Summarize.parse_reply result posts in
    List.length out = List.length posts /\
    forall i p, nth_error posts i = Some p ->
      let post_line := find_post_line (post_tag (S i)) (lines_of result) in
      exists item, nth_error out i = Some item /\
        (post_line = None -> item = (title p, "neutral")) /\
        (forall l, post_line = Some l ->
           exists head rest, split1 ":" l = Some (head, rest) /\
             let after_colon := strip rest in
             (contains "||" after_colon = false ->
                item = (after_colon, "neutral")) /\
             (contains "||" after_colon = true ->
                exists summary_part sentiment_part,
                  split1 "||" after_colon = Some (summary_part, sentiment_part) /\
                  fst item = strip summary_part /\
                  (contains "SENTIMENT" sentiment_part = false ->
                     snd item = "neutral") /\
                  (contains "SENTIMENT" sentiment_part = true ->
                     exists raw, raw_label sentiment_part = Some raw /\
                       snd item = if contains "pos" raw then "positive"
                                  else if contains "neg" raw then "negative"
                                  else "neutral"))).
Proof.
  intros result posts out. split; [apply parse_summaries_length|].
  intros i p Hp post_line.
  exists (parse_post (title p) post_line). split.
  { unfold out, Summarize.parse_reply. now rewrite (parse_summaries_nth _ _ 0%nat i p Hp). }
  split; [now intros ->|].
  intros l Hl. pose proof (find_post_line_prefix _ _ _ Hl) as Hpre.
  assert (Hcolon : contains ":" l = true)
    by (eapply contains_of_prefix; [exact Hpre | apply post_tag_has_colon]).
  assert (Hne : l <> "")
    by (eapply contains_nonempty; [|exact Hcolon]; discriminate).
  apply split1_contains in Hcolon as (head & rest & Hsplit).
  exists head, rest. split; [exact Hsplit|].
  rewrite Hl. unfold parse_post.
  destruct (String.eqb_spec l ""); [contradiction|]. rewrite Hsplit.
  cbn zeta. split.
  - now intros ->.
  - intros Hbar. rewrite Hbar.
    destruct (proj1 (split1_contains _ _) Hbar) as (sp & st & Hs2).
    exists sp, st. rewrite Hs2. cbn [fst snd]. repeat split.
    + unfold sentiment_of. now intros ->.
    + intros Hkey. unfold sentiment_of, raw_label in *. rewrite Hkey.
      destruct (proj1 (split1_contains _ _) Hkey) as (a & raw & ->).
      eexists. split; reflexivity.
Qed.

End SummarizeFacts.

Section SummarizeExamples.
Import PyStr Data Samples.
Local Open Scope string_scope.

(** The three-record batch of the design notes: a reply with a line for
    record 2 only. *)
Lemma summarize_parse_total_witness :
  let posts := sample_posts "c" 3 in
  let out := Summarize.parse_reply "POST_2: It works well || SENTIMENT: Positive" posts in
  nth_error out 0 = Some ("title 0", "neutral") /\
  nth_error out 2 = Some ("title 2", "neutral") /\
  nth_error out 1 = Some ("It works well", "positive").
Proof.
  cbv zeta.
  pose proof (summarize_parse_total "POST_2: It works well || SENTIMENT: Positive"
                (sample_posts "c" 3)) as [_ H].
  split; [|split].
  - destruct (H 0%nat (sample_post "c" 0) eq_refl) as (item & -> & Hnone & _).
    now rewrite (Hnone eq_refl).
  - destruct (H 2%nat (sample_post "c" 2) eq_refl) as (item & -> & Hnone & _).
    now rewrite (Hnone eq_refl).
  - destruct (H 1%nat (sample_post "c" 1) eq_refl) as (item & -> & _ & Hsome).
    destruct (Hsome _ eq_refl) as (head & rest & Hsp & _ & Hbar).
    injection Hsp as <- <-.
    destruct (Hbar eq_refl) as (sp & st & Hs2 & Hfst & _ & Hkey).
    injection Hs2 as <- <-.
    destruct (Hkey eq_refl) as (raw & Hraw & Hsnd).
    injection Hraw as <-.
    destruct item as [a b]. cbn [fst snd] in *. now subst.
Defined.

(** C6, as worded, fails on a line that carries [||] but not the key
    word: the record keeps neither its title (the summary is the parsed
    text) nor the label a substring match against the label words finds. *)
Lemma summarize_label_counterexample :
  let p := Post "p0" "Original title" None None None in
  Summarize.parse_reply "POST_1: Fine || positive" [p] = [("Fine", "neutral")]
  /\ title p <> "Fine"
  /\ Summarize.worded_sentiment " positive" = "positive".
Proof.
  cbv zeta. split; [reflexivity|]. split; [discriminate | reflexivity].
Qed.

End SummarizeExamples.

Section NumberFacts.
Import Clustering.

Lemma scaled_eq m1 e1 m2 e2 E :
  E <= e1 -> E <= e2 ->
  (m1 * 2 ^ (e1 - Z.min e1 e2) = m2 * 2 ^ (e2 - Z.min e1 e2)
   <-> m1 * 2 ^ (e1 - E) = m2 * 2 ^ (e2 - E)).
Proof.
  intros H1 H2. set (e := Z.min e1 e2).
  assert (He : E <= e /\ e <= e1 /\ e <= e2) by (unfold e; lia).
  replace (e1 - E) with ((e1 - e) + (e - E)) by lia.
  replace (e2 - E) with ((e2 - e) + (e - E)) by lia.
  rewrite !Z.pow_add_r by lia. rewrite !Z.mul_assoc.
  assert (Hp : 2 ^ (e - E) <> 0) by (apply Z.pow_nonzero; lia).
  split; intros H.
  - now rewrite H.
  - now apply Z.mul_cancel_r in H.
Qed.

Lemma py_eqb_sym x y : py_eqb x y = py_eqb y x.
Proof.
  unfold py_eqb.
  destruct (dyadic_of x) as [[m1 e1]|] eqn:Hx, (dyadic_of y) as [[m2 e2]|] eqn:Hy;
    try reflexivity.
  - rewrite (Z.min_comm e2 e1). apply Z.eqb_sym.
  - destruct x as [?|?|[|na|? ?]], y as [?|?|[|nb|? ?]];
      try reflexivity; try discriminate.
    now destruct na, nb.
Qed.

Lemma py_eqb_trans x y z :
  py_eqb x y = true -> py_eqb y z = true -> py_eqb x z = true.
Proof.
  unfold py_eqb.
  destruct (dyadic_of x) as [[m1 e1]|] eqn:Hx, (dyadic_of y) as [[m2 e2]|] eqn:Hy,
           (dyadic_of z) as [[m3 e3]|] eqn:Hz; intros H12 H23; try discriminate.
  - rewrite Z.eqb_eq in *.
    set (E := Z.min e1 (Z.min e2 e3)).
    apply (scaled_eq m1 e1 m2 e2 E) in H12; [|unfold E; lia ..].
    apply (scaled_eq m2 e2 m3 e3 E) in H23; [|unfold E; lia ..].
    apply (scaled_eq m1 e1 m3 e3 E); [unfold E; lia ..|]. congruence.
  - destruct x as [?|?|[|na|? ?]], y as [?|?|[|nb|? ?]], z as [?|?|[|nc|? ?]];
      try discriminate.
    destruct na, nb, nc; auto.
Qed.

Lemma py_eqb_int i j : py_eqb (PInt i) (PInt j) = (i =? j).
Proof.
  unfold py_eqb. cbn [dyadic_of]. change (Z.min 0 0) with 0.
  change (2 ^ (0 - 0)) with 1. now rewrite !Z.mul_1_r.
Qed.

Lemma py_in_In x xs :
  py_in x xs = true <-> exists y, In y xs /\ py_eqb x y = true.
Proof. unfold py_in. apply existsb_exists. Qed.

Lemma py_in_false x xs :
  py_in x xs = false <-> forall y, In y xs -> py_eqb x y = false.
Proof.
  unfold py_in. induction xs as [|a xs IH]; cbn.
  - split; [intros _ y [] | reflexivity].
  - rewrite orb_false_iff, IH. split.
    + intros [Ha Hxs] y [<-|Hy]; auto.
    + intros H. split; [apply H; auto | intros y Hy; apply H; auto].
Qed.

Lemma py_in_int_literal i xs : In (PInt i) xs -> py_in (PInt i) xs = true.
Proof.
  intros H. apply py_in_In. exists (PInt i). split; [exact H|].
  rewrite py_eqb_int. apply Z.eqb_refl.
Qed.

Lemma py_in_app x xs ys : py_in x (xs ++ ys) = py_in x xs || py_in x ys.
Proof. unfold py_in. apply existsb_app. Qed.

End NumberFacts.

Section DictFacts.
Import Data Gateway.

Lemma range_In k n : In k (range n) <-> 0 <= k < n.
Proof.
  unfold range. rewrite in_map_iff. split.
  - intros (j & <- & Hj). apply in_seq in Hj. lia.
  - intros H. exists (Z.to_nat k). split; [lia|]. apply in_seq. lia.
Qed.

Lemma range_succ n : range (Z.of_nat n + 1) = range (Z.of_nat n) ++ [Z.of_nat n].
Proof.
  unfold range. replace (Z.to_nat (Z.of_nat n + 1)) with (S n) by lia.
  rewrite Nat2Z.id, seq_S, map_app. reflexivity.
Qed.

Lemma range_NoDup n : NoDup (range n).
Proof.
  unfold range. apply Finite.Injective_map_NoDup; [|apply seq_NoDup].
  intros a b. lia.
Qed.

Lemma range_length n : List.length (range n) = Z.to_nat n.
Proof. unfold range. now rewrite length_map, length_seq. Qed.

Context {V : Type}.
Implicit Types (d : list (Z * V)).

Lemma dict_set_fresh k v d :
  ~ In k (dict_keys d) -> dict_set Z.eqb k v d = d ++ [(k, v)].
Proof.
  induction d as [|[k' v'] d IH]; cbn; [reflexivity|].
  intros H. destruct (Z.eqb_spec k k') as [->|_]; [tauto|].
  rewrite IH; tauto.
Qed.

Lemma dict_get_Some_In k v d : dict_get Z.eqb k d = Some v -> In (k, v) d.
Proof.
  induction d as [|[k' v'] d IH]; cbn; [discriminate|].
  destruct (Z.eqb_spec k k') as [->|_]; [intros [= ->]; auto | auto].
Qed.

Lemma dict_get_of_In k v d :
  NoDup (dict_keys d) -> In (k, v) d -> dict_get Z.eqb k d = Some v.
Proof.
  induction d as [|[k' v'] d IH]; cbn; [tauto|].
  intros Hnd [[= -> ->]|Hin].
  - now rewrite Z.eqb_refl.
  - inversion Hnd as [|? ? Hk Hnd']; subst.
    destruct (Z.eqb_spec k k') as [->|_]; [|auto].
    exfalso. apply Hk. unfold dict_keys. apply in_map_iff. now exists (k', v).
Qed.

Lemma dict_has_keys k d : dict_has Z.eqb k d = true <-> In k (dict_keys d).
Proof.
  unfold dict_has. induction d as [|[k' v'] d IH]; cbn; [split; [discriminate|tauto]|].
  destruct (Z.eqb_spec k k') as [->|Hne]; [tauto|].
  rewrite IH. split; [auto | intros [?|?]; [congruence|auto]].
Qed.

Lemma dict_get_update k f k2 d :
  dict_get Z.eqb k2 (dict_update Z.eqb k f d)
  = if k2 =? k then option_map f (dict_get Z.eqb k d) else dict_get Z.eqb k2 d.
Proof.
  induction d as [|[k' v'] d IH]; cbn; [now destruct (k2 =? k)|].
  destruct (Z.eqb_spec k k') as [->|Hne]; cbn.
  - destruct (Z.eqb_spec k2 k'); reflexivity.
  - rewrite IH. destruct (Z.eqb_spec k2 k') as [->|]; [|reflexivity].
    destruct (Z.eqb_spec k' k); [congruence | reflexivity].
Qed.

Lemma dict_keys_update k f d : dict_keys (dict_update Z.eqb k f d) = dict_keys d.
Proof.
  unfold dict_keys.
  induction d as [|[k' v'] d IH]; cbn; [reflexivity|].
  destruct (k =? k'); cbn; [reflexivity | now rewrite IH].
Qed.

Lemma dict_update_length k f d :
  List.length (dict_update Z.eqb k f d) = List.length d.
Proof.
  induction d as [|[k' v'] d IH]; cbn; [reflexivity|].
  destruct (k =? k'); cbn; [reflexivity | now rewrite IH].
Qed.


End DictFacts.

Section BuildFacts.
Import Data Gateway Clustering Spec.
Variables (num_posts min_cluster_size : Z).

Lemma valid_indices_In seen items valid x :
  valid_indices num_posts seen items = Ok valid -> In x valid ->
  le0 x = true /\ lt_int x num_posts = true /\ py_in x seen = false.
Proof.
  revert valid. induction items as [|j items IH]; cbn [valid_indices]; intros valid.
  - intros [= <-] [].
  - destruct (as_num j) as [y|]; [|discriminate].
    destruct (valid_indices num_posts seen items) as [tail|]; [|discriminate].
    destruct (le0 y && lt_int y num_posts && negb (py_in y seen)) eqn:Hy;
      intros [= <-].
    + intros [<-|Hin]; [|now apply (IH tail)].
      apply andb_true_iff in Hy as [Hy Hs]. apply andb_true_iff in Hy as [H0 Hn].
      apply negb_true_iff in Hs. auto.
    + now apply (IH tail).
Qed.

Lemma valid_indices_keeps seen items valid i :
  valid_indices num_posts seen items = Ok valid ->
  In (JInt i) items -> 0 <= i < num_posts -> py_in (PInt i) seen = false ->
  In (PInt i) valid.
Proof.
  intros Hv Hin Hi Hs. revert valid Hv.
  induction items as [|j items IH]; cbn [valid_indices]; intros valid; [easy|].
  destruct (as_num j) as [y|] eqn:Hj; [|discriminate].
  destruct (valid_indices num_posts seen items) as [tail|]; [|discriminate].
  destruct Hin as [->|Hin].
  - injection Hj as <-. rewrite Hs.
    replace (le0 (PInt i)) with true by (cbn; symmetry; apply Z.leb_le; lia).
    replace (lt_int (PInt i) num_posts) with true
      by (cbn; symmetry; apply Z.ltb_lt; lia).
    cbn. intros [= <-]. now left.
  - destruct (le0 y && lt_int y num_posts && negb (py_in y seen)); intros [= <-];
      [right|]; now apply (IH Hin tail).
Qed.

Lemma all_members_app c1 c2 :
  all_members (c1 ++ c2) = all_members c1 ++ all_members c2.
Proof. unfold all_members. now rewrite map_app, concat_app. Qed.

Lemma all_members_In (c : cluster_map) x :
  In x (all_members c) <-> exists k members, In (k, members) c /\ In x members.
Proof.
  unfold all_members. rewrite in_concat. split.
  - intros (ms & Hms & Hx). apply in_map_iff in Hms as ([k ms'] & <- & Hin). eauto.
  - intros (k & ms & Hin & Hx). exists ms. split; [|exact Hx].
    apply in_map_iff. now exists (k, ms).
Qed.

Lemma build_ok_init : build_ok num_posts min_cluster_size (Build [] [] 0).
Proof. constructor; cbn; try reflexivity; try tauto; intros; tauto. Qed.

(** What one proposed cluster does to the loop variables. *)
Lemma propose_cases st indices st' :
  propose num_posts min_cluster_size st indices = Ok st' ->
  exists items valid,
    py_iter indices = Ok items /\
    valid_indices num_posts (seen_indices st) items = Ok valid /\
    ((Z.of_nat (List.length valid) < min_cluster_size /\ st' = st) \/
     (min_cluster_size <= Z.of_nat (List.length valid) /\
      st' = Build (dict_set Z.eqb (next_cluster_id st) valid (clusters st))
                  (seen_indices st ++ valid) (next_cluster_id st + 1))).
Proof.
  unfold propose. destruct (py_iter indices) as [items|] eqn:Hi; [|discriminate].
  destruct (valid_indices num_posts (seen_indices st) items) as [valid|] eqn:Hv;
    [|discriminate].
  destruct (Z.leb_spec min_cluster_size (Z.of_nat (List.length valid)));
    intros [= <-]; exists items, valid; (split; [reflexivity|]);
    (split; [exact Hv|]); [right|left]; split; auto.
Qed.

Lemma fresh_next st :
  build_ok num_posts min_cluster_size st ->
  ~ In (next_cluster_id st) (dict_keys (clusters st)).
Proof.
  intros [Hn Hids _ _ _ _]. change (dict_keys (clusters st)) with (ids (clusters st)).
  rewrite Hids, range_In. lia.
Qed.

Lemma build_ok_accept st valid :
  build_ok num_posts min_cluster_size st ->
  min_cluster_size <= Z.of_nat (List.length valid) ->
  (forall x, In x valid ->
     le0 x = true /\ lt_int x num_posts = true
     /\ py_in x (seen_indices st) = false) ->
  build_ok num_posts min_cluster_size
    (Build (clusters st ++ [(next_cluster_id st, valid)])
           (seen_indices st ++ valid) (next_cluster_id st + 1)).
Proof.
  intros Hok Hsize Hvalid. pose proof Hok as [Hn Hids Hmem Hrange Hsz Hdis].
  constructor; cbn [clusters seen_indices next_cluster_id].
  - rewrite length_app, Hn. cbn. lia.
  - unfold ids, dict_keys in *. rewrite map_app, Hids, Hn. cbn.
    now rewrite range_succ.
  - rewrite all_members_app, Hmem. unfold all_members. cbn.
    now rewrite app_nil_r.
  - intros x Hx. apply in_app_or in Hx as [Hx|Hx]; [now apply Hrange|].
    destruct (Hvalid x Hx) as (? & ? & ?). auto.
  - intros k ms Hin. apply in_app_or in Hin as [Hin|[[= <- <-]|[]]]; eauto.
  - assert (Hnew : forall k ms x y, In (k, ms) (clusters st) -> In x ms ->
                     In y valid -> py_eqb y x = false).
    { intros k ms x y Hin Hx Hy. destruct (Hvalid y Hy) as (_ & _ & Hs).
      apply (proj1 (py_in_false _ _) Hs). rewrite <- Hmem.
      apply all_members_In. eauto. }
    intros k1 ms1 k2 ms2 x y H1 H2 Hne Hx Hy.
    apply in_app_or in H1 as [H1|[H1|[]]];
      apply in_app_or in H2 as [H2|[H2|[]]].
    + exact (Hdis k1 ms1 k2 ms2 x y H1 H2 Hne Hx Hy).
    + injection H2 as <- <-. rewrite py_eqb_sym.
      exact (Hnew k1 ms1 x y H1 Hx Hy).
    + injection H1 as <- <-. exact (Hnew k2 ms2 y x H2 Hy Hx).
    + congruence.
Qed.

Lemma propose_ok st indices st' :
  build_ok num_posts min_cluster_size st ->
  propose num_posts min_cluster_size st indices = Ok st' ->
  build_ok num_posts min_cluster_size st' /\
  exists more more_seen,
    clusters st' = clusters st ++ more /\
    seen_indices st' = seen_indices st ++ more_seen.
Proof.
  intros Hok Hp.
  destruct (propose_cases _ _ _ Hp) as (items & valid & _ & Hv & [[_ ->]|[Hm ->]]).
  - split; [assumption|]. exists [], []. now rewrite !app_nil_r.
  - rewrite (dict_set_fresh _ _ _ (fresh_next _ Hok)). split.
    + apply build_ok_accept; auto. intros x Hx.
      eapply valid_indices_In; eauto.
    + eexists _, _. cbn. split; reflexivity.
Qed.

Lemma propose_all_ok proposals :
  forall st st',
    build_ok num_posts min_cluster_size st ->
    propose_all num_posts min_cluster_size st proposals = Ok st' ->
    build_ok num_posts min_cluster_size st' /\
    exists more more_seen,
      clusters st' = clusters st ++ more /\
      seen_indices st' = seen_indices st ++ more_seen.
Proof.
  induction proposals as [|p proposals IH]; cbn [propose_all]; intros st st' Hok.
  - intros [= <-]. split; [assumption|]. exists [], []. now rewrite !app_nil_r.
  - destruct (propose num_posts min_cluster_size st p) as [st1|] eqn:Hp;
      [|discriminate].
    intros Hall. destruct (propose_ok _ _ _ Hok Hp) as (Hok1 & m1 & s1 & Hc1 & Hs1).
    destruct (IH _ _ Hok1 Hall) as (Hok' & m2 & s2 & Hc2 & Hs2).
    split; [assumption|]. exists (m1 ++ m2), (s1 ++ s2).
    rewrite Hc2, Hc1, Hs2, Hs1, !app_assoc. split; reflexivity.
Qed.

Lemma propose_all_app pre post st :
  propose_all num_posts min_cluster_size st (pre ++ post)
  = match propose_all num_posts min_cluster_size st pre with
    | Ok st1 => propose_all num_posts min_cluster_size st1 post
    | Raise e => Raise e
    end.
Proof.
  revert st. induction pre as [|p pre IH]; intros st; cbn; [reflexivity|].
  destruct (propose num_posts min_cluster_size st p); [apply IH | reflexivity].
Qed.

End BuildFacts.

Section LargestFacts.
Import Data Gateway Clustering Spec.

Lemma max_from_spec rest :
  forall best,
  exists members,
    In (max_from best rest, members) (best :: rest) /\
    forall k' members', In (k', members') (best :: rest) ->
      (List.length members' <= List.length members)%nat.
Proof.
  induction rest as [|[k2 ms2] rest IH]; intros [k ms]; cbn [max_from].
  - exists ms. split; [now left|]. intros k' ms' [[= <- <-]|[]]. cbn. lia.
  - cbn [snd]. destruct (Nat.ltb_spec (List.length ms) (List.length ms2)).
    + destruct (IH (k2, ms2)) as (m & Hin & Hmax). exists m. split.
      * now right.
      * intros k' ms' [[= <- <-]|Hin'].
        -- specialize (Hmax k2 ms2 (or_introl eq_refl)). lia.
        -- now apply (Hmax k' ms').
    + destruct (IH (k, ms)) as (m & Hin & Hmax). exists m. split.
      * destruct Hin as [Heq|Hin]; [now left | right; now right].
      * intros k' ms' [Heq|[[= <- <-]|Hin']].
        -- apply (Hmax k' ms'). now left.
        -- specialize (Hmax k ms (or_introl eq_refl)). lia.
        -- apply (Hmax k' ms'). now right.
Qed.

Lemma largest_spec (c : cluster_map) L :
  largest c = Ok L ->
  exists members,
    In (L, members) c /\
    forall k' members', In (k', members') c ->
      (List.length members' <= List.length members)%nat.
Proof.
  destruct c as [|kv rest]; cbn; [discriminate|]. intros [= <-].
  apply max_from_spec.
Qed.

Lemma largest_nonempty (c : cluster_map) :
  c <> [] -> exists L, largest c = Ok L.
Proof. destruct c; [congruence|]. cbn. eauto. Qed.

Lemma ids_extend k xs c : ids (extend k xs c) = ids c.
Proof. apply dict_keys_update. Qed.

Lemma extend_length k xs (c : cluster_map) :
  List.length (extend k xs c) = List.length c.
Proof. apply dict_update_length. Qed.

Lemma held_by_extend (c : cluster_map) L xs k x :
  held_by (extend L xs c) k x <->
  held_by c k x \/ (k = L /\ In L (ids c) /\ py_in x xs = true).
Proof.
  unfold held_by, extend. split.
  - intros (ms & Hget & Hin). rewrite dict_get_update in Hget.
    destruct (Z.eqb_spec k L) as [->|Hne]; [|left; eauto].
    destruct (dict_get Z.eqb L c) as [ms0|] eqn:H0; [|discriminate].
    injection Hget as <-. rewrite py_in_app in Hin.
    apply orb_true_iff in Hin as [Hin|Hin]; [left; eauto|].
    right. repeat split; auto. apply dict_has_keys. unfold dict_has. now rewrite H0.
  - intros [(ms & Hget & Hin)|(-> & HL & Hin)]; rewrite dict_get_update.
    + destruct (Z.eqb_spec k L) as [->|Hne]; [|eauto].
      rewrite Hget. eexists. split; [reflexivity|].
      rewrite py_in_app, Hin. reflexivity.
    + rewrite Z.eqb_refl. apply dict_has_keys in HL. unfold dict_has in HL.
      destruct (dict_get Z.eqb L c) as [ms0|]; [|discriminate].
      eexists. split; [reflexivity|]. rewrite py_in_app, Hin. apply orb_true_r.
Qed.

End LargestFacts.

Section ResultFacts.
Import Data Gateway Clustering Spec.
Variables (num_posts : nat) (min_cluster_size : Z).


(** The three ways [_cluster_initial_sample] ends once the reply is
    decoded. *)
Lemma build_clusters_cases clusters_array result :
  build_clusters num_posts min_cluster_size clusters_array = Ok result ->
  exists proposals st,
    py_iter clusters_array = Ok proposals /\
    propose_all (Z.of_nat num_posts) min_cluster_size (Build [] [] 0) proposals
    = Ok st /\
    build_ok (Z.of_nat num_posts) min_cluster_size st /\
    ((clusters st = [] /\ result = [(0, all_indices num_posts)]) \/
     (clusters st <> [] /\ missing_indices num_posts (seen_indices st) = [] /\ result = clusters st) \/
     (clusters st <> [] /\ missing_indices num_posts (seen_indices st) <> [] /\
      exists L, largest (clusters st) = Ok L /\
                result = extend L (missing_indices num_posts (seen_indices st)) (clusters st))).
Proof.
  unfold build_clusters.
  destruct (py_iter clusters_array) as [proposals|] eqn:Hiter; [|discriminate].
  destruct (propose_all _ _ _ proposals) as [st|] eqn:Hall; [|discriminate].
  intros H. exists proposals, st. split; [reflexivity|]. split; [exact Hall|].
  destruct (propose_all_ok _ _ _ _ _ (build_ok_init _ _) Hall) as [Hok _].
  split; [exact Hok|].
  destruct (missing_indices num_posts (seen_indices st)) as [|x miss] eqn:Hmiss.
  - destruct (clusters st) as [|kv rest] eqn:Hc.
    + left. injection H as <-. auto.
    + right. left. injection H as <-. repeat split; congruence.
  - destruct (clusters st) as [|kv rest] eqn:Hc.
    + left. cbn in H. injection H as <-. auto.
    + right. right. rewrite <- Hc in *.
      destruct (largest (clusters st)) as [L|] eqn:HL; [|discriminate].
      assert (Hne : extend L (x :: miss) (clusters st) <> []).
      { intros Hnil. apply (f_equal (@List.length _)) in Hnil.
        rewrite extend_length, Hc in Hnil. discriminate. }
      destruct (extend L (x :: miss) (clusters st)) as [|kv' rest'] eqn:He;
        [congruence|].
      injection H as <-. split; [congruence|]. split; [discriminate|].
      exists L. split; [reflexivity|]. now rewrite He.
Qed.

End ResultFacts.

Section HeldFacts.
Import Data Gateway Clustering Spec.
Variables (num_posts : nat) (min_cluster_size : Z).

Lemma all_indices_In x :
  In x (all_indices num_posts) <-> exists i, x = PInt i /\ 0 <= i < Z.of_nat num_posts.
Proof.
  unfold all_indices. rewrite in_map_iff. split.
  - intros (i & <- & Hi). apply range_In in Hi. eauto.
  - intros (i & -> & Hi). exists i. split; [reflexivity|]. now apply range_In.
Qed.

Lemma missing_In seen x :
  In x (missing_indices num_posts seen) <->
  exists i, x = PInt i /\ 0 <= i < Z.of_nat num_posts /\ py_in (PInt i) seen = false.
Proof.
  unfold missing_indices. rewrite filter_In, all_indices_In. split.
  - intros ((i & -> & Hi) & Hs). apply negb_true_iff in Hs. eauto.
  - intros (i & -> & Hi & Hs). split; [eauto|]. now rewrite Hs.
Qed.

Lemma py_in_ints i (xs : list pynum) :
  (forall x, In x xs -> exists j, x = PInt j) ->
  py_in (PInt i) xs = true -> In (PInt i) xs.
Proof.
  intros Hints Hin. apply py_in_In in Hin as (y & Hy & Heq).
  destruct (Hints y Hy) as [j ->]. rewrite py_eqb_int in Heq.
  apply Z.eqb_eq in Heq. now subst.
Qed.

Lemma py_in_missing seen i :
  py_in (PInt i) (missing_indices num_posts seen) = true ->
  0 <= i < Z.of_nat num_posts /\ py_in (PInt i) seen = false.
Proof.
  intros H. apply py_in_ints in H.
  - apply missing_In in H as (j & [= <-] & ? & ?). auto.
  - intros x Hx. apply missing_In in Hx as (j & -> & _). eauto.
Qed.

Lemma ids_NoDup st :
  build_ok (Z.of_nat num_posts) min_cluster_size st ->
  NoDup (dict_keys (clusters st)).
Proof.
  intros Hok. change (dict_keys (clusters st)) with (ids (clusters st)).
  rewrite (ok_ids _ _ _ Hok). apply range_NoDup.
Qed.

Lemma held_unique st k1 k2 x :
  build_ok (Z.of_nat num_posts) min_cluster_size st ->
  held_by (clusters st) k1 x -> held_by (clusters st) k2 x -> k1 = k2.
Proof.
  intros Hok (ms1 & H1 & Hx1) (ms2 & H2 & Hx2).
  destruct (Z.eq_dec k1 k2) as [|Hne]; [assumption|exfalso].
  apply py_in_In in Hx1 as (y1 & Hy1 & He1).
  apply py_in_In in Hx2 as (y2 & Hy2 & He2).
  apply dict_get_Some_In in H1, H2.
  pose proof (ok_disjoint _ _ _ Hok _ _ _ _ _ _ H1 H2 Hne Hy1 Hy2) as Hd.
  rewrite py_eqb_sym in He1.
  rewrite (py_eqb_trans _ _ _ He1 He2) in Hd. discriminate.
Qed.

Lemma held_iff_seen st x :
  build_ok (Z.of_nat num_posts) min_cluster_size st ->
  py_in x (seen_indices st) = true <-> exists k, held_by (clusters st) k x.
Proof.
  intros Hok. rewrite <- (ok_members _ _ _ Hok). split.
  - intros H. apply py_in_In in H as (y & Hy & Heq).
    apply all_members_In in Hy as (k & ms & Hin & Hyms).
    exists k, ms. split; [apply dict_get_of_In; [now apply ids_NoDup|assumption]|].
    apply py_in_In. eauto.
  - intros (k & ms & Hget & Hin). apply py_in_In in Hin as (y & Hy & Heq).
    apply py_in_In. exists y. split; [|assumption].
    apply all_members_In. exists k, ms. split; [|assumption].
    now apply dict_get_Some_In.
Qed.

(** Every index of the sample is a member of one cluster of the result,
    and of no other. *)
Lemma one_cluster_per_index clusters_array result i :
  build_clusters num_posts min_cluster_size clusters_array = Ok result ->
  0 <= i < Z.of_nat num_posts ->
  exists k, held_by result k (PInt i) /\
            forall k', held_by result k' (PInt i) -> k' = k.
Proof.
  intros Hb Hi.
  destruct (build_clusters_cases _ _ _ _ Hb)
    as (proposals & st & _ & _ & Hok & [(Hc & ->)|[(Hc & Hm & ->)|(Hc & Hm & L & HL & ->)]]).
  - (* one cluster with every index *)
    exists 0. split.
    + exists (all_indices num_posts). split; [reflexivity|].
      apply py_in_int_literal, all_indices_In. eauto.
    + intros k' (ms & Hget & _). cbn in Hget.
      destruct (Z.eqb_spec k' 0); [assumption | discriminate].
  - (* nothing missing *)
    assert (Hseen : py_in (PInt i) (seen_indices st) = true).
    { destruct (py_in (PInt i) (seen_indices st)) eqn:Hs; [reflexivity|].
      assert (In (PInt i) (missing_indices num_posts (seen_indices st)))
        by (apply missing_In; eauto).
      rewrite Hm in *. contradiction. }
    apply (held_iff_seen _ _ Hok) in Hseen as [k Hk]. exists k.
    split; [assumption|]. intros k' Hk'. eapply held_unique; eauto.
  - (* the missing indices joined the largest cluster *)
    destruct (largest_spec _ _ HL) as (msL & HinL & _).
    assert (HLid : In L (ids (clusters st))).
    { unfold ids, dict_keys. apply in_map_iff. now exists (L, msL). }
    destruct (py_in (PInt i) (seen_indices st)) eqn:Hs.
    + pose proof Hs as Hs'. apply (held_iff_seen _ _ Hok) in Hs as [k Hk]. exists k.
      split; [apply held_by_extend; now left|].
      intros k' Hk'. apply held_by_extend in Hk' as [Hk'|(_ & _ & Hmiss)].
      * eapply held_unique; eauto.
      * apply py_in_missing in Hmiss as [_ Hmiss]. congruence.
    + exists L. split.
      * apply held_by_extend. right. repeat split; [assumption|].
        apply py_in_int_literal, missing_In. eauto.
      * intros k' Hk'. apply held_by_extend in Hk' as [Hk'|(-> & _)]; [|reflexivity].
        assert (py_in (PInt i) (seen_indices st) = true)
          by (apply (held_iff_seen _ _ Hok); eauto).
        congruence.
Qed.

Lemma build_ids_contiguous :
  forall (clusters_array : json) (result : cluster_map),
    build_clusters num_posts min_cluster_size clusters_array = Ok result ->
    contiguous_ids result /\ (1 <= List.length result)%nat.
Proof.
  intros clusters_array result Hb.
  destruct (build_clusters_cases _ _ _ _ Hb)
    as (proposals & st & _ & _ & Hok & [(Hc & ->)|[(Hc & Hm & ->)|(Hc & Hm & L & HL & ->)]]).
  - split; [reflexivity | cbn; lia].
  - unfold contiguous_ids. rewrite (ok_ids _ _ _ Hok), (ok_next _ _ _ Hok).
    split; [reflexivity|]. destruct (clusters st); [congruence | cbn; lia].
  - unfold contiguous_ids.
    rewrite ids_extend, extend_length, (ok_ids _ _ _ Hok), (ok_next _ _ _ Hok).
    split; [reflexivity|]. destruct (clusters st); [congruence | cbn; lia].
Qed.

End HeldFacts.

Section MonadFacts.
Import Gateway.

Lemma bind_Ok {A B} (c : M A) (k : A -> M B) w b w' :
  bind c k w = (Ok b, w') ->
  exists a w1, c w = (Ok a, w1) /\ k a w1 = (Ok b, w').
Proof.
  unfold bind. destruct (c w) as [[a|e] w1]; [eauto | discriminate].
Qed.

End MonadFacts.

Section SampleFacts.
Import PyStr Data Gateway Clustering Spec.
Variable json_loads : string -> option json.
Variable py_int : string -> option Z.

Lemma sample_result posts min_cluster_size w result w' :
  _cluster_initial_sample json_loads posts min_cluster_size w = (Ok result, w') ->
  exists clusters_array,
    decoded_reply json_loads w = Some clusters_array /\
    build_clusters (List.length posts) min_cluster_size clusters_array = Ok result.
Proof.
  unfold _cluster_initial_sample, decoded_reply. intros H.
  apply bind_Ok in H as (text & w1 & Hask & H). rewrite Hask.
  destruct (json_loads (unfence text)) as [arr|] eqn:Hj; [|discriminate].
  unfold lift in H. injection H as H _. eauto.
Qed.

Lemma sample_shape posts min_cluster_size w result w' :
  _cluster_initial_sample json_loads posts min_cluster_size w = (Ok result, w') ->
  contiguous_ids result /\ (1 <= List.length result)%nat.
Proof.
  intros H. apply sample_result in H as (arr & _ & Hb).
  eapply build_ids_contiguous; eauto.
Qed.

(** The clusters of the validation loop are the kept proposals, numbered
    from the next free id on. *)
Lemma propose_all_kept num_posts min_cluster_size proposals :
  forall st st',
    build_ok num_posts min_cluster_size st ->
    propose_all num_posts min_cluster_size st proposals = Ok st' ->
    exists kept,
      kept_clusters num_posts min_cluster_size (seen_indices st) proposals
      = Ok kept /\
      Forall (fun valid => min_cluster_size <= Z.of_nat (List.length valid)) kept /\
      List.length (clusters st')
      = (List.length (clusters st) + List.length kept)%nat /\
      (forall kv, In kv (clusters st) -> In kv (clusters st')) /\
      forall i valid, nth_error kept i = Some valid ->
        In (next_cluster_id st + Z.of_nat i, valid) (clusters st').
Proof.
  induction proposals as [|p proposals IH]; intros st st' Hok;
    cbn [propose_all kept_clusters].
  - intros [= <-]. exists []. split; [reflexivity|]. split; [constructor|].
    split; [cbn; lia|]. split; [auto|]. intros [|i] valid; discriminate.
  - destruct (propose num_posts min_cluster_size st p) as [st1|] eqn:Hp;
      [|discriminate].
    intros Hall. destruct (propose_ok _ _ _ _ _ Hok Hp) as (Hok1 & _).
    destruct (IH _ _ Hok1 Hall) as (kept & Hk & Hfloor & Hlen & Hmono & Hnth).
    destruct (propose_cases _ _ _ _ _ Hp)
      as (items & valid & -> & -> & [[Hlt ->]|[Hge ->]]).
    + (* rejected: the state is unchanged *)
      destruct (Z.leb_spec min_cluster_size (Z.of_nat (List.length valid)));
        [lia|].
      exists kept. auto.
    + (* kept: a new cluster under the next id *)
      destruct (Z.leb_spec min_cluster_size (Z.of_nat (List.length valid)));
        [|lia].
      cbn [seen_indices clusters next_cluster_id] in *.
      rewrite (dict_set_fresh _ _ _ (fresh_next _ _ _ Hok)) in *.
      rewrite Hk. exists (valid :: kept). split; [reflexivity|].
      split; [now constructor|]. split.
      { rewrite Hlen, length_app. cbn [List.length]. lia. }
      split.
      { intros kv Hin. apply Hmono, in_or_app. now left. }
      intros [|i] v; cbn [nth_error].
      * intros [= <-]. rewrite Z.add_0_r. apply Hmono, in_or_app. right. now left.
      * intros Hi. specialize (Hnth i v Hi).
        now replace (next_cluster_id st + Z.of_nat (S i))
          with (next_cluster_id st + 1 + Z.of_nat i) by lia.
Qed.

(** C4, as the code has it.  Whatever the oracle answers, when
    [_cluster_initial_sample] returns, the ids of its clusters are
    [0, 1, ..., K-1] in this order, where [K] is the number of proposals
    that are kept, or 1 when none is: the [i]-th kept proposal is found under
    id [i], so a proposal whose filtered size is below the floor consumes no
    id.  Every kept proposal has at least [min_cluster_size] valid indices;
    with a floor of 1 or more none of them is empty. *)
Theorem cluster_ids_contiguous :
  forall (posts : list post) (min_cluster_size : Z) (w : world)
         (result : cluster_map) (w' : world),
    _cluster_initial_sample json_loads posts min_cluster_size w = (Ok result, w') ->
    exists clusters_array proposals kept,
      decoded_reply json_loads w = Some clusters_array /\
      py_iter clusters_array = Ok proposals /\
      kept_clusters (Z.of_nat (List.length posts)) min_cluster_size [] proposals
      = Ok kept /\
      Forall (fun valid => min_cluster_size <= Z.of_nat (List.length valid)) kept /\
      (1 <= min_cluster_size -> Forall (fun valid => valid <> []) kept) /\
      ids result = range (Z.of_nat (List.length result)) /\
      List.length result = Nat.max 1 (List.length kept) /\
      forall i valid, nth_error kept i = Some valid ->
        exists extra,
          dict_get Z.eqb (Z.of_nat i) result = Some (valid ++ extra).
Proof.
  intros posts m w result w' H.
  destruct (sample_shape _ _ _ _ _ H) as [Hids _].
  apply sample_result in H as (arr & Hdec & Hb).
  destruct (build_clusters_cases _ _ _ _ Hb) as (proposals & st & Hiter & Hall & Hok & Hres).
  destruct (propose_all_kept _ _ _ _ _ (build_ok_init _ _) Hall)
    as (kept & Hk & Hfloor & Hlen & _ & Hnth).
  cbn [seen_indices clusters next_cluster_id List.length] in Hk, Hlen, Hnth.
  exists arr, proposals, kept.
  split; [exact Hdec|]. split; [exact Hiter|]. split; [exact Hk|].
  split; [exact Hfloor|]. split.
  { intros Hm. eapply Forall_impl; [|exact Hfloor].
    intros valid Hv ->. cbn in Hv. lia. }
  split; [exact Hids|].
  assert (Hget : forall i valid, nth_error kept i = Some valid ->
                   dict_get Z.eqb (Z.of_nat i) (clusters st) = Some valid).
  { intros i valid Hi. apply dict_get_of_In; [now apply (ids_NoDup _ _ _ Hok)|].
    specialize (Hnth i valid Hi). now rewrite Z.add_0_l in Hnth. }
  destruct Hres as [(Hc & ->)|[(Hc & Hm & ->)|(Hc & Hm & L & HL & ->)]].
  - rewrite Hc in Hlen. cbn [List.length] in Hlen.
    destruct kept; [|discriminate]. split; [reflexivity|].
    intros [|i] valid; discriminate.
  - split; [destruct (clusters st); [congruence | cbn [List.length] in *; rewrite Nat.max_r; lia]|].
    intros i valid Hi. exists []. rewrite app_nil_r. now apply Hget.
  - rewrite extend_length.
    split; [destruct (clusters st); [congruence | cbn [List.length] in *; rewrite Nat.max_r; lia]|].
    intros i valid Hi. unfold extend. rewrite dict_get_update.
    destruct (Z.eqb_spec (Z.of_nat i) L) as [<-|_]; rewrite (Hget i valid Hi).
    + cbn [option_map]. eauto.
    + exists []. now rewrite app_nil_r.
Qed.

(** C10.  [_cluster_initial_sample] never returns an empty map: with no
    accepted proposal it returns the single cluster [0] holding every index
    of the sample.  So [llm_cluster_posts] never leaves through the
    [if not clusters] return of its large-category path. *)
Theorem no_valid_clusters_unreachable :
  forall (posts : list post) (min_cluster_size : Z) (w : world),
    (forall result w',
        _cluster_initial_sample json_loads posts min_cluster_size w
        = (Ok result, w') -> result <> []) /\
    (forall clusters_array proposals st,
        py_iter clusters_array = Ok proposals ->
        propose_all (Z.of_nat (List.length posts)) min_cluster_size
                    (Build [] [] 0) proposals = Ok st ->
        clusters st = [] ->
        build_clusters (List.length posts) min_cluster_size clusters_array
        = Ok [(0, all_indices (List.length posts))]) /\
    (exists exit result,
        fst (llm_cluster_posts_from json_loads py_int posts min_cluster_size w)
        = Ok (exit, result) /\ exit <> NoValidClusters).
Proof.
  intros posts m w. split; [|split].
  - intros result w' H. apply sample_shape in H as [_ H].
    destruct result; [cbn in H; lia | discriminate].
  - intros arr proposals st Hi Hp Hc. unfold build_clusters. rewrite Hi, Hp, Hc.
    assert (Hseen : seen_indices st = []).
    { destruct (propose_all_ok _ _ _ _ _ (build_ok_init _ _) Hp) as [Hok _].
      rewrite <- (ok_members _ _ _ Hok), Hc. reflexivity. }
    rewrite Hseen. destruct (missing_indices (List.length posts) []); reflexivity.
  - unfold llm_cluster_posts_from.
    destruct (List.length posts <=? INITIAL_SAMPLE_SIZE)%nat.
    + unfold try_except, bind.
      destruct (_cluster_initial_sample json_loads posts m w) as [[c|e] w1];
        cbn; eexists _, _; (split; [reflexivity | discriminate]).
    + unfold try_except. unfold bind at 1.
      destruct (_cluster_initial_sample json_loads (firstn INITIAL_SAMPLE_SIZE posts) m w)
        as [[c|e] w1] eqn:Hs.
      * apply sample_shape in Hs as [_ Hlen].
        destruct c as [|kv c]; [cbn in Hlen; lia|].
        unfold bind.
        destruct (_extract_cluster_themes posts (kv :: c) w1) as [[themes|e] w2].
        -- destruct (skipn INITIAL_SAMPLE_SIZE posts) as [|p rest].
           ++ cbn. eexists _, _. split; [reflexivity | discriminate].
           ++ destruct (_assign_posts_to_clusters py_int (p :: rest) themes
                          (kv :: c) (Z.of_nat INITIAL_SAMPLE_SIZE) 30 w2)
                as [[c'|e] w3]; cbn;
                eexists _, _; (split; [reflexivity | discriminate]).
        -- cbn. eexists _, _. split; [reflexivity | discriminate].
      * cbn. eexists _, _. split; [reflexivity | discriminate].
Qed.

End SampleFacts.

Section ClaimFacts.
Import PyStr Data Gateway Clustering Spec.

(** C3, as the code has it.  In the map [_cluster_initial_sample] builds
    from a decoded reply, every index of the sample is a member of exactly
    one cluster.  An index listed by several proposed clusters goes to the
    first of them that is accepted while the index is unclaimed: that
    cluster, whose id is the number of clusters accepted before it, holds
    the index, and no other cluster does. *)
Theorem first_accepted_claim_wins :
  forall (num_posts : nat) (min_cluster_size : Z)
         (clusters_array : json) (result : cluster_map),
    build_clusters num_posts min_cluster_size clusters_array = Ok result ->
    (forall i, 0 <= i < Z.of_nat num_posts ->
       exists k, held_by result k (PInt i) /\
                 forall k', held_by result k' (PInt i) -> k' = k) /\
    (forall pre c post st valid i,
       clusters_array = JArr (pre ++ JArr c :: post) ->
       propose_all (Z.of_nat num_posts) min_cluster_size (Build [] [] 0) pre
       = Ok st ->
       valid_indices (Z.of_nat num_posts) (seen_indices st) c = Ok valid ->
       min_cluster_size <= Z.of_nat (List.length valid) ->
       In (JInt i) c -> 0 <= i < Z.of_nat num_posts ->
       py_in (PInt i) (seen_indices st) = false ->
       next_cluster_id st = Z.of_nat (List.length (clusters st)) /\
       held_by result (next_cluster_id st) (PInt i) /\
       forall k', held_by result k' (PInt i) -> k' = next_cluster_id st).
Proof.
  intros n m arr result Hb. split.
  { intros i Hi. eapply one_cluster_per_index; eauto. }
  intros pre c post st valid i -> Hpre Hv Hm Hin Hi Hs.
  destruct (propose_all_ok _ _ _ _ _ (build_ok_init _ _) Hpre) as [Hok _].
  assert (Hheld : held_by result (next_cluster_id st) (PInt i)).
  { destruct (build_clusters_cases _ _ _ _ Hb)
      as (proposals & fin & Hiter & Hall & Hfin & Hcases).
    cbn in Hiter. injection Hiter as <-.
    rewrite propose_all_app, Hpre in Hall. cbn [propose_all] in Hall.
    assert (Hstep : propose (Z.of_nat n) m st (JArr c)
                    = Ok (Build (clusters st ++ [(next_cluster_id st, valid)])
                                (seen_indices st ++ valid) (next_cluster_id st + 1))).
    { unfold propose. cbn [py_iter]. rewrite Hv.
      destruct (Z.leb_spec m (Z.of_nat (List.length valid))); [|lia].
      now rewrite (dict_set_fresh _ _ _ (fresh_next _ _ _ Hok)). }
    rewrite Hstep in Hall.
    assert (Hok2 := build_ok_accept _ _ st valid Hok Hm
                      (fun x Hx => valid_indices_In _ _ _ _ x Hv Hx)).
    destruct (propose_all_ok _ _ _ _ _ Hok2 Hall) as (_ & more & _ & Hmore & _).
    cbn [clusters] in Hmore.
    assert (Horig : held_by (clusters fin) (next_cluster_id st) (PInt i)).
    { exists valid. split.
      - apply dict_get_of_In; [eapply ids_NoDup; eauto|].
        rewrite Hmore. apply in_or_app. left. apply in_or_app. right. now left.
      - apply py_in_int_literal. eapply valid_indices_keeps; eauto. }
    destruct Hcases as [(Hc & ->)|[(Hc & Hmiss & ->)|(Hc & Hmiss & L & HL & ->)]].
    - rewrite Hmore in Hc. destruct (clusters st); discriminate.
    - exact Horig.
    - apply held_by_extend. now left. }
  split; [apply (ok_next _ _ _ Hok)|]. split; [exact Hheld|].
  intros k' Hk'.
  destruct (one_cluster_per_index _ _ _ _ i Hb Hi) as (k & _ & Huniq).
  rewrite (Huniq _ Hk'), (Huniq _ Hheld). reflexivity.
Qed.

End ClaimFacts.

Section ClaimExamples.
Import PyStr Data Gateway Clustering Spec Samples.
Local Open Scope string_scope.

(** The reply [[[0,1],[1,2,3],[4,1]]] over five posts with floor 2: index
    1 stays with the first proposal; the third, left with one index, is
    rejected, and its index 4 joins the first of the two largest
    clusters. *)
Lemma first_accepted_claim_wins_witness :
  let result := [(0, [PInt 0; PInt 1; PInt 4]); (1, [PInt 2; PInt 3])] in
  build_clusters 5 2 (JArr [JArr [JInt 0; JInt 1];
                            JArr [JInt 1; JInt 2; JInt 3];
                            JArr [JInt 4; JInt 1]]) = Ok result /\
  held_by result 0 (PInt 1) /\
  forall k', held_by result k' (PInt 1) -> k' = 0.
Proof.
  cbv zeta. split; [reflexivity|].
  refine (proj2 (proj2 (first_accepted_claim_wins 5 2
            (JArr [JArr [JInt 0; JInt 1]; JArr [JInt 1; JInt 2; JInt 3];
                   JArr [JInt 4; JInt 1]])
            [(0, [PInt 0; PInt 1; PInt 4]); (1, [PInt 2; PInt 3])] eq_refl) []
            [JInt 0; JInt 1]
            [JArr [JInt 1; JInt 2; JInt 3]; JArr [JInt 4; JInt 1]]
            (Build [] [] 0) [PInt 0; PInt 1] 1 eq_refl eq_refl eq_refl _ _ _ eq_refl)).
  - cbn. lia.
  - cbn. auto.
  - lia.
Defined.

(** C3, as worded, fails when the earliest proposal that lists the index
    is rejected: with floor 2 the reply [[[0],[0,1,2]]] leaves the loop
    state untouched after [[0]], the later occurrence of 0 passes the filter,
    and the index ends in the cluster built from the second proposal. *)
Lemma first_claim_counterexample :
  propose 3 2 (Build [] [] 0) (JArr [JInt 0]) = Ok (Build [] [] 0) /\
  valid_indices 3 [] [JInt 0; JInt 1; JInt 2] = Ok [PInt 0; PInt 1; PInt 2] /\
  fst (_cluster_initial_sample loads_index_arrays (sample_posts "c" 3) 2
         (start [Reply "[[0],[0,1,2]]"]))
  = Ok [(0, [PInt 0; PInt 1; PInt 2])].
Proof. repeat split; vm_compute; reflexivity. Qed.

(** C1 at a reply that repeats an index inside one proposed cluster: for
    two posts and the reply [[[0,0,1]]], [llm_cluster_posts] returns a
    cluster that lists index 0 twice, which is no partition of [{0, 1}]. *)
Theorem partition_broken_by_repeated_index :
  fst (llm_cluster_posts loads_index_arrays int_dec (sample_posts "c" 2) 2
         (start [Reply "[[0,0,1]]"]))
  = Ok [(0, [PInt 0; PInt 0; PInt 1])]
  /\ ~ exact_partition 2 [(0, [PInt 0; PInt 0; PInt 1])].
Proof.
  split; [vm_compute; reflexivity|].
  unfold exact_partition. intros H. apply Permutation_length in H. discriminate.
Qed.

(** The reply [[[0,1],[9],[2,3,4]]] over five posts with floor 2: the
    middle proposal is rejected and the third one gets id 1. *)
Lemma cluster_ids_contiguous_witness :
  let result := [(0, [PInt 0; PInt 1]); (1, [PInt 2; PInt 3; PInt 4])] in
  fst (_cluster_initial_sample loads_index_arrays (sample_posts "c" 5) 2
         (start [Reply "[[0,1],[9],[2,3,4]]"])) = Ok result /\
  exists kept,
    kept_clusters 5 2 []
      [JArr [JInt 0; JInt 1]; JArr [JInt 9]; JArr [JInt 2; JInt 3; JInt 4]]
    = Ok kept /\
    ids result = range 2 /\
    List.length result = Nat.max 1 (List.length kept) /\
    exists extra,
      dict_get Z.eqb 1 result = Some ([PInt 2; PInt 3; PInt 4] ++ extra)%list.
Proof.
  cbv zeta. split; [reflexivity|].
  destruct (cluster_ids_contiguous loads_index_arrays (sample_posts "c" 5) 2
              (start [Reply "[[0,1],[9],[2,3,4]]"])
              [(0, [PInt 0; PInt 1]); (1, [PInt 2; PInt 3; PInt 4])]
              (snd (_cluster_initial_sample loads_index_arrays
                      (sample_posts "c" 5) 2
                      (start [Reply "[[0,1],[9],[2,3,4]]"])))
              eq_refl)
    as (arr & proposals & kept & Hdec & Hiter & Hkept & _ & _ & Hids & Hlen & Hnth).
  vm_compute in Hdec. injection Hdec as <-.
  cbn [py_iter] in Hiter. injection Hiter as <-.
  exists kept. split; [exact Hkept|]. split; [exact Hids|]. split; [exact Hlen|].
  apply (Hnth 1%nat). vm_compute in Hkept. injection Hkept as <-. reflexivity.
Defined.

(** C4, as worded, fails for a floor of zero: the first two proposals are
    empty once filtered, each is kept and takes an id. *)
Lemma empty_cluster_takes_id_counterexample :
  fst (_cluster_initial_sample loads_index_arrays (sample_posts "c" 3) 0
         (start [Reply "[[7],[],[0,1,2]]"]))
  = Ok [(0, []); (1, []); (2, [PInt 0; PInt 1; PInt 2])].
Proof. vm_compute. reflexivity. Qed.

(** A category of 101 posts whose first reply proposes nothing: phase 1
    still hands on one cluster, and the call leaves through the last
    [return] of the large-category path. *)
Lemma no_valid_clusters_unreachable_witness :
  let w := start [Reply "[]"; Reply "theme"; Reply "POST_100: 0"] in
  (exists exit result,
      fst (llm_cluster_posts_from loads_index_arrays int_dec
             (sample_posts "c" 101) 2 w) = Ok (exit, result)
      /\ exit <> NoValidClusters)
  /\ fst (llm_cluster_posts loads_index_arrays int_dec (sample_posts "c" 101) 2 w)
     = Ok [(0, all_indices 101)].
Proof.
  cbv zeta. split.
  - exact (proj2 (proj2 (no_valid_clusters_unreachable loads_index_arrays int_dec
             (sample_posts "c" 101) 2
             (start [Reply "[]"; Reply "theme"; Reply "POST_100: 0"])))).
  - vm_compute. reflexivity.
Defined.

End ClaimExamples.

Section AssignFacts.
Import PyStr Data Gateway Clustering Spec.
Variable py_int : string -> option Z.




End AssignFacts.

Section InsightFacts.
Import PyStr Data Gateway Clustering Insights Spec.
Variables (cat : string) (cat_posts : list post) (min_cluster_size : Z).

Lemma insert_item_In kv item (l : cluster_map) :
  In kv (insert_item item l) <-> kv = item \/ In kv l.
Proof.
  induction l as [|h t IH]; cbn [insert_item].
  - cbn. intuition congruence.
  - destruct (fst item <=? fst h).
    + cbn. intuition congruence.
    + cbn. rewrite IH. intuition congruence.
Qed.

Lemma sorted_items_In kv (c : cluster_map) : In kv (sorted_items c) <-> In kv c.
Proof.
  unfold sorted_items. induction c as [|h t IH]; cbn [fold_right]; [reflexivity|].
  rewrite insert_item_In, IH. cbn. intuition congruence.
Qed.

Lemma Forall2_In_r {A B} (R : A -> B -> Prop) l1 l2 b :
  Forall2 R l1 l2 -> In b l2 -> exists a, In a l1 /\ R a b.
Proof.
  induction 1 as [|x y l1 l2 HR _ IH]; [intros []|].
  intros [<-|Hin]; [exists x; split; [now left | assumption]|].
  destruct (IH Hin) as (a & Ha & HRa). exists a. split; [now right | assumption].
Qed.

(** The insight loop appends one insight per cluster that meets the
    floor, in the order of the visit, and nothing else. *)
Lemma clusters_loop_spec (todo : cluster_map) :
  forall acc w out w',
    clusters_loop cat cat_posts min_cluster_size todo acc w = (Ok out, w') ->
    exists new,
      out = acc ++ new /\
      Forall2 (insight_for cat cat_posts)
              (filter (meets_floor cat_posts min_cluster_size) todo) new.
Proof.
  induction todo as [|[cluster_id post_indices] rest IH]; intros acc w out w';
    cbn [clusters_loop].
  - intros [= <- _]. exists []. rewrite app_nil_r. split; [reflexivity|constructor].
  - intros H. apply bind_Ok in H as (cluster_posts & w1 & Hposts & H).
    unfold lift in Hposts. injection Hposts as Hposts <-.
    cbn [filter]. unfold meets_floor at 1. cbn [snd]. rewrite Hposts.
    destruct (Z.ltb_spec (Z.of_nat (List.length cluster_posts)) min_cluster_size)
      as [Hlt|Hge].
    + destruct (Z.leb_spec min_cluster_size (Z.of_nat (List.length cluster_posts)));
        [lia|]. eauto.
    + destruct (Z.leb_spec min_cluster_size (Z.of_nat (List.length cluster_posts)));
        [|lia].
      apply bind_Ok in H as (insight_text & w2 & _ & H).
      destruct (IH _ _ _ _ H) as (new & -> & Hnew).
      eexists (_ :: new). rewrite <- app_assoc. split; [reflexivity|].
      constructor; [|assumption]. exists cluster_posts, insight_text. auto.
Qed.

Lemma py_index_position (x : pynum) (p : post) :
  le0 x = true -> py_index cat_posts x = Ok p ->
  exists j, nth_error cat_posts j = Some p /\ py_eqb x (PInt (Z.of_nat j)) = true.
Proof.
  unfold py_index. intros H0.
  destruct x as [z|b|f]; [| |discriminate].
  - cbn in H0. apply Z.leb_le in H0.
    destruct (Z.ltb_spec z 0); [lia|].
    destruct ((0 <=? z) && (z <? Z.of_nat (List.length cat_posts))); [|discriminate].
    destruct (nth_error cat_posts (Z.to_nat z)) as [q|] eqn:Hn; [|discriminate].
    intros [= <-]. exists (Z.to_nat z). split; [assumption|].
    rewrite py_eqb_int. apply Z.eqb_eq. lia.
  - set (z := if b then 1 else 0).
    assert (Hz : (match b with true => 1 | false => 0 end) = z) by reflexivity.
    destruct b; cbn -[nth_error Z.of_nat] in *;
      match goal with
      | |- context [if ?c then _ else _] => destruct c; [|discriminate]
      end;
      match goal with
      | |- context [nth_error cat_posts ?n] =>
          destruct (nth_error cat_posts n) as [q|] eqn:Hn; [|discriminate]
      end; intros [= <-].
    + exists 1%nat. split; [exact Hn | reflexivity].
    + exists 0%nat. split; [exact Hn | reflexivity].
Qed.

Lemma cluster_posts_of_In post_indices cluster_posts q :
  cluster_posts_of cat_posts post_indices = Ok cluster_posts ->
  In q cluster_posts ->
  exists y, In y post_indices /\ py_index cat_posts y = Ok q.
Proof.
  revert cluster_posts.
  induction post_indices as [|i rest IH]; cbn [cluster_posts_of]; intros ps.
  - intros [= <-] [].
  - destruct (lt_int i (Z.of_nat (List.length cat_posts))).
    + destruct (py_index cat_posts i) as [p|] eqn:Hp; [|discriminate].
      destruct (cluster_posts_of cat_posts rest) as [ps'|]; [|discriminate].
      intros [= <-] [<-|Hin].
      * exists i. split; [now left | assumption].
      * destruct (IH ps' eq_refl Hin) as (y & Hy & Hq). exists y. split; [now right|auto].
    + intros H Hin. destruct (IH ps H Hin) as (y & Hy & Hq).
      exists y. split; [now right | auto].
Qed.

Lemma same_id_same_position i j p q :
  NoDup (ids_of cat_posts) ->
  nth_error cat_posts i = Some p -> nth_error cat_posts j = Some q ->
  id p = id q -> i = j.
Proof.
  intros Hnd Hi Hj Hid. unfold ids_of in Hnd.
  apply (proj1 (NoDup_nth_error (map id cat_posts)) Hnd).
  - rewrite length_map. apply nth_error_Some. congruence.
  - rewrite !nth_error_map, Hi, Hj. cbn. congruence.
Qed.

(** C5, as the code has it.  When the insight loop runs to its end, it
    has made one insight per cluster whose posts number at least
    [min_cluster_size], and none for a smaller cluster.  If some cluster
    meets the floor, a record that belongs to no such cluster is linked by
    no insight.  If none does, the single insight [all] links every record
    of the category.  When the [try] body raises instead, the category gets
    the single insight [fallback] over all its records, or no insight. *)
Theorem small_clusters_excluded :
  forall (clusters : cluster_map) (w : world) (insights : list insight)
         (w' : world),
    insights_of_clusters cat cat_posts min_cluster_size clusters w
    = (Ok insights, w') ->
    let kept := retained cat_posts min_cluster_size clusters in
    (kept <> [] -> Forall2 (insight_for cat cat_posts) kept insights) /\
    (kept <> [] ->
     NoDup (ids_of cat_posts) ->
     (forall item x, In item clusters -> In x (snd item) -> le0 x = true) ->
     forall i p,
       nth_error cat_posts i = Some p ->
       (forall item, In item clusters ->
          meets_floor cat_posts min_cluster_size item = true ->
          py_in (PInt (Z.of_nat i)) (snd item) = false) ->
       forall ins, In ins insights -> ~ In (id p) (linked_posts ins)) /\
    (kept = [] ->
     exists insight_text,
       insights = [category_insight cat "all" cat_posts insight_text]) /\
    (forall json_loads py_int w0,
       match clustered_insights json_loads py_int cat cat_posts
               min_cluster_size w0 with
       | (Ok made, w1) =>
           category_insights json_loads py_int cat cat_posts
             min_cluster_size w0 = (Ok made, w1)
       | (Raise _, _) =>
           let out := fst (category_insights json_loads py_int cat cat_posts
                             min_cluster_size w0) in
           out = Ok [] \/
           exists insight_text,
             out = Ok [category_insight cat "fallback" cat_posts insight_text]
       end).
Proof.
  intros clusters w insights w' H kept.
  unfold insights_of_clusters in H.
  apply bind_Ok in H as (made & w1 & Hloop & H).
  apply clusters_loop_spec in Hloop as (new & -> & Hnew).
  cbn [app] in H.
  change (Forall2 (insight_for cat cat_posts) kept new) in Hnew.
  pose proof (Forall2_length Hnew) as Hlen.
  assert (Hkept : kept <> [] ->
                  insights = new /\ Forall2 (insight_for cat cat_posts) kept new).
  { intros Hne. destruct new as [|n new].
    - apply length_zero_iff_nil in Hlen. contradiction.
    - unfold ret in H. injection H as <- _. auto. }
  split; [|split; [|split]].
  - intros Hne. now destruct (Hkept Hne) as [-> ?].
  - intros Hne Hnd Hpos i p Hp Hout ins Hin Hlinked.
    destruct (Hkept Hne) as [-> HF].
    destruct (Forall2_In_r _ _ _ _ HF Hin) as (item & Hitem & posts & text & Hposts & ->).
    unfold kept, retained in Hitem. apply filter_In in Hitem as [Hitem Hfloor].
    apply (proj1 (sorted_items_In _ _)) in Hitem.
    cbn [linked_posts cluster_insight] in Hlinked. unfold ids_of in Hlinked.
    apply in_map_iff in Hlinked as (q & Hid & Hq).
    destruct (cluster_posts_of_In _ _ _ Hposts Hq) as (y & Hy & Hidx).
    destruct (py_index_position y q (Hpos item y Hitem Hy) Hidx) as (j & Hj & Heq).
    assert (i = j) by (eapply same_id_same_position; eauto). subst j.
    specialize (Hout item Hitem Hfloor).
    apply (proj1 (py_in_false _ _) Hout) in Hy.
    rewrite py_eqb_sym in Hy. congruence.
  - intros Hk. rewrite Hk in Hlen. symmetry in Hlen.
    apply length_zero_iff_nil in Hlen. subst new.
    apply bind_Ok in H as (text & w2 & _ & H). unfold ret in H.
    injection H as <- _. eauto.
  - intros json_loads py_int w0. unfold category_insights, try_except.
    destruct (clustered_insights json_loads py_int cat cat_posts min_cluster_size w0)
      as [[made0|e] w2]; [reflexivity|].
    cbv zeta. unfold bind, generate_category_insight.
    destruct (ask w2) as [[text|e2] w3]; cbn; eauto.
Qed.

End InsightFacts.

Section InsightExamples.
Import PyStr Data Gateway Clustering Insights Spec Samples.
Local Open Scope string_scope.

(** Three posts, floor 2, clusters [{0: [0, 1], 1: [2]}]: one insight, for
    cluster 0, and post [p2] of the small cluster is linked nowhere. *)
Lemma small_clusters_excluded_witness :
  let made := Insight "cat _01" "Cat A" "insight text" ["p0"; "p1"] 2 in
  fst (insights_of_clusters "Cat A" (sample_posts "Cat A" 3) 2
         [(0, [PInt 0; PInt 1]); (1, [PInt 2])] (start [Reply "insight text"]))
  = Ok [made]
  /\ ~ In "p2" (linked_posts made).
Proof.
  cbv zeta. split; [reflexivity|].
  pose proof (small_clusters_excluded "Cat A" (sample_posts "Cat A" 3) 2
                [(0, [PInt 0; PInt 1]); (1, [PInt 2])]
                (start [Reply "insight text"])
                [Insight "cat _01" "Cat A" "insight text" ["p0"; "p1"] 2]
                (snd (insights_of_clusters "Cat A" (sample_posts "Cat A" 3) 2
                        [(0, [PInt 0; PInt 1]); (1, [PInt 2])]
                        (start [Reply "insight text"])))
                eq_refl) as (_ & Hout & _).
  refine (Hout _ _ _ 2%nat (sample_post "Cat A" 2) eq_refl _ _ (or_introl eq_refl)).
  - discriminate.
  - repeat constructor; cbn; intuition discriminate.
  - intros item x [<-|[<-|[]]]; cbn; intuition (subst; reflexivity).
  - intros item [<-|[<-|[]]]; [reflexivity | discriminate].
Defined.

(** C5, as worded, fails when an insight request raises: three posts,
    floor 1, clusters [{0: [0], 1: [1, 2]}] that both meet the floor; the
    second insight request fails three times and the category ends with the
    single insight [fallback] that links every record. *)
Lemma fallback_insight_counterexample :
  let posts := sample_posts "Cat A" 3 in
  let w := start [Reply "[[0],[1,2]]"; Reply "first insight";
                  down; down; down; Reply "whole category"] in
  fst (llm_cluster_posts loads_index_arrays int_dec posts 1 w)
  = Ok [(0, [PInt 0]); (1, [PInt 1; PInt 2])]
  /\ retained posts 1 [(0, [PInt 0]); (1, [PInt 1; PInt 2])]
     = [(0, [PInt 0]); (1, [PInt 1; PInt 2])]
  /\ fst (category_insights loads_index_arrays int_dec "Cat A" posts 1 w)
     = Ok [Insight "cat _fallback" "Cat A" "whole category" ["p0"; "p1"; "p2"] 3].
Proof. cbv zeta. repeat split; vm_compute; reflexivity. Qed.

End InsightExamples.

Section IndexReplies.
Import PyStr Data Gateway Clustering Spec.
Variables (num_posts : nat) (min_cluster_size : Z).

(** On integers the filter of the validation loop is a plain [filter]. *)
Lemma valid_indices_ints seen (c : list Z) :
  valid_indices (Z.of_nat num_posts) seen (map JInt c)
  = Ok (map PInt
          (filter (fun i => (0 <=? i) && (i <? Z.of_nat num_posts)
                            && negb (py_in (PInt i) seen)) c)).
Proof.
  induction c as [|i c IH]; cbn [map valid_indices as_num filter]; [reflexivity|].
  rewrite IH. unfold le0, lt_int. cbn [dyadic_of].
  change (2 ^ 0) with 1. rewrite Z.mul_1_r. cbn [Z.leb].
  change (0 <=? 0) with true. cbv iota.
  destruct ((0 <=? i) && (i <? Z.of_nat num_posts) && negb (py_in (PInt i) seen));
    reflexivity.
Qed.

Lemma PInt_NoDup (l : list Z) : NoDup l -> NoDup (map PInt l).
Proof. apply Injective_map_NoDup. intros a b [= ->]. reflexivity. Qed.

Lemma all_indices_NoDup : NoDup (all_indices num_posts).
Proof. apply PInt_NoDup, range_NoDup. Qed.

Lemma int_seen_py_in seen i :
  int_seen num_posts seen -> py_in (PInt i) seen = true <-> In (PInt i) seen.
Proof.
  intros [_ Hall]. split; [|apply py_in_int_literal].
  apply py_in_ints. intros x Hx. apply Hall, all_indices_In in Hx as (j & -> & _).
  eauto.
Qed.

Lemma propose_ints st (c : list Z) st' :
  int_seen num_posts (seen_indices st) -> NoDup c ->
  propose (Z.of_nat num_posts) min_cluster_size st (JArr (map JInt c)) = Ok st' ->
  int_seen num_posts (seen_indices st').
Proof.
  intros Hseen Hc Hp.
  destruct (propose_cases _ _ _ _ _ Hp) as (items & valid & Hi & Hv & [[_ ->]|[_ ->]]);
    [assumption|].
  cbn in Hi. injection Hi as <-. rewrite valid_indices_ints in Hv.
  injection Hv as <-. cbn [seen_indices]. destruct Hseen as [Hnd Hall]. split.
  - apply NoDup_app; [assumption | apply PInt_NoDup, NoDup_filter, Hc |].
    intros x Hx Hx'. apply in_map_iff in Hx' as (i & <- & Hi).
    apply filter_In in Hi as [_ Hi]. apply andb_true_iff in Hi as [_ Hi].
    apply negb_true_iff in Hi. rewrite (py_in_int_literal _ _ Hx) in Hi. discriminate.
  - intros x Hx. apply in_app_or in Hx as [Hx|Hx]; [auto|].
    apply in_map_iff in Hx as (i & <- & Hi). apply filter_In in Hi as [_ Hi].
    apply andb_true_iff in Hi as [Hi _]. apply andb_true_iff in Hi as [H0 Hn].
    apply all_indices_In. exists i. split; [reflexivity|]. lia.
Qed.

Lemma propose_all_ints (proposals : list (list Z)) :
  forall st st',
    int_seen num_posts (seen_indices st) -> Forall (@NoDup Z) proposals ->
    propose_all (Z.of_nat num_posts) min_cluster_size st
                (map (fun c => JArr (map JInt c)) proposals) = Ok st' ->
    int_seen num_posts (seen_indices st').
Proof.
  induction proposals as [|c proposals IH]; intros st st' Hseen Hnd;
    cbn [map propose_all].
  - now intros [= <-].
  - inversion Hnd as [|? ? Hc Hrest]; subst.
    destruct (propose _ _ st _) as [st1|] eqn:Hp; [|discriminate].
    intros Hall. eapply IH; [|exact Hrest|exact Hall].
    eapply propose_ints; eauto.
Qed.

Lemma all_members_extend (c : cluster_map) k xs :
  In k (ids c) ->
  Permutation (all_members (extend k xs c)) (all_members c ++ xs).
Proof.
  unfold all_members, extend, ids, dict_keys.
  induction c as [|[k' v] r IH]; [intros []|].
  intros Hin. cbn [dict_update]. destruct (Z.eqb_spec k k') as [->|Hne].
  - change (Permutation ((v ++ xs) ++ List.concat (map snd r))
                        ((v ++ List.concat (map snd r)) ++ xs)).
    rewrite <- !app_assoc. apply Permutation_app_head, Permutation_app_comm.
  - change (Permutation
              (v ++ List.concat (map snd (dict_update Z.eqb k (fun ms => ms ++ xs) r)))
              ((v ++ List.concat (map snd r)) ++ xs)).
    rewrite <- app_assoc. apply Permutation_app_head, IH.
    destruct Hin as [Heq|Hin]; [cbn in Heq; congruence | exact Hin].
Qed.

Lemma missing_NoDup seen : NoDup (missing_indices num_posts seen).
Proof. apply NoDup_filter, all_indices_NoDup. Qed.

(** The members seen by the loop, with the missing indices, are the
    indices of the sample, each once. *)
Lemma seen_and_missing seen :
  int_seen num_posts seen ->
  Permutation (seen ++ missing_indices num_posts seen) (all_indices num_posts).
Proof.
  intros Hseen. pose proof Hseen as [Hnd Hall].
  apply NoDup_Permutation; [|apply all_indices_NoDup|].
  - apply NoDup_app; [assumption | apply missing_NoDup |].
    intros x Hx Hm. apply missing_In in Hm as (i & -> & _ & Hs).
    rewrite (py_in_int_literal _ _ Hx) in Hs. discriminate.
  - intros x. rewrite in_app_iff. split.
    + intros [Hx|Hx]; [auto|]. apply missing_In in Hx as (i & -> & Hi & _).
      apply all_indices_In. eauto.
    + intros Hx. pose proof Hx as Hx'. apply all_indices_In in Hx as (i & -> & Hi).
      destruct (py_in (PInt i) seen) eqn:Hs.
      * left. now apply int_seen_py_in.
      * right. apply missing_In. eauto.
Qed.

(** A reply of index arrays with no repetition inside an array is turned
    into an exact partition of the sample. *)
Lemma build_partition clusters_array result :
  index_arrays clusters_array ->
  build_clusters num_posts min_cluster_size clusters_array = Ok result ->
  exact_partition num_posts result.
Proof.
  intros (proposals & -> & Hnd) Hb. unfold exact_partition.
  destruct (build_clusters_cases _ _ _ _ Hb)
    as (ps & st & Hiter & Hall & Hok & Hcases).
  cbn in Hiter. injection Hiter as <-.
  assert (Hseen : int_seen num_posts (seen_indices st)).
  { eapply propose_all_ints; [|exact Hnd|exact Hall]. split; [constructor|intros x []]. }
  pose proof (seen_and_missing _ Hseen) as Hperm.
  destruct Hcases as [(Hc & ->)|[(Hc & Hm & ->)|(Hc & Hm & L & HL & ->)]].
  - unfold all_members. cbn. now rewrite app_nil_r.
  - rewrite Hm, app_nil_r in Hperm. now rewrite (ok_members _ _ _ Hok).
  - destruct (largest_spec _ _ HL) as (msL & HinL & _).
    rewrite all_members_extend, (ok_members _ _ _ Hok); [exact Hperm|].
    unfold ids, dict_keys. apply in_map_iff. now exists (L, msL).
Qed.

End IndexReplies.

Section PhaseThree.
Import PyStr Data Gateway Clustering Spec.
Variable py_int : string -> option Z.

Lemma ids_append k x (c : cluster_map) : ids (append k x c) = ids c.
Proof. apply ids_extend. Qed.

Lemma all_members_append (c : cluster_map) k x :
  In k (ids c) ->
  Permutation (all_members (append k x c)) (all_members c ++ [x]).
Proof. apply all_members_extend. Qed.

Lemma scan_lines_Some lines post_idx (c c' : cluster_map) :
  scan_lines py_int post_idx c lines = Some c' ->
  exists k, In k (ids c) /\ c' = append k (PInt post_idx) c.
Proof.
  induction lines as [|l lines IH]; cbn [scan_lines]; [discriminate|].
  destruct (contains (tag_of post_idx) l); [|exact IH].
  destruct (cluster_number py_int l) as [k|]; [|exact IH].
  destruct (dict_has Z.eqb k c) eqn:Hk; [|exact IH].
  intros [= <-]. exists k. split; [|reflexivity]. now apply dict_has_keys.
Qed.

Lemma largest_id (c : cluster_map) k : largest c = Ok k -> In k (ids c).
Proof.
  intros H. destruct (largest_spec _ _ H) as (ms & Hin & _).
  unfold ids, dict_keys. apply in_map_iff. now exists (k, ms).
Qed.

Lemma largest_Raise (c : cluster_map) e : largest c = Raise e -> c = [].
Proof. destruct c; [reflexivity | discriminate]. Qed.

(** A record that is handled joins exactly one cluster of the map. *)
Lemma assign_post_Ok lines (c c' : cluster_map) post_idx :
  assign_post py_int lines c post_idx = Ok c' ->
  exists k, In k (ids c) /\ c' = append k (PInt post_idx) c.
Proof.
  unfold assign_post.
  destruct (scan_lines py_int post_idx c lines) as [c1|] eqn:Hs.
  - intros [= <-]. eapply scan_lines_Some; eauto.
  - destruct (largest c) as [k|] eqn:Hk; [|discriminate].
    intros [= <-]. exists k. split; [now apply largest_id | reflexivity].
Qed.

Lemma assign_parsed_perm lines indices :
  forall (c c' : cluster_map) r,
    assign_parsed py_int lines c indices = (c', r) ->
    (r = None ->
     Permutation (all_members c') (all_members c ++ map PInt indices)) /\
    (forall e, r = Some e -> c' = []).
Proof.
  induction indices as [|i indices IH]; intros c c' r; cbn [assign_parsed map].
  - intros [= <- <-]. split; [|discriminate]. now rewrite app_nil_r.
  - destruct (assign_post py_int lines c i) as [c1|e] eqn:Hp.
    + intros H. destruct (IH _ _ _ H) as [Hperm Hraise].
      destruct (assign_post_Ok _ _ _ _ Hp) as (k & Hk & ->).
      split; [|exact Hraise]. intros Hr. rewrite (Hperm Hr).
      rewrite (all_members_append _ _ _ Hk), <- app_assoc. reflexivity.
    + intros [= <- <-]. split; [discriminate|]. intros _ _.
      unfold assign_post in Hp.
      destruct (scan_lines py_int i c lines); [discriminate|].
      destruct (largest c) eqn:Hl; [discriminate|].
      eapply largest_Raise; eauto.
Qed.

Lemma fold_append_perm k indices :
  forall c : cluster_map,
    In k (ids c) ->
    Permutation
      (all_members (fold_left (fun c i => append k (PInt i) c) indices c))
      (all_members c ++ map PInt indices).
Proof.
  induction indices as [|i indices IH]; intros c Hk; cbn [fold_left map].
  - now rewrite app_nil_r.
  - rewrite IH by now rewrite ids_append.
    rewrite (all_members_append _ _ _ Hk), <- app_assoc. reflexivity.
Qed.

Lemma assign_all_perm (c c' : cluster_map) indices :
  assign_all_to_largest c indices = Ok c' ->
  Permutation (all_members c') (all_members c ++ map PInt indices).
Proof.
  unfold assign_all_to_largest. destruct (largest c) as [k|] eqn:Hk; [|discriminate].
  intros [= <-]. apply fold_append_perm. now apply largest_id.
Qed.

(** A sub-batch that ends without raising has put each of its records
    into one cluster, whichever way it took. *)
Lemma assign_batch_perm batch batch_start (c c' : cluster_map) w w' :
  assign_batch py_int batch batch_start c w = (Ok c', w') ->
  Permutation (all_members c')
              (all_members c ++ map PInt (span batch_start (List.length batch))).
Proof.
  unfold assign_batch. change (batch_indices batch_start batch)
    with (span batch_start (List.length batch)).
  destruct (ask w) as [[result|e] w1].
  - destruct (assign_parsed py_int (lines_of result) c
                (span batch_start (List.length batch))) as [c1 [e|]] eqn:Hp.
    + destruct (assign_parsed_perm _ _ _ _ _ Hp) as [_ Hnil].
      rewrite (Hnil e eq_refl). cbn. discriminate.
    + intros [= <- _]. now apply (assign_parsed_perm _ _ _ _ _ Hp).
  - intros [= H _]. now apply assign_all_perm.
Qed.

Lemma map_seq_from {A} b :
  forall (g : nat -> A) a,
    map g (seq a b) = map (fun j => g (a + j)%nat) (seq 0 b).
Proof.
  induction b as [|b IH]; intros g a; cbn [seq map]; [reflexivity|].
  rewrite Nat.add_0_r. f_equal.
  rewrite (IH g (S a)), (IH (fun j => g (a + j)%nat) 1%nat).
  apply map_ext. intros j. f_equal. lia.
Qed.

Lemma span_app lo a b :
  span lo (a + b) = span lo a ++ span (lo + Z.of_nat a) b.
Proof.
  unfold span. rewrite seq_app, map_app. f_equal.
  rewrite map_seq_from. apply map_ext. intros j. cbn. lia.
Qed.

Lemma all_indices_app a b :
  all_indices (a + b) = all_indices a ++ map PInt (span (Z.of_nat a) b).
Proof.
  unfold all_indices, range, span. rewrite !Nat2Z.id, seq_app, !map_app.
  f_equal. rewrite map_seq_from, !map_map. apply map_ext. intros j.
  f_equal. cbn. lia.
Qed.

(** The loop over the sub-batches, when it ends without raising, has put
    every remaining record into one cluster. *)
Lemma assign_loop_perm posts start_idx batch_size :
  (1 <= batch_size)%nat ->
  forall fuel done (c c' : cluster_map) w w',
    (List.length (skipn done posts) <= fuel)%nat ->
    assign_loop py_int fuel posts start_idx batch_size done c w = (Ok c', w') ->
    Permutation (all_members c')
      (all_members c
       ++ map PInt (span (start_idx + Z.of_nat done)
                         (List.length (skipn done posts)))).
Proof.
  intros Hbs. induction fuel as [|fuel IH]; intros done c c' w w' Hfuel;
    cbn [assign_loop].
  - intros [= <- _]. assert (Hz : List.length (skipn done posts) = 0%nat) by lia.
    rewrite Hz. cbn. now rewrite app_nil_r.
  - destruct (skipn done posts) as [|p todo] eqn:Htodo.
    + intros [= <- _]. cbn. now rewrite app_nil_r.
    + intros H. apply bind_Ok in H as (c1 & w1 & Hbatch & Hloop).
      apply assign_batch_perm in Hbatch.
      assert (Hskip : skipn (done + batch_size) posts = skipn batch_size (p :: todo)).
      { rewrite <- Htodo, skipn_skipn. f_equal. lia. }
      apply IH in Hloop; [|rewrite Hskip, length_skipn; cbn [List.length] in *; lia].
      rewrite Hloop, Hbatch, Hskip, <- app_assoc, <- map_app.
      assert (Heq : span (start_idx + Z.of_nat done)
                         (List.length (firstn batch_size (p :: todo)))
                    ++ span (start_idx + Z.of_nat (done + batch_size))
                            (List.length (skipn batch_size (p :: todo)))
                    = span (start_idx + Z.of_nat done) (List.length (p :: todo))).
      { rewrite <- (firstn_skipn batch_size (p :: todo)) at 3.
        rewrite length_app, span_app. f_equal.
        destruct (Nat.le_gt_cases batch_size (List.length (p :: todo))) as [Hle|Hgt].
        - rewrite firstn_length_le by exact Hle. f_equal. lia.
        - rewrite skipn_all2 by lia. reflexivity. }
      rewrite Heq. reflexivity.
Qed.

Lemma assign_posts_perm posts themes (c c' : cluster_map) start_idx batch_size w w' :
  _assign_posts_to_clusters py_int posts themes c start_idx batch_size w
  = (Ok c', w') ->
  Permutation (all_members c')
              (all_members c ++ map PInt (span start_idx (List.length posts))).
Proof.
  unfold _assign_posts_to_clusters. destruct batch_size as [|bs].
  - discriminate.
  - intros H. apply assign_loop_perm in H; [|lia|cbn; lia].
    cbn [skipn] in H. now rewrite Z.add_0_r in H.
Qed.

End PhaseThree.

Section WholeEngine.
Import PyStr Data Gateway Clustering Spec.
Variable json_loads : string -> option json.
Variable py_int : string -> option Z.

Lemma one_cluster_partition n : exact_partition n (one_cluster n).
Proof.
  unfold exact_partition, one_cluster, all_members. cbn [map snd List.concat].
  now rewrite app_nil_r.
Qed.

(** When the reply decoded by the clustering call lists integers only and
    repeats no index inside a proposed cluster, [llm_cluster_posts] returns
    an exact partition of [0 .. M-1], on the direct path, on the three-phase
    path and on every fall-back; it returns in every case. *)
Theorem partition_for_index_replies :
  forall (posts : list post) (min_cluster_size : Z) (w : world),
    (forall clusters_array,
        decoded_reply json_loads w = Some clusters_array ->
        index_arrays clusters_array) ->
    exists result,
      fst (llm_cluster_posts json_loads py_int posts min_cluster_size w)
      = Ok result /\
      exact_partition (List.length posts) result.
Proof.
  intros posts m w Hreply.
  unfold llm_cluster_posts, llm_cluster_posts_from.
  destruct (Nat.leb_spec (List.length posts) INITIAL_SAMPLE_SIZE) as [Hsmall|Hlarge].
  - (* direct clustering *)
    unfold bind at 1. unfold try_except. unfold bind at 1.
    destruct (_cluster_initial_sample json_loads posts m w) as [[c|e] w1] eqn:Hs.
    + cbn. exists c. split; [reflexivity|].
      apply sample_result in Hs as (arr & Hdec & Hb).
      eapply build_partition; eauto.
    + cbn. eexists. split; [reflexivity | apply one_cluster_partition].
  - (* three phases *)
    unfold bind at 1. unfold try_except. unfold bind at 1.
    destruct (_cluster_initial_sample json_loads (firstn INITIAL_SAMPLE_SIZE posts) m w)
      as [[c|e] w1] eqn:Hs;
      [|cbn; eexists; split; [reflexivity | apply one_cluster_partition]].
    pose proof (sample_shape _ _ _ _ _ _ Hs) as [_ Hlen].
    apply sample_result in Hs as (arr & Hdec & Hb).
    rewrite firstn_length_le in Hb by lia.
    pose proof (build_partition _ _ _ _ (Hreply _ Hdec) Hb) as Hpart.
    destruct c as [|kv c]; [cbn in Hlen; lia|].
    unfold bind at 1.
    destruct (_extract_cluster_themes posts (kv :: c) w1) as [[themes|e] w2];
      [|cbn; eexists; split; [reflexivity | apply one_cluster_partition]].
    destruct (skipn INITIAL_SAMPLE_SIZE posts) as [|p rest] eqn:Hrest.
    + apply (f_equal (@List.length _)) in Hrest. rewrite length_skipn in Hrest.
      cbn in Hrest. lia.
    + unfold bind at 1.
      destruct (_assign_posts_to_clusters py_int (p :: rest) themes (kv :: c)
                  (Z.of_nat INITIAL_SAMPLE_SIZE) 30 w2) as [[c'|e] w3] eqn:Ha;
        [|cbn; eexists; split; [reflexivity | apply one_cluster_partition]].
      cbn [fst snd ret]. exists c'. split; [reflexivity|].
      apply assign_posts_perm in Ha. unfold exact_partition in *.
      rewrite Ha, Hpart, <- Hrest, length_skipn.
      replace (List.length posts)
        with (INITIAL_SAMPLE_SIZE + (List.length posts - INITIAL_SAMPLE_SIZE))%nat
        at 2 by lia.
      now rewrite all_indices_app.
Qed.

End WholeEngine.

Section WholeEngineExamples.
Import PyStr Data Gateway Clustering Spec Samples.
Local Open Scope string_scope.

(** A reader of replies that keeps what [loads_index_arrays] decodes only
    when no proposed cluster repeats an index. *)
Lemma partition_for_index_replies_witness :
  exact_partition 5 [(0, [PInt 0; PInt 1; PInt 4]); (1, [PInt 2; PInt 3])].
Proof.
  destruct (partition_for_index_replies loads_index_arrays int_dec
              (sample_posts "c" 5) 2 (start [Reply "[[0,1],[1,2,3],[4,1]]"]))
    as (result & Hres & Hpart).
  - intros arr Harr. vm_compute in Harr. injection Harr as <-.
    exists [[0; 1]; [1; 2; 3]; [4; 1]]. split; [reflexivity|].
    repeat constructor; cbn; intuition discriminate.
  - vm_compute in Hres. injection Hres as <-. exact Hpart.
Defined.

End WholeEngineExamples.

Section SnapshotFacts.
Import PyStr Data Gateway Clustering Spec.

Lemma max_from_id rest :
  forall best, In (max_from best rest) (fst best :: ids rest).
Proof.
  induction rest as [|kv rest IH]; intros best; cbn [max_from]; [now left|].
  destruct (List.length (snd best) <? List.length (snd kv))%nat.
  - right. apply IH.
  - destruct (IH best) as [H|H]; [now left | right; now right].
Qed.

Lemma update_head (k : Z) (f : list pynum -> list pynum) v (r : cluster_map) :
  dict_update Z.eqb k f ((k, v) :: r) = (k, f v) :: r.
Proof. cbn. now rewrite Z.eqb_refl. Qed.

Lemma update_tail (k k' : Z) (f : list pynum -> list pynum) v (r : cluster_map) :
  k <> k' ->
  dict_update Z.eqb k f ((k', v) :: r) = (k', v) :: dict_update Z.eqb k f r.
Proof. intros H. cbn. destruct (Z.eqb_spec k k'); [contradiction|reflexivity]. Qed.

Lemma max_from_cons best kv rest :
  max_from best (kv :: rest)
  = if (List.length (snd best) <? List.length (snd kv))%nat
    then max_from kv rest else max_from best rest.
Proof. reflexivity. Qed.

(** Growing the cluster [max] picked keeps it the one [max] picks. *)
Lemma max_from_grows x rest :
  forall best best' rest',
    NoDup (fst best :: ids rest) ->
    dict_update Z.eqb (max_from best rest) (fun ms => ms ++ [x]) (best :: rest)
    = best' :: rest' ->
    max_from best' rest' = max_from best rest.
Proof.
  induction rest as [|[k2 ms2] rest IH]; intros [k ms] best' rest' Hnd.
  - cbn [max_from fst]. rewrite update_head. now intros [= <- <-].
  - rewrite max_from_cons. cbn [snd fst] in *.
    assert (Hnd1 : NoDup (k2 :: ids rest)) by (inversion Hnd; assumption).
    assert (Hnd2 : NoDup (k :: ids rest)).
    { inversion Hnd as [|? ? Hk Hx]; subst. inversion Hx; subst.
      constructor; [|assumption]. cbn in Hk. tauto. }
    assert (Hkk2 : k <> k2).
    { intros ->. inversion Hnd as [|? ? Hk _]; subst. apply Hk. now left. }
    destruct (Nat.ltb_spec (List.length ms) (List.length ms2)) as [Hlt|Hge].
    + (* the second entry takes over *)
      remember (max_from (k2, ms2) rest) as K eqn:HKdef.
      assert (HK : In K (k2 :: ids rest))
        by (subst K; apply (max_from_id rest (k2, ms2))).
      assert (Hne : K <> k).
      { intros ->. inversion Hnd as [|? ? Hk _]; subst. apply Hk. exact HK. }
      rewrite (update_tail _ _ _ _ _ Hne).
      destruct (dict_update Z.eqb K (fun ms => ms ++ [x]) ((k2, ms2) :: rest))
        as [|b' r'] eqn:Hu.
      { apply (f_equal (@List.length _)) in Hu. rewrite dict_update_length in Hu.
        discriminate. }
      intros [= <- <-].
      assert (Hrec : max_from b' r' = K).
      { rewrite HKdef. apply IH; [exact Hnd1 | rewrite <- HKdef; exact Hu]. }
      assert (Hlen : (List.length ms < List.length (snd b'))%nat).
      { destruct (Z.eq_dec K k2) as [->|HK2].
        - rewrite update_head in Hu. injection Hu as <- _. cbn [snd].
          rewrite length_app. lia.
        - rewrite (update_tail _ _ _ _ _ HK2) in Hu. injection Hu as <- _.
          exact Hlt. }
      rewrite max_from_cons. cbn [snd].
      destruct (Nat.ltb_spec (List.length ms) (List.length (snd b'))); [|lia].
      exact Hrec.
    + (* the first entry stays ahead *)
      remember (max_from (k, ms) rest) as K eqn:HKdef.
      assert (HK : In K (k :: ids rest))
        by (subst K; apply (max_from_id rest (k, ms))).
      destruct (Z.eq_dec K k) as [->|HKk].
      * rewrite update_head. intros [= <- <-]. rewrite max_from_cons. cbn [snd].
        destruct (Nat.ltb_spec (List.length (ms ++ [x])) (List.length ms2));
          [rewrite length_app in *; cbn in *; lia|].
        transitivity (max_from (k, ms) rest); [|symmetry; exact HKdef].
        apply IH; [exact Hnd2|].
        rewrite <- HKdef. exact (update_head k (fun ms0 => ms0 ++ [x]) ms rest).
      * assert (HK2 : K <> k2).
        { destruct HK as [HK|HK]; [congruence|]. intros ->.
          inversion Hnd1 as [|? ? Hx _]; subst. contradiction. }
        rewrite (update_tail _ _ _ _ _ HKk), (update_tail _ _ _ _ _ HK2).
        remember (dict_update Z.eqb K (fun ms => ms ++ [x]) rest) as U eqn:HU.
        intros [= <- <-]. rewrite max_from_cons. cbn [snd].
        destruct (Nat.ltb_spec (List.length ms) (List.length ms2)); [lia|].
        rewrite HKdef. apply IH; [exact Hnd2|].
        rewrite <- HKdef, HU. now apply update_tail.
Qed.

Lemma largest_after_append (c : cluster_map) K x :
  NoDup (ids c) -> largest c = Ok K -> largest (append K x c) = Ok K.
Proof.
  destruct c as [|best rest]; [discriminate|]. cbn [largest]. intros Hnd [= HK].
  unfold append, extend.
  destruct (dict_update Z.eqb K (fun ms => ms ++ [x]) (best :: rest))
    as [|b' r'] eqn:Hu.
  { apply (f_equal (@List.length _)) in Hu. rewrite dict_update_length in Hu.
    discriminate. }
  cbn [largest]. f_equal. rewrite <- HK in Hu |- *.
  now apply max_from_grows in Hu.
Qed.

(** In the [except] handler of a sub-batch the largest cluster is looked
    up once; it is still the cluster [max] would pick when each record of the
    sub-batch is appended. *)
Theorem handler_snapshot_is_current :
  forall (c : cluster_map) (pre : list Z) (post_idx : Z) (rest : list Z)
         (c' : cluster_map),
    NoDup (ids c) ->
    assign_all_to_largest c (pre ++ post_idx :: rest) = Ok c' ->
    exists K before,
      largest c = Ok K /\
      assign_all_to_largest c pre = Ok before /\
      largest before = Ok K /\
      assign_all_to_largest c (pre ++ [post_idx])
      = Ok (append K (PInt post_idx) before).
Proof.
  intros c pre post_idx rest c' Hnd. unfold assign_all_to_largest.
  destruct (largest c) as [K|] eqn:HK; [|discriminate]. intros _.
  exists K, (fold_left (fun c i => append K (PInt i) c) pre c).
  split; [reflexivity|]. split; [reflexivity|]. split.
  - clear rest c'. revert c Hnd HK.
    induction pre as [|i pre IH]; intros c Hnd HK; cbn [fold_left]; [exact HK|].
    apply IH; [unfold append; now rewrite ids_extend | now apply largest_after_append].
  - now rewrite fold_left_app.
Qed.

End SnapshotFacts.

Section SnapshotExamples.
Import PyStr Data Gateway Clustering Spec Samples.

Lemma handler_snapshot_is_current_witness :
  largest [(0, [PInt 0; PInt 1; PInt 100]); (1, [PInt 2; PInt 3])] = Ok 0 /\
  assign_all_to_largest [(0, [PInt 0; PInt 1]); (1, [PInt 2; PInt 3])] [100; 101]
  = Ok [(0, [PInt 0; PInt 1; PInt 100; PInt 101]); (1, [PInt 2; PInt 3])].
Proof.
  destruct (handler_snapshot_is_current
              [(0, [PInt 0; PInt 1]); (1, [PInt 2; PInt 3])] [100] 101 []
              [(0, [PInt 0; PInt 1; PInt 100; PInt 101]); (1, [PInt 2; PInt 3])])
    as (K & before & HK & Hb & Hl & Hlast).
  - repeat constructor; cbn; intuition discriminate.
  - reflexivity.
  - injection HK as <-. injection Hb as <-. split; [exact Hl | exact Hlast].
Defined.

End SnapshotExamples.

Section BudgetFacts.
Import PyStr Data Gateway Stages.

Lemma within_ret {A} (a : A) : within 0 (ret a).
Proof. intros w. cbn. repeat split; lia. Qed.

Lemma within_raise {A} e : within 0 (@raise A e).
Proof. intros w. cbn. repeat split; lia. Qed.

Lemma within_lift {A} (r : res A) : within 0 (lift r).
Proof. intros w. cbn. repeat split; lia. Qed.

Lemma within_weaken {A} n m (c : M A) : (n <= m)%nat -> within n c -> within m c.
Proof.
  intros Hle H w. destruct (H w) as (Ho & Hs & Hc). repeat split; auto; lia.
Qed.

Lemma within_bind {A B} n1 n2 (c : M A) (k : A -> M B) :
  within n1 c -> (forall a, within n2 (k a)) -> within (n1 + n2) (bind c k).
Proof.
  intros Hc Hk w. unfold bind. destruct (Hc w) as (Ho & Hs & Hn).
  destruct (c w) as [[a|e] w1]; cbn [snd] in *.
  - destruct (Hk a w1) as (Ho' & Hs' & Hn'). rewrite Ho', Hs'.
    repeat split; auto; lia.
  - repeat split; auto; lia.
Qed.

Lemma within_try {A} n1 n2 (c : M A) (h : exn -> M A) :
  within n1 c -> (forall e, within n2 (h e)) -> within (n1 + n2) (try_except c h).
Proof.
  intros Hc Hh w. unfold try_except. destruct (Hc w) as (Ho & Hs & Hn).
  destruct (c w) as [[a|e] w1]; cbn [snd] in *.
  - repeat split; auto; lia.
  - destruct (Hh e w1) as (Ho' & Hs' & Hn'). rewrite Ho', Hs'.
    repeat split; auto; lia.
Qed.

Lemma within_retry_loop retries delay todo :
  within (List.length todo) (retry_loop call retries delay todo).
Proof.
  induction todo as [|i rest IH]; intros w; cbn [retry_loop List.length].
  - cbn. repeat split; lia.
  - destruct (oracle w (calls w)) as [text|e] eqn:Ho.
    + rewrite (call_reply _ _ Ho). cbn. repeat split; lia.
    + rewrite (call_failure _ _ Ho). destruct (i <? retries - 1).
      * unfold bind, sleep.
        destruct (SLEEP_MAX <? Z.abs (delay * 2 ^ i));
          [cbn; repeat split; lia|].
        destruct (delay * 2 ^ i <? 0); [cbn; repeat split; lia|].
        match goal with |- context [retry_loop _ _ _ rest ?w2] =>
          destruct (IH w2) as (Ho' & Hs & Hc) end.
        cbn [oracle saved calls] in *. rewrite Ho', Hs. repeat split; lia.
      * cbn. repeat split; lia.
Qed.

Lemma within_ask : within 3 ask.
Proof.
  unfold ask. apply (within_bind 3 0).
  - unfold safe_llm_call. apply (within_retry_loop 3 3 (range 3)).
  - intros [s|]; [apply within_ret | apply within_raise].
Qed.

End BudgetFacts.

Section BatchFacts.
Import Pipeline Stages.
Context {A : Type}.

Lemma batches_concat size : (1 <= size)%nat ->
  forall fuel (l : list A), (List.length l <= fuel)%nat ->
    List.concat (batches fuel size l) = l.
Proof.
  intros Hs. induction fuel as [|fuel IH]; intros l Hl.
  - destruct l; [reflexivity | cbn in Hl; lia].
  - destruct l as [|a l]; [reflexivity|]. cbn [batches List.concat].
    rewrite IH; [apply firstn_skipn|].
    rewrite length_skipn. cbn [List.length] in *. lia.
Qed.

Lemma batches_length size : (1 <= size)%nat ->
  forall fuel (l : list A), (List.length l <= fuel)%nat ->
    List.length (batches fuel size l) = batch_count (List.length l) size.
Proof.
  intros Hs. unfold batch_count.
  induction fuel as [|fuel IH]; intros l Hl.
  - destruct l; [|cbn in Hl; lia]. cbn [batches List.length].
    symmetry. apply Nat.div_small. lia.
  - destruct l as [|a l].
    { cbn [batches List.length]. symmetry. apply Nat.div_small. lia. }
    cbn [batches]. change (List.length (?x :: ?y)) with (S (List.length y)) at 1.
    rewrite IH by (rewrite length_skipn; cbn [List.length] in *; lia).
    rewrite length_skipn. set (n := List.length (a :: l)).
    assert (Hn : (1 <= n)%nat) by (unfold n; cbn; lia).
    destruct (Nat.le_gt_cases size n) as [Hle|Hgt].
    + replace (n + size - 1)%nat with ((n - size + size - 1) + 1 * size)%nat by lia.
      rewrite Nat.div_add by lia. lia.
    + replace (n - size)%nat with 0%nat by lia.
      rewrite (Nat.div_small (0 + size - 1)) by lia.
      apply (Nat.div_unique _ _ 1 (n - 1)); lia.
Qed.

End BatchFacts.

Section SummarizeStage.
Import PyStr Data Gateway Summarize Pipeline Stages.
Local Open Scope string_scope.

Lemma map_zip_left {A B C D} (g : A -> D) (f : A * B -> C) (h : C -> D) :
  (forall ab, h (f ab) = g (fst ab)) ->
  forall (l : list A) (l' : list B), List.length l' = List.length l ->
    map h (map f (combine l l')) = map g l.
Proof.
  intros Hh. induction l as [|a l IH]; intros [|b l'] Hlen;
    try discriminate; [reflexivity|].
  cbn. rewrite Hh. cbn. f_equal. apply IH. now injection Hlen.
Qed.

Lemma Forall_zip_right {A B C} (P : C -> Prop) (Q : B -> Prop) (f : A * B -> C) :
  (forall ab, Q (snd ab) -> P (f ab)) ->
  forall (l : list A) (l' : list B), Forall Q l' -> Forall P (map f (combine l l')).
Proof.
  intros Hf. induction l as [|a l IH]; intros l' HQ; [constructor|].
  destruct HQ as [|b l' Hb HQ]; [constructor|].
  cbn. constructor; [now apply Hf | now apply IH].
Qed.

Lemma label_of_LABELS raw : In (label_of raw) LABELS.
Proof.
  unfold label_of, LABELS.
  destruct (contains "pos" raw); [now left|].
  destruct (contains "neg" raw); [now right; right; left | now right; left].
Qed.

Lemma parse_post_label post_title post_line :
  In (snd (parse_post post_title post_line)) LABELS.
Proof.
  assert (Hn : In "neutral" LABELS) by (right; now left).
  unfold parse_post. destruct post_line as [l|]; [|exact Hn].
  destruct (String.eqb l ""); [exact Hn|].
  destruct (split1 ":" l) as [[head rest]|]; [|exact Hn].
  destruct (contains "||" (strip rest)); [|exact Hn].
  destruct (split1 "||" (strip rest)) as [[sp st]|]; [|exact Hn].
  cbn [snd]. unfold sentiment_of.
  destruct (contains "SENTIMENT" st); [|exact Hn].
  destruct (raw_label st); [apply label_of_LABELS | exact Hn].
Qed.

Lemma parse_summaries_labels lines k posts :
  Forall (fun item => In (snd item) LABELS) (parse_summaries lines k posts).
Proof.
  revert k. induction posts as [|p posts IH]; intros k; cbn [parse_summaries];
    constructor; [apply parse_post_label | apply IH].
Qed.

(** One batch: never a raise, the same posts with both keys set. *)
Lemma summarize_one_batch_spec batch w :
  exists done,
    fst (summarize_one_batch batch w) = Ok done /\
    map id done = map id batch /\
    map title done = map title batch /\
    map category done = map category batch /\
    Forall summarized done.
Proof.
  unfold summarize_one_batch, try_except, summarize_batch, bind.
  destruct (ask w) as [[result|e] w1]; cbn [fst ret].
  - eexists. split; [reflexivity|].
    pose proof (parse_summaries_length (lines_of result) 0 batch) as Hlen.
    unfold parse_reply.
    split; [|split; [|split]].
    + apply map_zip_left; [intros ab; reflexivity | exact Hlen].
    + apply map_zip_left; [intros ab; reflexivity | exact Hlen].
    + apply map_zip_left; [intros ab; reflexivity | exact Hlen].
    + apply Forall_zip_right with (Q := fun item => In (snd item) LABELS).
      * intros [p item] Hl. exists (fst item), (snd item). cbn. auto.
      * apply parse_summaries_labels.
  - eexists. split; [reflexivity|]. rewrite !map_map. cbn.
    split; [|split; [|split]]; try reflexivity.
    apply Forall_forall. intros q Hq. apply in_map_iff in Hq as (p & <- & _).
    exists (title p), "neutral". cbn. split; [|split]; auto.
Qed.

Lemma summarize_one_batch_within batch : within 3 (summarize_one_batch batch).
Proof.
  unfold summarize_one_batch. apply (within_try 3 0).
  - unfold summarize_batch.
    exact (within_bind 3 0 _ _
             (within_bind 3 0 _ _ within_ask (fun a => within_ret _))
             (fun a => within_ret _)).
  - intros e. apply within_ret.
Qed.

Lemma summarize_batches_spec todo :
  forall acc w,
  exists done,
    fst (summarize_batches todo acc w) = Ok (acc ++ done)%list /\
    map id done = map id (List.concat todo) /\
    map title done = map title (List.concat todo) /\
    map category done = map category (List.concat todo) /\
    Forall summarized done.
Proof.
  induction todo as [|batch rest IH]; intros acc w; cbn [summarize_batches].
  - exists []. rewrite app_nil_r. cbn. repeat split. constructor.
  - unfold bind.
    destruct (summarize_one_batch_spec batch w) as (d & Hd & Hi & Ht & Hc & Hs).
    destruct (summarize_one_batch batch w) as [r w1]. cbn [fst] in Hd. subst r.
    destruct (IH (acc ++ d)%list w1) as (d' & Hd' & Hi' & Ht' & Hc' & Hs').
    exists (d ++ d')%list. rewrite app_assoc. split; [exact Hd'|].
    cbn [List.concat]. rewrite !map_app, Hi, Hi', Ht, Ht', Hc, Hc'.
    repeat split. now apply Forall_app.
Qed.

Lemma summarize_batches_within todo acc :
  within (3 * List.length todo) (summarize_batches todo acc).
Proof.
  revert acc. induction todo as [|batch rest IH]; intros acc;
    cbn [summarize_batches List.length].
  - apply within_ret.
  - replace (3 * S (List.length rest))%nat
      with (3 + 3 * List.length rest)%nat by lia.
    apply within_bind; [apply summarize_one_batch_within|].
    intros a. apply IH.
Qed.

Lemma summarize_posts_shape posts w :
  exists out,
    fst (summarize_posts posts w) = Ok out /\
    map id out = map id posts /\
    map title out = map title posts /\
    map category out = map category posts /\
    Forall summarized out /\
    saved (snd (summarize_posts posts w)) = saved w.
Proof.
  unfold summarize_posts.
  destruct (summarize_batches_spec (batches (List.length posts) BATCH_SIZE posts) [] w)
    as (done & Hd & Hi & Ht & Hc & Hs).
  rewrite batches_concat in Hi, Ht, Hc by (unfold BATCH_SIZE; lia).
  exists done. cbn [app] in Hd. repeat split; auto.
  apply summarize_batches_within.
Qed.

(** [summarize_posts] never raises and never drops, adds or reorders a
    post: it returns the posts it was given, each with a summary and one of
    the three sentiment labels, its other keys untouched.  It makes at most
    three requests per batch of [BATCH_SIZE] posts and writes nothing. *)
Theorem summarize_posts_total :
  forall (posts : list post) (w : world),
    exists out,
      fst (summarize_posts posts w) = Ok out /\
      map id out = map id posts /\
      map title out = map title posts /\
      map category out = map category posts /\
      Forall summarized out /\
      saved (snd (summarize_posts posts w)) = saved w /\
      (calls (snd (summarize_posts posts w))
       <= calls w + 3 * batch_count (List.length posts) BATCH_SIZE)%nat.
Proof.
  intros posts w.
  destruct (summarize_posts_shape posts w) as (out & H1 & H2 & H3 & H4 & H5 & H6).
  exists out. repeat split; auto. unfold summarize_posts.
  destruct (summarize_batches_within
              (batches (List.length posts) BATCH_SIZE posts) [] w) as (_ & _ & H).
  rewrite batches_length in H by (unfold BATCH_SIZE; lia). lia.
Qed.

End SummarizeStage.

Section CategorizeStage.
Import PyStr Data Gateway Categorize Pipeline Stages.
Local Open Scope string_scope.
Variable py_int : string -> option Z.

Lemma category_of_range categories post_line :
  In (category_of py_int categories post_line) categories
  \/ category_of py_int categories post_line = "Uncategorized".
Proof.
  unfold category_of. destruct post_line as [l|]; [|now right].
  destruct (String.eqb l ""); [now right|].
  destruct (number_after_colon py_int l) as [n|]; [|now right].
  destruct ((1 <=? n) && (n <=? Z.of_nat (List.length categories)))%Z; [|now right].
  destruct (nth_error categories (Z.to_nat (n - 1))) as [c|] eqn:Hc; [|now right].
  left. eapply nth_error_In; eauto.
Qed.

Lemma parse_categories_range categories lines k posts :
  Forall (fun c => In c categories \/ c = "Uncategorized")
         (parse_categories py_int categories lines k posts).
Proof.
  revert k. induction posts as [|p posts IH]; intros k; cbn [parse_categories];
    constructor; [apply category_of_range | apply IH].
Qed.

Lemma categorize_one_batch_spec categories batch w :
  exists done,
    fst (categorize_one_batch py_int categories batch w) = Ok done /\
    map id done = map id batch /\
    map title done = map title batch /\
    map summary done = map summary batch /\
    map sentiment done = map sentiment batch /\
    Forall (categorized categories) done.
Proof.
  unfold categorize_one_batch, try_except, categorize_batch, bind.
  destruct (ask w) as [[result|e] w1]; cbn [fst ret].
  - eexists. split; [reflexivity|].
    pose proof (parse_categories_length py_int categories (lines_of result) 0 batch)
      as Hlen.
    unfold parse_reply.
    split; [|split; [|split; [|split]]].
    + apply map_zip_left; [intros ab; reflexivity | exact Hlen].
    + apply map_zip_left; [intros ab; reflexivity | exact Hlen].
    + apply map_zip_left; [intros ab; reflexivity | exact Hlen].
    + apply map_zip_left; [intros ab; reflexivity | exact Hlen].
    + apply Forall_zip_right
        with (Q := fun c => In c categories \/ c = "Uncategorized").
      * intros [p c] Hc. exists c. cbn. auto.
      * apply parse_categories_range.
  - eexists. split; [reflexivity|]. rewrite !map_map. cbn.
    split; [|split; [|split; [|split]]]; try reflexivity.
    apply Forall_forall. intros q Hq. apply in_map_iff in Hq as (p & <- & _).
    exists "Uncategorized". cbn. auto.
Qed.

Lemma categorize_one_batch_within categories batch :
  within 3 (categorize_one_batch py_int categories batch).
Proof.
  unfold categorize_one_batch. apply (within_try 3 0).
  - unfold categorize_batch.
    exact (within_bind 3 0 _ _
             (within_bind 3 0 _ _ within_ask (fun a => within_ret _))
             (fun a => within_ret _)).
  - intros e. apply within_ret.
Qed.

Lemma categorize_batches_spec categories todo :
  forall acc w,
  exists done,
    fst (categorize_batches py_int categories todo acc w) = Ok (acc ++ done)%list /\
    map id done = map id (List.concat todo) /\
    map title done = map title (List.concat todo) /\
    map summary done = map summary (List.concat todo) /\
    map sentiment done = map sentiment (List.concat todo) /\
    Forall (categorized categories) done.
Proof.
  induction todo as [|batch rest IH]; intros acc w; cbn [categorize_batches].
  - exists []. rewrite app_nil_r. cbn. repeat split. constructor.
  - unfold bind.
    destruct (categorize_one_batch_spec categories batch w)
      as (d & Hd & Hi & Ht & Hsu & Hse & Hc).
    destruct (categorize_one_batch py_int categories batch w) as [r w1].
    cbn [fst] in Hd. subst r.
    destruct (IH (acc ++ d)%list w1) as (d' & Hd' & Hi' & Ht' & Hsu' & Hse' & Hc').
    exists (d ++ d')%list. rewrite app_assoc. split; [exact Hd'|].
    cbn [List.concat]. rewrite !map_app, Hi, Hi', Ht, Ht', Hsu, Hsu', Hse, Hse'.
    repeat split. now apply Forall_app.
Qed.

Lemma categorize_batches_within categories todo acc :
  within (3 * List.length todo) (categorize_batches py_int categories todo acc).
Proof.
  revert acc. induction todo as [|batch rest IH]; intros acc;
    cbn [categorize_batches List.length].
  - apply within_ret.
  - replace (3 * S (List.length rest))%nat
      with (3 + 3 * List.length rest)%nat by lia.
    apply within_bind; [apply categorize_one_batch_within|].
    intros a. apply IH.
Qed.

Lemma categorize_posts_shape posts categories w :
  exists out,
    fst (categorize_posts py_int posts categories w) = Ok out /\
    map id out = map id posts /\
    map title out = map title posts /\
    map summary out = map summary posts /\
    map sentiment out = map sentiment posts /\
    Forall (categorized categories) out /\
    saved (snd (categorize_posts py_int posts categories w)) = saved w.
Proof.
  unfold categorize_posts.
  destruct (categorize_batches_spec categories
              (batches (List.length posts) BATCH_SIZE posts) [] w)
    as (done & Hd & Hi & Ht & Hsu & Hse & Hc).
  rewrite batches_concat in Hi, Ht, Hsu, Hse by (unfold BATCH_SIZE; lia).
  exists done. cbn [app] in Hd. repeat split; auto.
  apply categorize_batches_within.
Qed.

(** [categorize_posts] never raises and returns the posts it was given,
    in order, each with a category that is an entry of [categories] or the
    sentinel [Uncategorized]; summaries and sentiments are untouched.  It
    makes at most three requests per batch and writes nothing. *)
Theorem categorize_posts_total :
  forall (posts : list post) (categories : list string) (w : world),
    exists out,
      fst (categorize_posts py_int posts categories w) = Ok out /\
      map id out = map id posts /\
      map title out = map title posts /\
      map summary out = map summary posts /\
      map sentiment out = map sentiment posts /\
      Forall (categorized categories) out /\
      saved (snd (categorize_posts py_int posts categories w)) = saved w /\
      (calls (snd (categorize_posts py_int posts categories w))
       <= calls w + 3 * batch_count (List.length posts) BATCH_SIZE)%nat.
Proof.
  intros posts categories w.
  destruct (categorize_posts_shape posts categories w)
    as (out & H1 & H2 & H3 & H4 & H5 & H6 & H7).
  exists out. repeat split; auto. unfold categorize_posts.
  destruct (categorize_batches_within categories
              (batches (List.length posts) BATCH_SIZE posts) [] w) as (_ & _ & H).
  rewrite batches_length in H by (unfold BATCH_SIZE; lia). lia.
Qed.

End CategorizeStage.

Section StringDictFacts.
Import Data.
Context {V : Type}.

Lemma sdict_set_In (k k' : string) (v v' : V) d :
  In (k', v') (dict_set String.eqb k v d) -> (k' = k /\ v' = v) \/ In (k', v') d.
Proof.
  induction d as [|[k0 v0] d IH]; cbn [dict_set].
  - intros [[= <- <-]|[]]. now left.
  - destruct (String.eqb_spec k k0) as [->|Hne].
    + intros [[= <- <-]|Hin]; [now left | right; now right].
    + intros [Heq|Hin]; [right; now left|].
      destruct (IH Hin) as [?|?]; [now left | right; now right].
Qed.

Lemma sdict_set_keys (k k' : string) (v : V) d :
  In k' (dict_keys (dict_set String.eqb k v d)) <-> k' = k \/ In k' (dict_keys d).
Proof.
  unfold dict_keys. induction d as [|[k0 v0] d IH]; cbn [dict_set map fst In].
  - intuition congruence.
  - destruct (String.eqb_spec k k0) as [->|Hne]; cbn [map fst In].
    + intuition congruence.
    + rewrite IH. intuition congruence.
Qed.

Lemma sdict_set_NoDup (k : string) (v : V) d :
  NoDup (dict_keys d) -> NoDup (dict_keys (dict_set String.eqb k v d)).
Proof.
  unfold dict_keys. induction d as [|[k0 v0] d IH]; cbn [dict_set map fst].
  - intros _. repeat constructor. intros [].
  - intros Hnd. inversion Hnd as [|? ? Hnotin Hnd']; subst.
    destruct (String.eqb_spec k k0) as [->|Hne]; cbn [map fst].
    + constructor; assumption.
    + constructor; [|now apply IH].
      intros Hin. apply (sdict_set_keys k k0 v d) in Hin as [->|Hin]; auto.
Qed.

End StringDictFacts.

Section InsightStage.
Import PyStr Data Gateway Clustering Insights Stages Spec.
Local Open Scope string_scope.
Variable json_loads : string -> option json.
Variable py_int : string -> option Z.

Lemma py_index_In {A} (l : list A) i a : py_index l i = Ok a -> In a l.
Proof.
  unfold py_index. destruct i as [z|b|f]; [| |discriminate];
    match goal with |- context [if ?c then _ else _] => destruct c end;
    try discriminate;
    match goal with |- context [if ?c then _ else _] => destruct c end;
    try discriminate;
    match goal with |- context [nth_error l ?n] =>
      destruct (nth_error l n) eqn:Hn end; try discriminate;
    intros [= <-]; eapply nth_error_In; eauto.
Qed.

Lemma cluster_posts_incl cat_posts post_indices cluster_posts :
  cluster_posts_of cat_posts post_indices = Ok cluster_posts ->
  incl cluster_posts cat_posts.
Proof.
  intros H q Hq.
  destruct (cluster_posts_of_In cat_posts _ _ _ H Hq) as (y & _ & Hy).
  eapply py_index_In; eauto.
Qed.

Lemma cluster_insight_links cat cat_posts cluster_id cluster_posts text :
  incl cluster_posts cat_posts ->
  links_within cat cat_posts (cluster_insight cat cluster_id cluster_posts text).
Proof.
  intros Hincl. unfold links_within, cluster_insight, ids_of. cbn.
  split; [reflexivity|]. split; [|now rewrite length_map].
  intros x Hx. apply in_map_iff in Hx as (p & <- & Hp).
  apply in_map. now apply Hincl.
Qed.

Lemma category_insight_links cat suffix cat_posts text :
  links_within cat cat_posts (category_insight cat suffix cat_posts text).
Proof.
  unfold links_within, category_insight, ids_of. cbn.
  split; [reflexivity|]. split; [apply incl_refl | now rewrite length_map].
Qed.

Lemma insights_of_clusters_links cat cat_posts m clusters w out w' :
  insights_of_clusters cat cat_posts m clusters w = (Ok out, w') ->
  Forall (links_within cat cat_posts) out.
Proof.
  unfold insights_of_clusters. intros H.
  apply bind_Ok in H as (made & w1 & Hloop & H).
  apply clusters_loop_spec in Hloop as (new & -> & Hnew). cbn [app] in H.
  assert (Hall : Forall (links_within cat cat_posts) new).
  { apply Forall_forall. intros ins Hin.
    destruct (Forall2_In_r _ _ _ _ Hnew Hin) as (item & _ & ps & text & Hps & ->).
    apply cluster_insight_links. eapply cluster_posts_incl; eauto. }
  destruct new as [|n new].
  - apply bind_Ok in H as (text & w2 & _ & H). unfold ret in H.
    injection H as <- _. constructor; [apply category_insight_links | constructor].
  - unfold ret in H. injection H as <- _. exact Hall.
Qed.

(** The [try] with its handlers never raises, and what it returns links
    posts of the category only. *)
Lemma category_insights_spec cat cat_posts m w :
  exists out,
    fst (category_insights json_loads py_int cat cat_posts m w) = Ok out /\
    Forall (links_within cat cat_posts) out.
Proof.
  unfold category_insights, try_except.
  destruct (clustered_insights json_loads py_int cat cat_posts m w)
    as [[made|e] w1] eqn:Hc.
  - exists made. split; [reflexivity|].
    unfold clustered_insights in Hc.
    apply bind_Ok in Hc as (clusters & w2 & _ & Hc).
    eapply insights_of_clusters_links; eauto.
  - unfold bind, generate_category_insight.
    destruct (ask w1) as [[text|e2] w2]; cbn [fst ret].
    + eexists. split; [reflexivity|].
      constructor; [apply category_insight_links | constructor].
    + exists []. split; [reflexivity | constructor].
Qed.

(** The loop over the categories: what it adds to [insights_db]. *)
Lemma categories_loop_spec posts m todo :
  forall db w out w',
    categories_loop json_loads py_int posts m todo db w = (Ok out, w') ->
    (forall cat ins, In (cat, ins) out ->
       In (cat, ins) db \/
       (In cat todo /\ posts_of_category cat posts <> [] /\
        Forall (links_within cat (posts_of_category cat posts)) ins)) /\
    (forall cat,
       In cat (dict_keys db) \/ (In cat todo /\ posts_of_category cat posts <> []) ->
       In cat (dict_keys out)) /\
    (NoDup (dict_keys db) -> NoDup (dict_keys out)).
Proof.
  induction todo as [|cat rest IH]; intros db w out w'; cbn [categories_loop].
  - intros [= <- _]. split; [|split]; auto.
    intros cat [H|[[] _]]. exact H.
  - destruct (posts_of_category cat posts) as [|p [|p' cat_posts]] eqn:Hcat.
    + (* no post in this category *)
      intros H. destruct (IH _ _ _ _ H) as (H1 & H2 & H3).
      split; [|split]; auto.
      * intros c ins Hin. destruct (H1 c ins Hin) as [?|(? & ? & ?)]; auto.
        right. split; [now right | auto].
      * intros c [Hk|[[<-|Hin] Hne]]; auto. now rewrite Hcat in Hne.
    + (* a single post *)
      intros H. apply bind_Ok in H as (text & w1 & _ & H).
      destruct (IH _ _ _ _ H) as (H1 & H2 & H3).
      split; [|split].
      * intros c ins Hin. destruct (H1 c ins Hin) as [Hdb|(? & ? & ?)].
        -- apply sdict_set_In in Hdb as [[-> ->]|Hdb]; auto.
           right. split; [now left|]. rewrite Hcat. split; [discriminate|].
           constructor; [|constructor].
           unfold links_within. cbn. repeat split. apply incl_refl.
        -- right. split; [now right | auto].
      * intros c Hc. apply H2.
        destruct Hc as [Hk|[[<-|Hin] Hne]]; auto;
          left; apply sdict_set_keys; auto.
      * intros Hnd. apply H3. now apply sdict_set_NoDup.
    + (* two posts or more *)
      intros H. apply bind_Ok in H as (made & w1 & Hmade & H).
      destruct (category_insights_spec cat (p :: p' :: cat_posts) m w)
        as (made' & Hm & Hlinks).
      rewrite Hmade in Hm. cbn [fst] in Hm. injection Hm as <-.
      destruct (IH _ _ _ _ H) as (H1 & H2 & H3).
      split; [|split].
      * intros c ins Hin. destruct (H1 c ins Hin) as [Hdb|(? & ? & ?)].
        -- apply sdict_set_In in Hdb as [[-> ->]|Hdb]; auto.
           right. split; [now left|]. rewrite Hcat. split; [discriminate|].
           exact Hlinks.
        -- right. split; [now right | auto].
      * intros c Hc. apply H2.
        destruct Hc as [Hk|[[<-|Hin] Hne]]; auto;
          left; apply sdict_set_keys; auto.
      * intros Hnd. apply H3. now apply sdict_set_NoDup.
Qed.

(** When [generate_insights_llm_clustering] returns, [insights_db] has one
    key for each listed category that has at least one post and no other
    key; every insight under a key carries that category, links posts of
    that category only, and its [cluster_size] is the number of its links.
    Posts whose category is not in the list, the [Uncategorized] ones among
    them, appear under no key. *)
Theorem insights_keyed_by_categories_with_posts :
  forall (posts : list post) (categories : list string) (min_cluster_size : Z)
         (w : world) (insights_db : list (string * list insight)) (w' : world),
    generate_insights_llm_clustering json_loads py_int posts categories
      min_cluster_size w = (Ok insights_db, w') ->
    (forall cat, In cat (dict_keys insights_db) <->
                 In cat categories /\ posts_of_category cat posts <> []) /\
    NoDup (dict_keys insights_db) /\
    (forall cat insights, In (cat, insights) insights_db ->
       Forall (links_within cat (posts_of_category cat posts)) insights).
Proof.
  intros posts categories m w db w' H.
  unfold generate_insights_llm_clustering in H.
  destruct (categories_loop_spec _ _ _ _ _ _ _ H) as (H1 & H2 & H3).
  split; [|split].
  - intros cat. split.
    + intros Hk. unfold dict_keys in Hk. apply in_map_iff in Hk as ([c ins] & <- & Hin).
      destruct (H1 c ins Hin) as [[]|(? & ? & ?)]. auto.
    + intros Hc. apply H2. now right.
  - apply H3. constructor.
  - intros cat ins Hin. destruct (H1 cat ins Hin) as [[]|(_ & _ & ?)]. assumption.
Qed.

Lemma categories_loop_total posts m todo :
  (forall cat, In cat todo -> List.length (posts_of_category cat posts) <> 1%nat) ->
  forall db w, exists out,
    fst (categories_loop json_loads py_int posts m todo db w) = Ok out.
Proof.
  induction todo as [|cat rest IH]; intros Hno db w; cbn [categories_loop].
  - now exists db.
  - assert (Hrest : forall c, In c rest ->
              List.length (posts_of_category c posts) <> 1%nat)
      by (intros c Hc; apply Hno; now right).
    pose proof (Hno cat (or_introl eq_refl)) as Hcat.
    destruct (posts_of_category cat posts) as [|p [|p' cat_posts]].
    + now apply IH.
    + now contradiction Hcat.
    + unfold bind.
      destruct (category_insights_spec cat (p :: p' :: cat_posts) m w)
        as (made & Hm & _).
      destruct (category_insights json_loads py_int cat (p :: p' :: cat_posts) m w)
        as [r w1]. cbn [fst] in Hm. subst r. now apply IH.
Qed.

(** Only a category with exactly one post can make
    [generate_insights_llm_clustering] raise: its request is made outside
    every [try].  With no such category the function returns, whatever the
    oracle does. *)
Theorem insights_total_without_single_post_category :
  forall (posts : list post) (categories : list string) (min_cluster_size : Z)
         (w : world),
    (forall cat, In cat categories ->
       List.length (posts_of_category cat posts) <> 1%nat) ->
    exists insights_db,
      fst (generate_insights_llm_clustering json_loads py_int posts categories
             min_cluster_size w) = Ok insights_db.
Proof.
  intros posts categories m w Hno. unfold generate_insights_llm_clustering.
  now apply categories_loop_total.
Qed.

End InsightStage.

Section SilentFacts.
Import PyStr Data Gateway Clustering Insights Pipeline Stages.
Variable json_loads : string -> option json.
Variable py_int : string -> option Z.

Lemma silent_of_within {A} n (c : M A) : within n c -> silent c.
Proof. intros H w. destruct (H w) as (? & ? & _). auto. Qed.

Lemma silent_ret {A} (a : A) : silent (ret a).
Proof. intros w. cbn. auto. Qed.

Lemma silent_raise {A} e : silent (@raise A e).
Proof. intros w. cbn. auto. Qed.

Lemma silent_lift {A} (r : res A) : silent (lift r).
Proof. intros w. cbn. auto. Qed.

Lemma silent_bind {A B} (c : M A) (k : A -> M B) :
  silent c -> (forall a, silent (k a)) -> silent (bind c k).
Proof.
  intros Hc Hk w. unfold bind. destruct (Hc w) as (Ho & Hs).
  destruct (c w) as [[a|e] w1]; cbn [snd] in *; [|auto].
  destruct (Hk a w1) as (Ho' & Hs'). split; congruence.
Qed.

Lemma silent_try {A} (c : M A) (h : exn -> M A) :
  silent c -> (forall e, silent (h e)) -> silent (try_except c h).
Proof.
  intros Hc Hh w. unfold try_except. destruct (Hc w) as (Ho & Hs).
  destruct (c w) as [[a|e] w1]; cbn [snd] in *; [auto|].
  destruct (Hh e w1) as (Ho' & Hs'). split; congruence.
Qed.

Lemma silent_ask : silent ask.
Proof. exact (silent_of_within 3 _ within_ask). Qed.

Lemma silent_sample posts m : silent (_cluster_initial_sample json_loads posts m).
Proof.
  unfold _cluster_initial_sample. apply silent_bind; [apply silent_ask|].
  intros result. destruct (json_loads (unfence result));
    [apply silent_lift | apply silent_raise].
Qed.

Lemma silent_themes posts todo :
  forall acc, silent (themes_loop posts todo acc).
Proof.
  induction todo as [|[k indices] rest IH]; intros acc; cbn [themes_loop].
  - apply silent_ret.
  - apply silent_bind; [apply silent_lift|]. intros _.
    apply silent_bind; [apply silent_ask|]. intros theme. apply IH.
Qed.

Lemma silent_assign_batch batch batch_start c :
  silent (assign_batch py_int batch batch_start c).
Proof.
  intros w. unfold assign_batch. destruct (silent_ask w) as (Ho & Hs).
  destruct (ask w) as [[result|e] w1]; cbn [snd] in *; [|auto].
  destruct (assign_parsed py_int (lines_of result) c
              (batch_indices batch_start batch)) as [c' [e|]]; auto.
Qed.

Lemma silent_assign_loop posts start_idx batch_size fuel :
  forall done c, silent (assign_loop py_int fuel posts start_idx batch_size done c).
Proof.
  induction fuel as [|fuel IH]; intros done c; cbn [assign_loop].
  - apply silent_ret.
  - destruct (skipn done posts); [apply silent_ret|].
    apply silent_bind; [apply silent_assign_batch|]. intros c'. apply IH.
Qed.

Lemma silent_assign posts themes c start_idx batch_size :
  silent (_assign_posts_to_clusters py_int posts themes c start_idx batch_size).
Proof.
  unfold _assign_posts_to_clusters. destruct batch_size.
  - apply silent_raise.
  - apply silent_assign_loop.
Qed.

Lemma silent_cluster posts m : silent (llm_cluster_posts json_loads py_int posts m).
Proof.
  unfold llm_cluster_posts. apply silent_bind; [|intros r; apply silent_ret].
  unfold llm_cluster_posts_from.
  destruct (List.length posts <=? INITIAL_SAMPLE_SIZE)%nat.
  - apply silent_try; [|intros e; apply silent_ret].
    apply silent_bind; [apply silent_sample | intros c; apply silent_ret].
  - apply silent_try; [|intros e; apply silent_ret].
    apply silent_bind; [apply silent_sample|]. intros [|kv c]; [apply silent_ret|].
    apply silent_bind; [apply silent_themes|]. intros themes.
    apply silent_bind; [|intros c'; apply silent_ret].
    destruct (skipn INITIAL_SAMPLE_SIZE posts); [apply silent_ret | apply silent_assign].
Qed.

Lemma silent_clusters_loop cat cat_posts m todo :
  forall acc, silent (clusters_loop cat cat_posts m todo acc).
Proof.
  induction todo as [|[k indices] rest IH]; intros acc; cbn [clusters_loop].
  - apply silent_ret.
  - apply silent_bind; [apply silent_lift|]. intros ps.
    destruct (Z.of_nat (List.length ps) <? m); [apply IH|].
    apply silent_bind; [apply silent_ask|]. intros text. apply IH.
Qed.

Lemma silent_category_insights cat cat_posts m :
  silent (category_insights json_loads py_int cat cat_posts m).
Proof.
  unfold category_insights. apply silent_try.
  - unfold clustered_insights. apply silent_bind; [apply silent_cluster|].
    intros clusters. unfold insights_of_clusters.
    apply silent_bind; [apply silent_clusters_loop|].
    intros [|i made]; [|apply silent_ret].
    apply silent_bind; [apply silent_ask | intros text; apply silent_ret].
  - intros _. apply silent_try; [|intros _; apply silent_ret].
    apply silent_bind; [apply silent_ask | intros text; apply silent_ret].
Qed.

Lemma silent_categories_loop posts m todo :
  forall db, silent (categories_loop json_loads py_int posts m todo db).
Proof.
  induction todo as [|cat rest IH]; intros db; cbn [categories_loop].
  - apply silent_ret.
  - destruct (posts_of_category cat posts) as [|p [|p' ps]].
    + apply IH.
    + apply silent_bind; [apply silent_ask | intros text; apply IH].
    + apply silent_bind; [apply silent_category_insights | intros made; apply IH].
Qed.

Lemma silent_insights posts categories m :
  silent (generate_insights_llm_clustering json_loads py_int posts categories m).
Proof. apply silent_categories_loop. Qed.

End SilentFacts.

Section WholeRun.
Import PyStr Data Gateway Clustering Insights Pipeline Stages.
Local Open Scope string_scope.
Variable json_loads : string -> option json.
Variable py_int : string -> option Z.

Lemma summarized_transfer (l l' : list post) :
  map summary l' = map summary l -> map sentiment l' = map sentiment l ->
  Forall summarized l -> Forall summarized l'.
Proof.
  revert l'. induction l as [|p l IH]; intros [|p' l'] Hs Hl HF;
    try discriminate; [constructor|].
  cbn in Hs, Hl. injection Hs as Hs1 Hs2. injection Hl as Hl1 Hl2.
  inversion HF as [|? ? (s & lab & H1 & H2 & H3) HF']; subst.
  constructor; [|now apply IH].
  exists s, lab. repeat split; congruence.
Qed.

Lemma run_pipeline_nonempty p0 posts0 m w :
  run_pipeline json_loads py_int (Ok (p0 :: posts0)) m w
  = try_except
      (summarized <- summarize_posts (p0 :: posts0) ;;
       categorized <- categorize_posts py_int summarized FIXED_CATEGORIES ;;
       insights <- generate_insights_llm_clustering json_loads py_int
                     categorized FIXED_CATEGORIES m ;;
       save_outputs (categorized, insights))%py
      (fun e => raise e) w.
Proof. reflexivity. Qed.

(** A run on a non-empty scrape hands exactly one aggregate to the
    persistence layer, at its very end, or none at all when it raises.  The
    aggregate holds every scraped post, in order, with summary, sentiment
    and category set, and insights that are keyed by fixed categories and
    link saved posts of their own category only. *)
Theorem run_pipeline_saves_once_or_raises :
  forall (posts : list post) (min_cluster_size : Z) (w : world),
    posts <> [] ->
    let out := run_pipeline json_loads py_int (Ok posts) min_cluster_size w in
    (exists categorized_posts insights,
        fst out = Ok tt /\
        saved (snd out) = (saved w ++ [(categorized_posts, insights)])%list /\
        map id categorized_posts = map id posts /\
        map title categorized_posts = map title posts /\
        Forall summarized categorized_posts /\
        Forall (categorized FIXED_CATEGORIES) categorized_posts /\
        forall cat made, In (cat, made) insights ->
          In cat FIXED_CATEGORIES /\
          Forall (links_within cat (posts_of_category cat categorized_posts)) made)
    \/ (exists e, fst out = Raise e /\ saved (snd out) = saved w).
Proof.
  intros posts m w Hne out.
  destruct posts as [|p0 posts0]; [contradiction|].
  assert (Hrun : out = run_pipeline json_loads py_int (Ok (p0 :: posts0)) m w)
    by reflexivity.
  clearbody out. unfold run_pipeline, try_except in Hrun.
  unfold bind at 1 in Hrun. unfold lift in Hrun. cbv beta iota in Hrun.
  remember (p0 :: posts0) as posts eqn:Hposts.
  destruct (summarize_posts_shape posts w) as (s & Hs & Hsi & Hst & _ & Hss & Hsv).
  unfold bind at 1 in Hrun. destruct (summarize_posts posts w) as [r1 w1].
  cbn [fst snd] in Hs, Hsv. subst r1.
  destruct (categorize_posts_shape py_int s FIXED_CATEGORIES w1)
    as (c & Hc & Hci & Hct & Hcs & Hcl & Hcc & Hcv).
  unfold bind at 1 in Hrun.
  destruct (categorize_posts py_int s FIXED_CATEGORIES w1) as [r2 w2].
  cbn [fst snd] in Hc, Hcv. subst r2.
  pose proof (silent_insights json_loads py_int c FIXED_CATEGORIES m w2) as [_ Hiv].
  unfold bind in Hrun.
  destruct (generate_insights_llm_clustering json_loads py_int c FIXED_CATEGORIES m w2)
    as [[db|e] w3] eqn:Hgen; cbn [fst snd] in *.
  - left. exists c, db. unfold save_outputs in Hrun. subst out. cbn [fst snd saved].
    split; [reflexivity|]. split; [now rewrite Hiv, Hcv, Hsv|].
    split; [congruence|]. split; [congruence|].
    split; [eapply summarized_transfer; eauto|]. split; [exact Hcc|].
    intros cat made Hin. unfold generate_insights_llm_clustering in Hgen.
    destruct (categories_loop_spec _ _ _ _ _ _ _ _ _ Hgen) as (H1 & _ & _).
    destruct (H1 cat made Hin) as [[]|(? & _ & ?)]. auto.
  - right. exists e. unfold raise in Hrun. subst out. cbn.
    split; [reflexivity | congruence].
Qed.

Lemma ask_three_failures w :
  (forall j, (j < 3)%nat -> failed_at w (calls w + j)) ->
  exists e w', ask w = (Raise e, w') /\
               oracle w' = oracle w /\ saved w' = saved w /\
               calls w' = (calls w + 3)%nat.
Proof.
  intros Hdead.
  destruct (Hdead 2%nat ltac:(lia)) as [e He].
  destruct (retry_loop_spec 3 3 3%nat 0%nat w ltac:(lia)
              ltac:(vm_compute; discriminate) eq_refl)
    as (Ho & Hs & _ & _ & Hex).
  destruct (Hex e ltac:(lia) Hdead He) as (Hr & Hc & _).
  unfold ask, bind, safe_llm_call.
  change (range 3) with (map Z.of_nat (seq 0 3)).
  destruct (retry_loop call 3 3 (map Z.of_nat (seq 0 3)) w) as [r w1].
  cbn [fst snd] in *. subst r. exists e, w1. auto.
Qed.

Lemma ask_dead w :
  (forall n, failed_at w n) ->
  exists e w', ask w = (Raise e, w') /\
               oracle w' = oracle w /\ saved w' = saved w /\
               calls w' = (calls w + 3)%nat.
Proof. intros Hdead. apply ask_three_failures. intros j _. apply Hdead. Qed.

(** The request for a category with exactly one post is made outside
    every [try]: when its three attempts fail, the exception leaves
    [generate_insights_llm_clustering], whatever categories follow. *)
Theorem single_post_category_failure_escapes :
  forall (posts : list post) (skipped : list string) (cat : string)
         (rest : list string) (min_cluster_size : Z) (w : world) (p : post),
    (forall c, In c skipped -> posts_of_category c posts = []) ->
    posts_of_category cat posts = [p] ->
    (forall j, (j < 3)%nat -> failed_at w (calls w + j)) ->
    exists e,
      fst (generate_insights_llm_clustering json_loads py_int posts
             (skipped ++ cat :: rest) min_cluster_size w) = Raise e.
Proof.
  intros posts skipped cat rest m w p Hskip Hcat Hfail.
  unfold generate_insights_llm_clustering. generalize (@nil (string * list insight)).
  induction skipped as [|c skipped IH]; intros db; cbn [app categories_loop].
  - rewrite Hcat. unfold bind, generate_single_insight.
    destruct (ask_three_failures w Hfail) as (e & w1 & -> & _). now exists e.
  - rewrite (Hskip c (or_introl eq_refl)). apply IH.
    intros c' Hc'. apply Hskip. now right.
Qed.

Lemma still_dead w w' :
  oracle w' = oracle w -> (forall n, failed_at w n) -> forall n, failed_at w' n.
Proof. intros Ho Hdead n. unfold failed_at. rewrite Ho. apply Hdead. Qed.

Lemma summarize_batches_dead todo :
  forall acc w, (forall n, failed_at w n) ->
  exists w',
    summarize_batches todo acc w
    = (Ok (acc ++ map (fun p => with_summary p (title p, "neutral"))
                      (List.concat todo))%list, w') /\
    oracle w' = oracle w /\ saved w' = saved w /\
    calls w' = (calls w + 3 * List.length todo)%nat.
Proof.
  induction todo as [|batch rest IH]; intros acc w Hdead;
    cbn [summarize_batches List.concat List.length].
  - exists w. cbn. rewrite app_nil_r. repeat split; lia.
  - destruct (ask_dead w Hdead) as (e & w1 & Hask & Ho & Hs & Hc).
    destruct (IH (acc ++ map (fun p => with_summary p (title p, "neutral")) batch)%list
                 w1 (still_dead _ _ Ho Hdead)) as (w2 & H1 & H2 & H3 & H4).
    exists w2. unfold bind at 1.
    unfold summarize_one_batch, try_except, Summarize.summarize_batch.
    unfold bind at 1. unfold bind at 1. rewrite Hask. cbn [ret].
    rewrite H1, map_app, app_assoc. split; [reflexivity|].
    repeat split; try congruence. lia.
Qed.

Lemma categorize_batches_dead categories todo :
  forall acc w, (forall n, failed_at w n) ->
  exists w',
    categorize_batches py_int categories todo acc w
    = (Ok (acc ++ map (fun p => with_category p "Uncategorized")
                      (List.concat todo))%list, w') /\
    oracle w' = oracle w /\ saved w' = saved w /\
    calls w' = (calls w + 3 * List.length todo)%nat.
Proof.
  induction todo as [|batch rest IH]; intros acc w Hdead;
    cbn [categorize_batches List.concat List.length].
  - exists w. cbn. rewrite app_nil_r. repeat split; lia.
  - destruct (ask_dead w Hdead) as (e & w1 & Hask & Ho & Hs & Hc).
    destruct (IH (acc ++ map (fun p => with_category p "Uncategorized") batch)%list
                 w1 (still_dead _ _ Ho Hdead)) as (w2 & H1 & H2 & H3 & H4).
    exists w2. unfold bind at 1.
    unfold categorize_one_batch, try_except, Categorize.categorize_batch.
    unfold bind at 1. unfold bind at 1. rewrite Hask. cbn [ret].
    rewrite H1, map_app, app_assoc. split; [reflexivity|].
    repeat split; try congruence. lia.
Qed.

Lemma no_posts_of_fixed_category cat (l : list post) :
  cat <> "Uncategorized" ->
  posts_of_category cat (map degraded l) = [].
Proof.
  intros Hne. unfold posts_of_category.
  induction l as [|p l IH]; [reflexivity|]. cbn [map filter degraded category].
  destruct (String.eqb_spec "Uncategorized" cat); [congruence | exact IH].
Qed.

(** With the oracle down for the whole run, [run_pipeline] still returns
    normally: six failed requests per batch of ten posts, then one
    aggregate saved in which every post has its title for summary, the
    label [neutral] and the category [Uncategorized], and no category has
    an insight. *)
Theorem dead_oracle_run_saves_degraded_posts :
  forall (posts : list post) (min_cluster_size : Z) (w : world),
    posts <> [] ->
    (forall n, failed_at w n) ->
    let out := run_pipeline json_loads py_int (Ok posts) min_cluster_size w in
    fst out = Ok tt /\
    saved (snd out) = (saved w ++ [(map degraded posts, [])])%list /\
    calls (snd out)
    = (calls w + 6 * batch_count (List.length posts) BATCH_SIZE)%nat.
Proof.
  intros posts m w Hne Hdead out. subst out.
  destruct posts as [|p0 posts0]; [contradiction|].
  rewrite run_pipeline_nonempty. remember (p0 :: posts0) as posts eqn:Hposts.
  destruct (summarize_batches_dead (batches (List.length posts) BATCH_SIZE posts)
              [] w Hdead) as (w1 & H1 & Ho1 & Hs1 & Hc1).
  rewrite batches_concat in H1 by (unfold BATCH_SIZE; lia).
  rewrite batches_length in Hc1 by (unfold BATCH_SIZE; lia).
  remember (map (fun p => with_summary p (title p, "neutral")) posts) as s eqn:Hs.
  destruct (categorize_batches_dead FIXED_CATEGORIES
              (batches (List.length s) BATCH_SIZE s) [] w1
              (still_dead _ _ Ho1 Hdead))
    as (w2 & H2 & Ho2 & Hs2 & Hc2).
  rewrite batches_concat in H2 by (unfold BATCH_SIZE; lia).
  rewrite batches_length in Hc2 by (unfold BATCH_SIZE; lia).
  assert (Hdeg : map (fun p => with_category p "Uncategorized") s = map degraded posts).
  { rewrite Hs, map_map. reflexivity. }
  rewrite Hdeg in H2. cbn [app] in H1, H2.
  unfold try_except, bind. unfold summarize_posts. rewrite H1.
  unfold categorize_posts. rewrite H2.
  unfold generate_insights_llm_clustering, FIXED_CATEGORIES.
  cbn [categories_loop].
  rewrite !no_posts_of_fixed_category by discriminate.
  unfold ret, save_outputs. cbn [fst snd saved calls].
  split; [reflexivity|]. split; [now rewrite Hs2, Hs1|].
  rewrite Hc2, Hc1, Hs, length_map. lia.
Qed.

End WholeRun.

Section StageExamples.
Import PyStr Data Gateway Clustering Insights Pipeline Stages Samples.
Local Open Scope string_scope.

(** Two posts of [Cat A], none of [Cat B]: one key, one insight over both
    posts. *)
Lemma insights_keyed_by_categories_with_posts_witness :
  let posts := sample_posts "Cat A" 2 in
  let db := [("Cat A", [Insight "cat _01" "Cat A" "text" ["p0"; "p1"] 2])] in
  fst (generate_insights_llm_clustering loads_index_arrays int_dec posts
         ["Cat A"; "Cat B"] 2 (start [Reply "[[0,1]]"; Reply "text"]))
  = Ok db
  /\ (In "Cat B" (dict_keys db) <->
      In "Cat B" ["Cat A"; "Cat B"] /\ posts_of_category "Cat B" posts <> [])
  /\ NoDup (dict_keys db).
Proof.
  cbv zeta. split; [reflexivity|].
  pose proof (insights_keyed_by_categories_with_posts loads_index_arrays int_dec
                (sample_posts "Cat A" 2) ["Cat A"; "Cat B"] 2
                (start [Reply "[[0,1]]"; Reply "text"])
                [("Cat A", [Insight "cat _01" "Cat A" "text" ["p0"; "p1"] 2])]
                (snd (generate_insights_llm_clustering loads_index_arrays int_dec
                        (sample_posts "Cat A" 2) ["Cat A"; "Cat B"] 2
                        (start [Reply "[[0,1]]"; Reply "text"])))
                eq_refl) as (Hkeys & Hnd & _).
  split; [apply Hkeys | exact Hnd].
Defined.

(** Two posts in the only category: no single-post category. *)
Lemma insights_total_without_single_post_category_witness :
  exists insights_db,
    fst (generate_insights_llm_clustering loads_index_arrays int_dec
           (sample_posts "Cat A" 2) ["Cat A"] 2 (start [])) = Ok insights_db.
Proof.
  apply insights_total_without_single_post_category.
  intros cat [<-|[]]. vm_compute. discriminate.
Defined.

(** One post in the first category that has any, and a dead oracle. *)
Lemma single_post_category_failure_escapes_witness :
  exists e,
    fst (generate_insights_llm_clustering loads_index_arrays int_dec
           (sample_posts "Cat A" 1) (["Cat B"] ++ "Cat A" :: ["Cat C"]) 2
           (start [])) = Raise e.
Proof.
  apply (single_post_category_failure_escapes loads_index_arrays int_dec
           (sample_posts "Cat A" 1) ["Cat B"] "Cat A" ["Cat C"] 2 (start [])
           (sample_post "Cat A" 0)).
  - intros c [<-|[]]. reflexivity.
  - reflexivity.
  - intros j _. exists (OracleError "no answer").
    unfold start, scripted. cbn [oracle calls Nat.add]. destruct j; reflexivity.
Defined.

(** Three posts and a dead oracle: the run returns and saves them
    degraded, after six requests. *)
Lemma dead_oracle_run_saves_degraded_posts_witness :
  let posts := sample_posts "Cat A" 3 in
  let out := run_pipeline loads_index_arrays int_dec (Ok posts) 3 (start []) in
  fst out = Ok tt /\
  saved (snd out) = [(map degraded posts, [])] /\
  calls (snd out) = 6%nat.
Proof.
  cbv zeta.
  apply (dead_oracle_run_saves_degraded_posts loads_index_arrays int_dec
           (sample_posts "Cat A" 3) 3 (start [])).
  - discriminate.
  - intros n. exists (OracleError "no answer").
    unfold start, scripted. cbn [oracle]. destruct n; reflexivity.
Defined.

(** Three posts: the run ends one way or the other. *)
Lemma run_pipeline_saves_once_or_raises_witness :
  let out := run_pipeline loads_index_arrays int_dec
               (Ok (sample_posts "Cat A" 3)) 3 (start []) in
  (exists categorized_posts insights,
      fst out = Ok tt /\
      saved (snd out) = [(categorized_posts, insights)] /\
      map id categorized_posts = ["p0"; "p1"; "p2"] /\
      map title categorized_posts = ["title 0"; "title 1"; "title 2"] /\
      Forall summarized categorized_posts /\
      Forall (categorized FIXED_CATEGORIES) categorized_posts /\
      forall cat made, In (cat, made) insights ->
        In cat FIXED_CATEGORIES /\
        Forall (links_within cat (posts_of_category cat categorized_posts)) made)
  \/ (exists e, fst out = Raise e /\ saved (snd out) = []).
Proof.
  cbv zeta.
  apply (run_pipeline_saves_once_or_raises loads_index_arrays int_dec
           (sample_posts "Cat A" 3) 3 (start [])).
  discriminate.
Defined.

End StageExamples.

Section AssignTotal.
Import PyStr Data Gateway Clustering Spec Stages.
Variable py_int : string -> option Z.

Lemma ids_nonempty (c c' : cluster_map) : ids c' = ids c -> c <> [] -> c' <> [].
Proof. destruct c, c'; cbn; congruence. Qed.

Lemma assign_post_total lines (c : cluster_map) post_idx :
  c <> [] ->
  exists c', assign_post py_int lines c post_idx = Ok c' /\ ids c' = ids c.
Proof.
  intros Hne. unfold assign_post.
  destruct (scan_lines py_int post_idx c lines) as [c1|] eqn:Hs.
  - exists c1. split; [reflexivity|].
    destruct (scan_lines_Some _ _ _ _ _ Hs) as (k & _ & ->). apply ids_append.
  - destruct (largest_nonempty c Hne) as [k ->]. eexists. split; [reflexivity|].
    apply ids_append.
Qed.

Lemma assign_parsed_total lines indices :
  forall c : cluster_map, c <> [] ->
    exists c', assign_parsed py_int lines c indices = (c', None) /\ ids c' = ids c.
Proof.
  induction indices as [|i indices IH]; intros c Hne; cbn [assign_parsed].
  - now exists c.
  - destruct (assign_post_total lines c i Hne) as (c1 & -> & Hids).
    destruct (IH c1 (ids_nonempty _ _ Hids Hne)) as (c' & -> & Hids').
    exists c'. split; [reflexivity | congruence].
Qed.

Lemma fold_append_ids k indices :
  forall c : cluster_map,
    ids (fold_left (fun c i => append k (PInt i) c) indices c) = ids c.
Proof.
  induction indices as [|i indices IH]; intros c; cbn [fold_left]; [reflexivity|].
  now rewrite IH, ids_append.
Qed.

Lemma assign_batch_total batch batch_start (c : cluster_map) w :
  c <> [] ->
  exists c', fst (assign_batch py_int batch batch_start c w) = Ok c' /\
             ids c' = ids c.
Proof.
  intros Hne. unfold assign_batch. destruct (ask w) as [[result|e] w1].
  - destruct (assign_parsed_total (lines_of result)
                (batch_indices batch_start batch) c Hne) as (c' & -> & Hids).
    now exists c'.
  - unfold assign_all_to_largest. destruct (largest_nonempty c Hne) as [k ->].
    eexists. split; [reflexivity | apply fold_append_ids].
Qed.

Lemma assign_loop_total posts start_idx batch_size fuel :
  forall done (c : cluster_map) w, c <> [] ->
    exists c', fst (assign_loop py_int fuel posts start_idx batch_size done c w)
               = Ok c' /\ ids c' = ids c.
Proof.
  induction fuel as [|fuel IH]; intros done c w Hne; cbn [assign_loop].
  - now exists c.
  - destruct (skipn done posts) as [|p todo]; [now exists c|].
    unfold bind.
    destruct (assign_batch_total (firstn batch_size (p :: todo))
                (start_idx + Z.of_nat done) c w Hne) as (c1 & H1 & Hids).
    destruct (assign_batch py_int (firstn batch_size (p :: todo))
                (start_idx + Z.of_nat done) c w) as [r w1].
    cbn [fst] in H1. subst r.
    destruct (IH (done + batch_size)%nat c1 w1 (ids_nonempty _ _ Hids Hne))
      as (c' & H' & Hids').
    exists c'. split; [exact H' | congruence].
Qed.

Lemma scan_lines_empty post_idx lines :
  scan_lines py_int post_idx [] lines = None.
Proof.
  induction lines as [|l lines IH]; cbn [scan_lines]; [reflexivity|].
  destruct (contains (tag_of post_idx) l); [|exact IH].
  destruct (cluster_number py_int l); exact IH.
Qed.

Lemma assign_batch_empty p batch batch_start w :
  fst (assign_batch py_int (p :: batch) batch_start [] w) = Raise ValueError.
Proof.
  unfold assign_batch. destruct (ask w) as [[result|e] w1]; [|reflexivity].
  unfold batch_indices. cbn [List.length seq map assign_parsed].
  unfold assign_post. rewrite scan_lines_empty. reflexivity.
Qed.

(** Phase 3 on a non-empty cluster map never raises, whatever the oracle
    answers or fails to answer: it adds no cluster, drops none, and puts
    each remaining post, under its absolute index, into exactly one
    cluster.  On an empty map it raises [ValueError] at the first post, from
    [max] over no key; a zero [batch_size] raises [ValueError] from
    [range]. *)
Theorem assign_posts_total_on_nonempty_map :
  forall (posts : list post) (cluster_themes : list (Z * string))
         (clusters : cluster_map) (start_idx : Z) (batch_size : nat) (w : world),
    Forall (fun p => summary p <> None) posts ->
    let run c bs := _assign_posts_to_clusters py_int posts cluster_themes c
                      start_idx bs w in
    (clusters <> [] -> (1 <= batch_size)%nat ->
     exists clusters',
       fst (run clusters batch_size) = Ok clusters' /\
       ids clusters' = ids clusters /\
       Permutation (all_members clusters')
         (all_members clusters
          ++ map PInt (span start_idx (List.length posts)))) /\
    (posts <> [] -> (1 <= batch_size)%nat ->
     fst (run [] batch_size) = Raise ValueError) /\
    (posts <> [] -> fst (run clusters 0%nat) = Raise ValueError).
Proof.
  intros posts themes c start_idx batch_size w _ run. subst run. cbv beta.
  split; [|split].
  - intros Hne Hbs. unfold _assign_posts_to_clusters.
    destruct batch_size as [|bs]; [lia|].
    destruct (assign_loop_total posts start_idx (S bs) (List.length posts)
                0%nat c w Hne) as (c' & H & Hids).
    exists c'. split; [exact H|]. split; [exact Hids|].
    destruct (assign_loop py_int (List.length posts) posts start_idx (S bs) 0 c w)
      as [r w'] eqn:Hrun. cbn [fst] in H. subst r.
    apply (assign_posts_perm py_int posts themes c c' start_idx (S bs) w w').
    exact Hrun.
  - intros Hposts Hbs. unfold _assign_posts_to_clusters.
    destruct batch_size as [|bs]; [lia|].
    destruct posts as [|p posts]; [contradiction|].
    cbn [List.length assign_loop skipn firstn]. unfold bind.
    pose proof (assign_batch_empty p (firstn bs posts) (start_idx + Z.of_nat 0) w)
      as H.
    destruct (assign_batch py_int (p :: firstn bs posts)
                (start_idx + Z.of_nat 0) [] w) as [r w1].
    cbn [fst] in H. now subst r.
  - intros Hposts. unfold _assign_posts_to_clusters.
    destruct posts; [contradiction | reflexivity].
Qed.

End AssignTotal.

Section AssignTotalExamples.
Import PyStr Data Gateway Clustering Spec Stages Samples.
Local Open Scope string_scope.

(** Two remaining posts, two clusters, and a reply that places the first
    and says nothing usable about the second. *)
Lemma assign_posts_total_on_nonempty_map_witness :
  let posts := sample_posts "c" 2 in
  let clusters := [(0, [PInt 0; PInt 1]); (1, [PInt 2])] in
  let w := start [Reply ("POST_3: 1" ++ newline ++ "POST_4: 7")] in
  fst (_assign_posts_to_clusters int_dec posts [] clusters 3 30 w)
  = Ok [(0, [PInt 0; PInt 1; PInt 4]); (1, [PInt 2; PInt 3])]
  /\ fst (_assign_posts_to_clusters int_dec posts [] [] 3 30 w) = Raise ValueError
  /\ fst (_assign_posts_to_clusters int_dec posts [] clusters 3 0 w)
     = Raise ValueError.
Proof.
  cbv zeta.
  destruct (assign_posts_total_on_nonempty_map int_dec (sample_posts "c" 2) []
              [(0, [PInt 0; PInt 1]); (1, [PInt 2])] 3 30
              (start [Reply ("POST_3: 1" ++ newline ++ "POST_4: 7")]))
    as (_ & Hempty & Hzero).
  - repeat constructor; discriminate.
  - split; [reflexivity|]. split.
    + apply Hempty; [discriminate | lia].
    + apply Hzero. discriminate.
Defined.

End AssignTotalExamples.

Section SortAnyKey.
Import Scrape.
Context {A K : Type} (ltb : K -> K -> bool) (key : A -> K).

Lemma insert_desc_perm x l :
  Permutation (insert_desc ltb key x l) (x :: l).
Proof.
  induction l as [|h t IH]; cbn [insert_desc]; [reflexivity|].
  destruct (ltb (key x) (key h)); [|reflexivity].
  rewrite IH. apply perm_swap.
Qed.

Lemma sort_desc_perm l : Permutation (sort_desc ltb key l) l.
Proof.
  unfold sort_desc. induction l as [|h t IH]; cbn [fold_right]; [reflexivity|].
  now rewrite insert_desc_perm, IH.
Qed.

End SortAnyKey.

Section SortFacts.
Import Scrape.
Context {A : Type} (key : A -> Z).

Lemma insert_desc_sorted x l :
  StronglySorted (descending key) l ->
  StronglySorted (descending key) (insert_desc Z.ltb key x l).
Proof.
  induction 1 as [|h t Hs IH Hh]; cbn [insert_desc].
  - repeat constructor.
  - destruct (Z.ltb_spec (key x) (key h)) as [Hlt|Hge].
    + constructor; [exact IH|].
      apply Forall_forall. intros y Hy.
      apply (Permutation_in _ (insert_desc_perm Z.ltb key x t)) in Hy as [<-|Hy].
      * unfold descending. lia.
      * exact (proj1 (Forall_forall _ _) Hh y Hy).
    + constructor; [now constructor|].
      constructor; [exact Hge|].
      eapply Forall_impl; [|exact Hh]. unfold descending. intros; lia.
Qed.

Lemma sort_desc_sorted l : StronglySorted (descending key) (sort_desc Z.ltb key l).
Proof.
  unfold sort_desc. induction l as [|h t IH]; cbn [fold_right];
    [constructor | now apply insert_desc_sorted].
Qed.

Lemma sorted_app_order (R : A -> A -> Prop) l1 l2 :
  StronglySorted R (l1 ++ l2) ->
  forall a b, In a l1 -> In b l2 -> R a b.
Proof.
  induction l1 as [|h t IH]; cbn [app]; [intros _ a b []|].
  intros Hs a b [<-|Ha] Hb; inversion Hs as [|? ? Hs' Hall]; subst.
  - apply (proj1 (Forall_forall _ _) Hall). apply in_or_app. now right.
  - now apply IH.
Qed.

End SortFacts.

Section TakeFacts.
Import Scrape.
Context {A : Type}.

Lemma firstn_incl n (l : list A) : incl (firstn n l) l.
Proof.
  intros x Hx. rewrite <- (firstn_skipn n l). apply in_or_app. now left.
Qed.

Lemma py_take_incl n (l : list A) : incl (py_take n l) l.
Proof. unfold py_take. destruct (0 <=? n); apply firstn_incl. Qed.

Lemma py_take_length n (l : list A) :
  0 <= n ->
  List.length (py_take n l) = Nat.min (Z.to_nat n) (List.length l).
Proof.
  intros Hn. unfold py_take. destruct (Z.leb_spec 0 n); [|lia].
  apply length_firstn.
Qed.

End TakeFacts.

Section SelectFacts.
Import Scrape.

(** The selection of a slice keeps the [per_slice] highest scores: its
    length is [min(per_slice, len(slice_posts))], it is made of posts of the
    slice, each as often as the slice has it, and no post left out scores
    higher than a post that is kept. *)
Theorem select_top_keeps_highest_scores :
  forall (per_slice : Z) (slice_posts : list scraped),
    0 <= per_slice ->
    let selected := select_top per_slice slice_posts in
    List.length selected
    = Nat.min (Z.to_nat per_slice) (List.length slice_posts) /\
    exists dropped,
      Permutation (selected ++ dropped) slice_posts /\
      forall p q, In p selected -> In q dropped -> score q <= score p.
Proof.
  intros n l Hn selected. subst selected. unfold select_top. split.
  - rewrite py_take_length by exact Hn.
    now rewrite (Permutation_length (sort_desc_perm Z.ltb score l)).
  - unfold py_take. destruct (Z.leb_spec 0 n); [|lia].
    exists (skipn (Z.to_nat n) (sort_desc Z.ltb score l)). split.
    + rewrite firstn_skipn. apply sort_desc_perm.
    + intros p q Hp Hq.
      refine (sorted_app_order (descending score) _ _ _ p q Hp Hq).
      rewrite firstn_skipn. apply sort_desc_sorted.
Qed.

End SelectFacts.

Section ScrapeFacts.
Import PyStr Clustering Scrape.
Variable fromtimestamp : pynum -> option string.

Lemma post_of_fields subm p :
  post_of fromtimestamp subm = Some p ->
  id p = subm_id subm /\ score p = subm_score subm /\
  created_utc p = subm_created_utc subm.
Proof.
  unfold post_of. destruct (fromtimestamp (subm_created_utc subm)); [|discriminate].
  intros [= <-]. cbn. auto.
Qed.

Lemma scrape_loop_sound cutoff_utc max_posts listing :
  forall acc p,
    In p (scrape_loop fromtimestamp cutoff_utc max_posts listing acc) ->
    In p acc \/
    exists subm t,
      In subm listing /\ post_of fromtimestamp subm = Some p /\
      py_trunc (created_utc p) = Some t /\ cutoff_utc <= t /\
      MIN_SCORE <= score p.
Proof.
  induction listing as [|subm rest IH]; intros acc p; cbn [scrape_loop]; [auto|].
  assert (Hrest : In p acc \/
            (exists s t, In s rest /\ post_of fromtimestamp s = Some p /\
               py_trunc (created_utc p) = Some t /\ cutoff_utc <= t /\
               MIN_SCORE <= score p) ->
          In p acc \/
            (exists s t, In s (subm :: rest) /\ post_of fromtimestamp s = Some p /\
               py_trunc (created_utc p) = Some t /\ cutoff_utc <= t /\
               MIN_SCORE <= score p)).
  { intros [?|(s & t & Hs & ?)]; [now left|]. right. exists s, t.
    split; [now right | assumption]. }
  destruct (py_trunc (subm_created_utc subm)) as [t|] eqn:Ht; [|auto].
  destruct (Z.ltb_spec t cutoff_utc) as [Hold|Hnew]; [auto|].
  destruct (Z.ltb_spec (subm_score subm) MIN_SCORE) as [Hlow|Hscore].
  { intros H. apply Hrest, IH, H. }
  destruct ((0 <? MIN_NUM_COMMENTS)
            && (subm_num_comments subm <? MIN_NUM_COMMENTS)).
  { intros H. apply Hrest, IH, H. }
  destruct (post_of fromtimestamp subm) as [post|] eqn:Hpost; [|auto].
  destruct (post_of_fields _ _ Hpost) as (_ & Hs & Hc).
  assert (Hthis : forall q, In q (acc ++ [post]) ->
            In q acc \/
            (exists s t', In s (subm :: rest) /\ post_of fromtimestamp s = Some q /\
               py_trunc (created_utc q) = Some t' /\ cutoff_utc <= t' /\
               MIN_SCORE <= score q)).
  { intros q Hq. apply in_app_or in Hq as [Hq|[<-|[]]]; [now left|].
    right. exists subm, t. rewrite Hs, Hc. repeat split; auto. now left. }
  destruct (limit_reached max_posts (acc ++ [post])); [apply Hthis|].
  intros H. apply IH in H as [H|H]; [apply Hthis, H | apply Hrest; now right].
Qed.

Lemma scrape_loop_limit cutoff_utc n listing :
  n <> 0 ->
  forall acc,
    Z.of_nat (List.length acc) < Z.max 1 n ->
    Z.of_nat (List.length
                (scrape_loop fromtimestamp cutoff_utc (Some n) listing acc))
    <= Z.max 1 n.
Proof.
  intros Hn. induction listing as [|subm rest IH]; intros acc Hacc;
    cbn [scrape_loop]; [lia|].
  destruct (py_trunc (subm_created_utc subm)) as [t|]; [|lia].
  destruct (t <? cutoff_utc); [lia|].
  destruct (subm_score subm <? MIN_SCORE); [now apply IH|].
  destruct ((0 <? MIN_NUM_COMMENTS)
            && (subm_num_comments subm <? MIN_NUM_COMMENTS)); [now apply IH|].
  destruct (post_of fromtimestamp subm) as [post|]; [|lia].
  assert (Hlen : List.length (acc ++ [post]) = S (List.length acc))
    by (rewrite length_app; cbn; lia).
  unfold limit_reached.
  destruct (Z.eqb_spec n 0); [contradiction|]. cbn [negb andb].
  destruct (Z.leb_spec n (Z.of_nat (List.length (acc ++ [post])))).
  - rewrite Hlen. lia.
  - apply IH. lia.
Qed.

Lemma scrape_loop_stops cutoff_utc max_posts pre old rest t :
  py_trunc (subm_created_utc old) = Some t -> t < cutoff_utc ->
  forall acc,
    scrape_loop fromtimestamp cutoff_utc max_posts (pre ++ old :: rest) acc
    = scrape_loop fromtimestamp cutoff_utc max_posts pre acc.
Proof.
  intros Ht Hold. induction pre as [|subm pre IH]; intros acc;
    cbn [app scrape_loop].
  - rewrite Ht. destruct (Z.ltb_spec t cutoff_utc); [reflexivity | lia].
  - destruct (py_trunc (subm_created_utc subm)); [|reflexivity].
    destruct (_ <? cutoff_utc); [reflexivity|].
    destruct (subm_score subm <? MIN_SCORE); [apply IH|].
    destruct ((0 <? MIN_NUM_COMMENTS)
              && (subm_num_comments subm <? MIN_NUM_COMMENTS)); [apply IH|].
    destruct (post_of fromtimestamp subm); [|reflexivity].
    destruct (limit_reached max_posts _); [reflexivity | apply IH].
Qed.

Lemma scrape_loop_unlimited cutoff_utc max_posts listing :
  max_posts = None \/ max_posts = Some 0 ->
  Forall (fun subm => exists t iso,
            py_trunc (subm_created_utc subm) = Some t /\ cutoff_utc <= t /\
            fromtimestamp (subm_created_utc subm) = Some iso) listing ->
  forall acc,
    map Some (scrape_loop fromtimestamp cutoff_utc max_posts listing acc)
    = map Some acc
      ++ map (post_of fromtimestamp)
             (filter (fun subm => MIN_SCORE <=? subm_score subm) listing).
Proof.
  intros Hmax. induction 1 as [|subm rest (t & iso & Ht & Hnew & Hiso) _ IH];
    intros acc; cbn [scrape_loop filter map].
  - now rewrite app_nil_r.
  - rewrite Ht. destruct (Z.ltb_spec t cutoff_utc); [lia|].
    destruct (Z.ltb_spec (subm_score subm) MIN_SCORE) as [Hlow|Hok].
    + destruct (Z.leb_spec MIN_SCORE (subm_score subm)); [lia|]. apply IH.
    + destruct (Z.leb_spec MIN_SCORE (subm_score subm)); [|lia].
      cbn [andb Z.ltb MIN_NUM_COMMENTS Z.compare].
      assert (Hpost : exists post, post_of fromtimestamp subm = Some post).
      { unfold post_of. rewrite Hiso. eauto. }
      destruct Hpost as [post Hpost]. rewrite Hpost.
      assert (Hlim : limit_reached max_posts (acc ++ [post]) = false)
        by (destruct Hmax as [->| ->]; reflexivity).
      rewrite Hlim, IH, map_app. cbn [map]. now rewrite <- app_assoc, Hpost.
Qed.

(** [scrape_subreddit] returns posts built from listing items that are
    not older than the cut-off and score at least [MIN_SCORE], never more
    than a non-zero [max_posts] of them (one, when [max_posts] is negative).
    It stops at the first item older than the cut-off: whatever the listing
    holds after it is ignored.  With no limit (absent or [0]) and a listing
    of recent items whose dates can all be formatted, it returns exactly the
    items that score at least [MIN_SCORE], in listing order. *)
Theorem scrape_subreddit_filters_and_stops :
  forall (listing : list submission) (cutoff_utc : Z) (max_posts : option Z),
    let posts := scrape_subreddit fromtimestamp listing cutoff_utc max_posts in
    (forall p, In p posts ->
       exists subm t,
         In subm listing /\ post_of fromtimestamp subm = Some p /\
         py_trunc (created_utc p) = Some t /\ cutoff_utc <= t /\
         MIN_SCORE <= score p) /\
    (forall n, max_posts = Some n -> n <> 0 ->
       Z.of_nat (List.length posts) <= Z.max 1 n) /\
    (forall pre old rest t,
       listing = pre ++ old :: rest ->
       py_trunc (subm_created_utc old) = Some t -> t < cutoff_utc ->
       posts = scrape_subreddit fromtimestamp pre cutoff_utc max_posts) /\
    (max_posts = None \/ max_posts = Some 0 ->
     Forall (fun subm => exists t iso,
               py_trunc (subm_created_utc subm) = Some t /\ cutoff_utc <= t /\
               fromtimestamp (subm_created_utc subm) = Some iso) listing ->
     map Some posts
     = map (post_of fromtimestamp)
           (filter (fun subm => MIN_SCORE <=? subm_score subm) listing)).
Proof.
  intros listing cutoff_utc max_posts posts. subst posts. unfold scrape_subreddit.
  split; [|split; [|split]].
  - intros p Hp. apply scrape_loop_sound in Hp as [[]|H]. exact H.
  - intros n -> Hn. apply scrape_loop_limit; [exact Hn | cbn; lia].
  - intros pre old rest t -> Ht Hold. eapply scrape_loop_stops; eauto.
  - intros Hmax Hall. now rewrite (scrape_loop_unlimited _ _ _ Hmax Hall []).
Qed.

(** *** The time-sliced scraper *)

Lemma collect_In listing p :
  In p (collect fromtimestamp listing) ->
  exists subm, In subm listing /\ post_of fromtimestamp subm = Some p.
Proof.
  induction listing as [|subm rest IH]; cbn [collect]; [intros []|].
  destruct (post_of fromtimestamp subm) as [post|] eqn:Hpost; [|intros []].
  intros [<-|Hin].
  - exists subm. split; [now left | assumption].
  - destruct (IH Hin) as (s & Hs & Hp). exists s. split; [now right | assumption].
Qed.

Lemma between_In lo hi keep l :
  forall r, between lo hi keep l = Some r ->
    forall p, In p r ->
      In p l /\ keep p = true /\
      exists t, py_trunc (created_utc p) = Some t /\ lo <= t <= hi.
Proof.
  induction l as [|q rest IH]; cbn [between]; intros r.
  - intros [= <-] p [].
  - destruct (py_trunc (created_utc q)) as [t|] eqn:Ht; [|discriminate].
    destruct (between lo hi keep rest) as [tail|]; [|discriminate].
    assert (Htail : forall p, In p tail ->
              In p (q :: rest) /\ keep p = true /\
              exists t, py_trunc (created_utc p) = Some t /\ lo <= t <= hi).
    { intros p Hp. destruct (IH tail eq_refl p Hp) as (? & ? & ?).
      split; [now right | auto]. }
    destruct ((lo <=? t) && (t <=? hi) && keep q) eqn:Hc.
    + intros [= <-] p [<-|Hp]; [|now apply Htail].
      apply andb_true_iff in Hc as [Hc Hk]. apply andb_true_iff in Hc as [H1 H2].
      split; [now left|]. split; [exact Hk|]. exists t. split; [exact Ht | lia].
    + intros [= <-]. exact Htail.
Qed.

Lemma slices_sound window_posts start_ts slice_days per_slice fuel :
  forall current_end acc result,
    slices fromtimestamp fuel window_posts start_ts slice_days per_slice
           current_end acc = Returns result ->
    forall p, In p result ->
      In p acc \/ (In p window_posts /\ popular p = true).
Proof.
  induction fuel as [|fuel IH]; intros ce acc result; cbn [slices];
    [discriminate|].
  destruct (start_ts <? ce); [|intros [= <-]; auto].
  set (cs := Z.max start_ts (ce - slice_days * 86400 + 1)).
  destruct (between cs ce popular window_posts) as [slice_posts|] eqn:Hb;
    [|discriminate].
  destruct (fromtimestamp (PInt cs)); [|discriminate].
  destruct (fromtimestamp (PInt ce)); [|discriminate].
  intros H p Hp. apply (IH _ _ _ H) in Hp as [Hp|Hp]; [|now right].
  destruct slice_posts as [|q slice_posts]; [now left|].
  apply in_app_or in Hp as [Hp|Hp]; [now left|]. right.
  unfold select_top in Hp. apply py_take_incl in Hp.
  apply (Permutation_in _ (sort_desc_perm Z.ltb score _)) in Hp.
  destruct (between_In _ _ _ _ _ Hb p Hp) as (? & ? & _). auto.
Qed.

Lemma dedupe_spec result :
  forall seen_ids,
    NoDup (map id (dedupe seen_ids result)) /\
    forall p, In p (dedupe seen_ids result) ->
      In p result /\ id p <> ""%string /\ ~ In (id p) seen_ids.
Proof.
  induction result as [|q rest IH]; intros seen; cbn [dedupe].
  - split; [constructor | intros p []].
  - destruct (String.eqb_spec (id q) "") as [Hempty|Hne]; cbn [negb andb].
    + destruct (IH seen) as [Hnd Hin]. split; [exact Hnd|].
      intros p Hp. destruct (Hin p Hp) as (? & ? & ?). split; [now right | auto].
    + destruct (existsb (String.eqb (id q)) seen) eqn:Hseen; cbn [negb].
      * destruct (IH seen) as [Hnd Hin]. split; [exact Hnd|].
        intros p Hp. destruct (Hin p Hp) as (? & ? & ?). split; [now right | auto].
      * destruct (IH (id q :: seen)) as [Hnd Hin]. split.
        -- cbn [map]. constructor; [|exact Hnd].
           intros Hq. apply in_map_iff in Hq as (p & Hid & Hp).
           destruct (Hin p Hp) as (_ & _ & Hnot). apply Hnot. left. congruence.
        -- intros p [<-|Hp].
           ++ split; [now left|]. split; [exact Hne|].
              intros Hq. assert (existsb (String.eqb (id q)) seen = true).
              { apply existsb_exists. exists (id q). split; [exact Hq|].
                apply String.eqb_refl. }
              congruence.
           ++ destruct (Hin p Hp) as (? & ? & Hnot). split; [now right|].
              split; [assumption|]. intros Hq. apply Hnot. now right.
Qed.

(** What [scrape_subreddit_top_timesliced] returns holds no id twice and
    no empty id; each post was built from an item of the listing, falls
    inside the look-back window that ends at [end_ts], and scores at least
    [MIN_SCORE]. *)
Theorem timesliced_result_in_window_without_duplicates :
  forall (fuel : nat) (listing : list submission)
         (end_ts lookback_days slice_days per_slice : Z) (result : list scraped),
    scrape_subreddit_top_timesliced fromtimestamp fuel listing end_ts
      lookback_days slice_days per_slice = Returns result ->
    NoDup (map id result) /\
    forall p, In p result ->
      id p <> ""%string /\
      MIN_SCORE <= score p /\
      (exists subm, In subm listing /\ post_of fromtimestamp subm = Some p) /\
      (exists t, py_trunc (created_utc p) = Some t /\
                 end_ts - lookback_days * 86400 <= t <= end_ts).
Proof.
  intros fuel listing end_ts lookback slice_days per_slice result.
  unfold scrape_subreddit_top_timesliced.
  destruct (collect fromtimestamp listing) as [|c0 collected] eqn:Hcol.
  { intros [= <-]. split; [constructor | intros p []]. }
  destruct (between (end_ts - lookback * 86400) end_ts (fun _ => true)
              (c0 :: collected)) as [[|w0 window]|] eqn:Hwin; [| |discriminate].
  { intros [= <-]. split; [constructor | intros p []]. }
  destruct (slices fromtimestamp fuel
              (sort_desc py_ltb created_utc (w0 :: window))
              (end_ts - lookback * 86400) slice_days per_slice end_ts [])
    as [r| |] eqn:Hs; try discriminate.
  intros [= <-]. destruct (dedupe_spec r []) as [Hnd Hin].
  split; [exact Hnd|]. intros p Hp.
  destruct (Hin p Hp) as (Hr & Hid & _).
  destruct (slices_sound _ _ _ _ _ _ _ _ Hs p Hr) as [[]|[Hw Hpop]].
  apply (Permutation_in _ (sort_desc_perm py_ltb created_utc _)) in Hw.
  destruct (between_In _ _ _ _ _ Hwin p Hw) as (Hc & _ & Ht).
  split; [exact Hid|]. split.
  - unfold popular in Hpop. apply andb_true_iff in Hpop as [Hsc _].
    now apply Z.leb_le.
  - split; [|exact Ht]. apply collect_In. rewrite Hcol. exact Hc.
Qed.

Lemma slices_enough_fuel window_posts start_ts slice_days per_slice :
  1 <= slice_days ->
  forall fuel current_end acc,
    (Z.to_nat (current_end - start_ts) < fuel)%nat ->
    slices fromtimestamp fuel window_posts start_ts slice_days per_slice
           current_end acc <> OutOfFuel /\
    forall fuel', (fuel <= fuel')%nat ->
      slices fromtimestamp fuel' window_posts start_ts slice_days per_slice
             current_end acc
      = slices fromtimestamp fuel window_posts start_ts slice_days per_slice
               current_end acc.
Proof.
  intros Hsd. induction fuel as [|fuel IH]; intros ce acc Hfuel; [lia|].
  assert (Hstep : forall f, slices fromtimestamp (S f) window_posts start_ts
                              slice_days per_slice ce acc
            = if start_ts <? ce then
                match between (Z.max start_ts (ce - slice_days * 86400 + 1)) ce
                              popular window_posts with
                | None => Raises
                | Some slice_posts =>
                    match fromtimestamp
                            (PInt (Z.max start_ts (ce - slice_days * 86400 + 1))),
                          fromtimestamp (PInt ce) with
                    | Some _, Some _ =>
                        slices fromtimestamp f window_posts start_ts slice_days
                          per_slice
                          (Z.max start_ts (ce - slice_days * 86400 + 1) - 1)
                          match slice_posts with
                          | [] => acc
                          | _ :: _ => acc ++ select_top per_slice slice_posts
                          end
                    | _, _ => Raises
                    end
                end
              else Returns acc) by reflexivity.
  assert (Hall : forall f, (fuel <= f)%nat ->
            slices fromtimestamp (S f) window_posts start_ts slice_days
                   per_slice ce acc <> OutOfFuel /\
            slices fromtimestamp (S f) window_posts start_ts slice_days
                   per_slice ce acc
            = slices fromtimestamp (S fuel) window_posts start_ts slice_days
                     per_slice ce acc).
  { intros f Hf. rewrite !Hstep.
    destruct (Z.ltb_spec start_ts ce) as [Hlt|Hge]; [|split; [discriminate|reflexivity]].
    destruct (between _ ce popular window_posts) as [sp|];
      [|split; [discriminate|reflexivity]].
    destruct (fromtimestamp (PInt (Z.max _ _)));
      [|split; [discriminate|reflexivity]].
    destruct (fromtimestamp (PInt ce)); [|split; [discriminate|reflexivity]].
    match goal with |- slices _ f _ _ _ _ ?ce' ?acc' <> _ /\ _ =>
      destruct (IH ce' acc' ltac:(lia)) as [Hne Hsame] end.
    rewrite (Hsame f Hf). split; [exact Hne | reflexivity]. }
  split; [apply (Hall fuel (Nat.le_refl _))|].
  intros [|f] Hf; [lia|]. apply Hall. lia.
Qed.

(** With a positive [slice_days] the slicing loop ends: once the fuel
    exceeds the number of seconds looked back, the call returns or raises,
    and more fuel changes nothing. *)
Theorem timesliced_terminates_for_positive_slices :
  forall (listing : list submission)
         (end_ts lookback_days slice_days per_slice : Z) (fuel : nat),
    1 <= slice_days ->
    (Z.to_nat (lookback_days * 86400) < fuel)%nat ->
    let run f := scrape_subreddit_top_timesliced fromtimestamp f listing end_ts
                   lookback_days slice_days per_slice in
    ((exists result, run fuel = Returns result) \/ run fuel = Raises) /\
    forall fuel', (fuel <= fuel')%nat -> run fuel' = run fuel.
Proof.
  intros listing end_ts lookback slice_days per_slice fuel Hsd Hfuel run.
  subst run. cbv beta. unfold scrape_subreddit_top_timesliced.
  destruct (collect fromtimestamp listing) as [|c0 collected].
  { split; [left; eauto | reflexivity]. }
  destruct (between (end_ts - lookback * 86400) end_ts (fun _ => true)
              (c0 :: collected)) as [[|w0 window]|].
  - split; [left; eauto | reflexivity].
  - destruct (slices_enough_fuel (sort_desc py_ltb created_utc (w0 :: window))
                (end_ts - lookback * 86400) slice_days per_slice Hsd
                fuel end_ts []) as [Hne Hsame].
    { replace (end_ts - (end_ts - lookback * 86400)) with (lookback * 86400) by lia.
      exact Hfuel. }
    split.
    + destruct (slices fromtimestamp fuel _ _ _ _ _ _) as [r| |];
        [left; eauto | now right | congruence].
    + intros fuel' Hf. now rewrite (Hsame fuel' Hf).
  - split; [now right | reflexivity].
Qed.

Lemma slices_never_return window_posts start_ts slice_days per_slice :
  slice_days <= 0 ->
  forall fuel current_end acc,
    start_ts < current_end ->
    slices fromtimestamp fuel window_posts start_ts slice_days per_slice
           current_end acc = Raises \/
    slices fromtimestamp fuel window_posts start_ts slice_days per_slice
           current_end acc = OutOfFuel.
Proof.
  intros Hsd. induction fuel as [|fuel IH]; intros ce acc Hce; cbn [slices];
    [now right|].
  destruct (Z.ltb_spec start_ts ce); [|lia].
  destruct (between _ ce popular window_posts); [|now left].
  destruct (fromtimestamp (PInt (Z.max _ _))); [|now left].
  destruct (fromtimestamp (PInt ce)); [|now left].
  apply IH. lia.
Qed.

(** With [slice_days] zero or negative the slicing loop never reaches its
    end: as soon as one fetched post lies in a window of positive length,
    the call returns nothing, however many turns it is given; it loops, or
    leaves with an exception. *)
Theorem timesliced_never_returns_for_nonpositive_slices :
  forall (fuel : nat) (listing : list submission)
         (end_ts lookback_days slice_days per_slice : Z)
         (p : scraped) (window_posts : list scraped),
    slice_days <= 0 ->
    1 <= lookback_days ->
    between (end_ts - lookback_days * 86400) end_ts (fun _ => true)
            (collect fromtimestamp listing) = Some (p :: window_posts) ->
    let out := scrape_subreddit_top_timesliced fromtimestamp fuel listing end_ts
                 lookback_days slice_days per_slice in
    out = Raises \/ out = OutOfFuel.
Proof.
  intros fuel listing end_ts lookback slice_days per_slice p window Hsd Hlb Hwin out.
  subst out. unfold scrape_subreddit_top_timesliced.
  destruct (collect fromtimestamp listing) as [|c0 collected];
    [discriminate|].
  rewrite Hwin.
  destruct (slices_never_return (sort_desc py_ltb created_utc (p :: window))
              (end_ts - lookback * 86400) slice_days per_slice Hsd fuel end_ts []
              ltac:(lia)) as [-> | ->]; auto.
Qed.

End ScrapeFacts.

Section ScrapeExamples.
Import PyStr Clustering Scrape ScrapeSamples.
Local Open Scope string_scope.

(** One post kept out of the three recent ones of the sample listing with
    a score that passes: the one with nine points. *)
Lemma select_top_keeps_highest_scores_witness :
  map score (select_top 1 (scrape_subreddit clock listing 20000 None)) = [9%Z]
  /\ List.length (select_top 1 (scrape_subreddit clock listing 20000 None))
     = 1%nat.
Proof.
  split; [reflexivity|].
  destruct (select_top_keeps_highest_scores 1
              (scrape_subreddit clock listing 20000 None) ltac:(lia)) as [H _].
  exact H.
Defined.

(** Two slices of one day over the sample listing: the second [a] is
    dropped as a duplicate, the negative score and the old post are
    filtered out. *)
Lemma timesliced_result_in_window_without_duplicates_witness :
  NoDup ["a"; "b"].
Proof.
  destruct (scrape_subreddit_top_timesliced clock 5 listing 200000 2 1 10)
    as [result| |] eqn:Hrun; try (vm_compute in Hrun; discriminate).
  destruct (timesliced_result_in_window_without_duplicates clock 5 listing
              200000 2 1 10 result Hrun) as [Hnd _].
  vm_compute in Hrun. injection Hrun as <-. exact Hnd.
Defined.

(** Two days looked back in slices of one day. *)
Lemma timesliced_terminates_for_positive_slices_witness :
  let run f := scrape_subreddit_top_timesliced clock f listing 200000 2 1 10 in
  ((exists result, run (Z.to_nat 172801) = Returns result)
   \/ run (Z.to_nat 172801) = Raises)
  /\ forall fuel', (Z.to_nat 172801 <= fuel')%nat ->
                   run fuel' = run (Z.to_nat 172801).
Proof.
  apply (timesliced_terminates_for_positive_slices clock listing 200000 2 1 10
           (Z.to_nat 172801)); lia.
Defined.

(** The same call with [slice_days = 0]. *)
Lemma timesliced_never_returns_for_nonpositive_slices_witness :
  scrape_subreddit_top_timesliced clock 1000 listing 200000 2 0 10 = Raises
  \/ scrape_subreddit_top_timesliced clock 1000 listing 200000 2 0 10 = OutOfFuel.
Proof.
  eapply (timesliced_never_returns_for_nonpositive_slices clock 1000 listing
            200000 2 0 10); [lia | lia | reflexivity].
Defined.

End ScrapeExamples.

Section SplitJoinFacts.
Import PyStr Backend.
Local Open Scope string_scope.

Lemma prefix_app a b : String.prefix a (a ++ b) = true.
Proof.
  induction a as [|c a IH]; cbn [append].
  - now destruct b.
  - rewrite prefix_cons. destruct (Ascii.ascii_dec c c); [exact IH | congruence].
Qed.

Lemma append_assoc a b c : (a ++ b) ++ c = a ++ (b ++ c).
Proof. induction a as [|x a IH]; cbn [append]; [reflexivity | now rewrite IH]. Qed.

Lemma contains_at_start needle s :
  String.prefix needle s = true -> contains needle s = true.
Proof. intros H. destruct s; cbn [contains]; now rewrite H. Qed.

Lemma split_char_nonempty sep s : split_char sep s <> [].
Proof.
  induction s as [|c s IH]; cbn [split_char]; [discriminate|].
  destruct (Ascii.eqb c sep); [discriminate|].
  destruct (split_char sep s); discriminate.
Qed.

Lemma split_char_app sep a b :
  split_char sep (a ++ String sep b) = (split_char sep a ++ split_char sep b)%list.
Proof.
  induction a as [|c a IH]; cbn [append split_char].
  - now rewrite Ascii.eqb_refl.
  - destruct (Ascii.eqb c sep); [now rewrite IH|].
    rewrite IH. pose proof (split_char_nonempty sep a) as Hne.
    destruct (split_char sep a); [contradiction | reflexivity].
Qed.

Lemma split_char_absent sep s :
  contains (String sep "") s = false -> split_char sep s = [s].
Proof.
  induction s as [|c s IH]; cbn [contains split_char]; [reflexivity|].
  rewrite prefix_cons. intros H. apply orb_false_iff in H as [Hp Hc].
  destruct (Ascii.eqb_spec c sep) as [->|Hne].
  - destruct (Ascii.ascii_dec sep sep); [|congruence]. now destruct s.
  - now rewrite (IH Hc).
Qed.

Lemma join_split sep s : join (String sep "") (split_char sep s) = s.
Proof.
  induction s as [|c s IH]; cbn [split_char]; [reflexivity|].
  pose proof (split_char_nonempty sep s) as Hne.
  destruct (Ascii.eqb_spec c sep) as [->|Hc].
  - destruct (split_char sep s) as [|h t]; [contradiction|].
    cbn [join append] in *. now rewrite IH.
  - destruct (split_char sep s) as [|h t]; [contradiction|].
    destruct t as [|h' t]; cbn [join append] in *; now rewrite <- IH.
Qed.

End SplitJoinFacts.

Section DirectoryNames.
Import PyStr Backend.
Local Open Scope string_scope.

Lemma subreddit_of_run_dir (subreddit date time : string) mtime :
  contains "_" date = false ->
  contains "_" time = false ->
  subreddit_of_dir (Entry (run_dir_name subreddit date time) true mtime)
  = Some subreddit.
Proof.
  intros Hd Ht. unfold subreddit_of_dir, run_dir_name. cbn [is_dir name andb].
  assert (Hc : contains "_" (subreddit ++ "_" ++ (date ++ "_" ++ time)) = true)
    by (apply contains_app_r, contains_at_start, prefix_app).
  rewrite Hc.
  change (subreddit ++ "_" ++ (date ++ "_" ++ time))
    with (subreddit ++ String "_" (date ++ String "_" time)).
  rewrite !split_char_app, (split_char_absent _ date Hd),
    (split_char_absent _ time Ht).
  rewrite !length_app. cbn [List.length].
  destruct (Nat.leb_spec 3 (List.length (split_char "_" subreddit) + (1 + 1)))
    as [_|Hlt].
  - replace (List.length (split_char "_" subreddit) + (1 + 1) - 2)%nat
      with (List.length (split_char "_" subreddit) + 0)%nat by lia.
    rewrite firstn_app_2, firstn_O, app_nil_r. now rewrite join_split.
  - pose proof (split_char_nonempty "_" subreddit) as Hne.
    destruct (split_char "_" subreddit); [contradiction | cbn in Hlt; lia].
Qed.

Lemma matches_run_dir (subreddit date time : string) mtime :
  matches subreddit (Entry (run_dir_name subreddit date time) true mtime) = true.
Proof.
  unfold matches, run_dir_name, startswith. cbn [is_dir name andb].
  rewrite <- (append_assoc subreddit "_"). apply prefix_app.
Qed.

Lemma matches_longer_run_dir (subreddit more date time : string) mtime :
  matches subreddit
    (Entry (run_dir_name (subreddit ++ "_" ++ more) date time) true mtime)
  = true.
Proof.
  unfold matches, run_dir_name, startswith. cbn [is_dir name andb].
  rewrite (append_assoc subreddit), (append_assoc "_" more),
    <- (append_assoc subreddit "_").
  apply prefix_app.
Qed.

Lemma append_longer (a b : string) : b <> "" -> a ++ b <> a.
Proof.
  intros Hb. induction a as [|c a IH]; cbn [append]; [exact Hb|].
  intros [= H]. now apply IH.
Qed.

(** The directory name [save_outputs] makes for a subreddit is read back
    by [load_existing_data] as that subreddit, underscores in its name
    included, since the two parts of the time stamp hold none; and it is
    among the names [find_latest_output] accepts for the subreddit. *)
Theorem run_directory_name_round_trip :
  forall (subreddit date time : string) (mtime : Clustering.pynum),
    contains "_" date = false ->
    contains "_" time = false ->
    let item := Entry (run_dir_name subreddit date time) true mtime in
    subreddit_of_dir item = Some subreddit /\
    matches subreddit item = true.
Proof.
  intros s d t mtime Hd Ht item. subst item. split.
  - now apply subreddit_of_run_dir.
  - apply matches_run_dir.
Qed.

End DirectoryNames.

Section FloatOrder.
Import Clustering Scrape Backend.

Lemma scaled_lt m1 e1 m2 e2 E :
  E <= e1 -> E <= e2 ->
  (m1 * 2 ^ (e1 - Z.min e1 e2) < m2 * 2 ^ (e2 - Z.min e1 e2)
   <-> m1 * 2 ^ (e1 - E) < m2 * 2 ^ (e2 - E)).
Proof.
  intros H1 H2. set (e := Z.min e1 e2).
  assert (He : E <= e /\ e <= e1 /\ e <= e2) by (unfold e; lia).
  replace (e1 - E) with ((e1 - e) + (e - E)) by lia.
  replace (e2 - E) with ((e2 - e) + (e - E)) by lia.
  rewrite !Z.pow_add_r by lia. rewrite !Z.mul_assoc.
  assert (Hp : 0 < 2 ^ (e - E)) by (apply Z.pow_pos_nonneg; lia).
  split; intros H.
  - now apply Z.mul_lt_mono_pos_r.
  - now apply Z.mul_lt_mono_pos_r in H.
Qed.

Lemma finite_dyadic x : finite x -> exists m e, dyadic_of x = Some (m, e).
Proof.
  unfold finite. destruct (dyadic_of x) as [[m e]|]; [eauto | congruence].
Qed.

Lemma py_ltb_asym x y :
  finite x -> finite y -> py_ltb x y = true -> py_ltb y x = false.
Proof.
  intros Hx Hy. destruct (finite_dyadic x Hx) as (m1 & e1 & H1).
  destruct (finite_dyadic y Hy) as (m2 & e2 & H2).
  unfold py_ltb. rewrite H1, H2, (Z.min_comm e2 e1).
  rewrite Z.ltb_lt, Z.ltb_ge. lia.
Qed.

Lemma py_ltb_irrefl x : finite x -> py_ltb x x = false.
Proof.
  intros Hx. destruct (finite_dyadic x Hx) as (m & e & H).
  unfold py_ltb. rewrite H. apply Z.ltb_irrefl.
Qed.

Lemma py_ltb_negtrans x y z :
  finite x -> finite y -> finite z ->
  py_ltb x y = false -> py_ltb y z = false -> py_ltb x z = false.
Proof.
  intros Hx Hy Hz. destruct (finite_dyadic x Hx) as (m1 & e1 & H1).
  destruct (finite_dyadic y Hy) as (m2 & e2 & H2).
  destruct (finite_dyadic z Hz) as (m3 & e3 & H3).
  unfold py_ltb. rewrite H1, H2, H3. rewrite !Z.ltb_ge, !Z.le_ngt.
  set (E := Z.min e1 (Z.min e2 e3)).
  rewrite (scaled_lt m1 e1 m2 e2 E), (scaled_lt m2 e2 m3 e3 E),
    (scaled_lt m1 e1 m3 e3 E) by (unfold E; lia).
  lia.
Qed.

Context {A : Type} (key : A -> pynum).

Lemma insert_desc_sorted_num x l :
  finite (key x) -> Forall (fun a => finite (key a)) l ->
  StronglySorted (not_below key) l ->
  StronglySorted (not_below key) (insert_desc py_ltb key x l).
Proof.
  intros Hx Hfin Hs. induction Hs as [|h t Hs IH Hh]; cbn [insert_desc].
  - repeat constructor.
  - inversion Hfin as [|? ? Hfh Hft]; subst.
    destruct (py_ltb (key x) (key h)) eqn:Hlt.
    + constructor; [now apply IH|].
      apply Forall_forall. intros y Hy.
      apply (Permutation_in _ (insert_desc_perm py_ltb key x t)) in Hy as [<-|Hy].
      * unfold not_below. now apply py_ltb_asym.
      * exact (proj1 (Forall_forall _ _) Hh y Hy).
    + constructor; [now constructor|].
      constructor; [exact Hlt|].
      apply Forall_forall. intros y Hy. unfold not_below.
      apply (py_ltb_negtrans _ (key h)); auto.
      * exact (proj1 (Forall_forall _ _) Hft y Hy).
      * exact (proj1 (Forall_forall _ _) Hh y Hy).
Qed.

Lemma sort_desc_sorted_num l :
  Forall (fun a => finite (key a)) l ->
  StronglySorted (not_below key) (sort_desc py_ltb key l).
Proof.
  unfold sort_desc. induction 1 as [|h t Hh Ht IH]; cbn [fold_right];
    [constructor|].
  apply insert_desc_sorted_num; auto.
  apply Forall_forall. intros y Hy.
  apply (Permutation_in _ (sort_desc_perm py_ltb key t)) in Hy.
  exact (proj1 (Forall_forall _ _) Ht y Hy).
Qed.

End FloatOrder.

Section LatestOutput.
Import PyStr Clustering Scrape Backend.

Lemma entry_eq_dec (a b : entry) : {a = b} + {a <> b}.
Proof. repeat decide equality. Qed.

Lemma latest_of_matching (l : list entry) :
  Forall (fun e => finite (st_mtime e)) l ->
  match sort_desc py_ltb st_mtime l with
  | [] => l = []
  | latest :: _ =>
      In latest l /\
      forall e, In e l -> py_ltb (st_mtime latest) (st_mtime e) = false
  end.
Proof.
  intros Hfin. pose proof (sort_desc_sorted_num st_mtime l Hfin) as Hs.
  pose proof (sort_desc_perm py_ltb st_mtime l) as Hp.
  destruct (sort_desc py_ltb st_mtime l) as [|h t].
  - now apply Permutation_nil.
  - split; [apply (Permutation_in _ Hp); now left|].
    intros e He. apply (Permutation_in _ (Permutation_sym Hp)) in He as [<-|He].
    + apply py_ltb_irrefl.
      apply (proj1 (Forall_forall _ _) Hfin), (Permutation_in _ Hp). now left.
    + inversion Hs as [|? ? _ Hall]; subst.
      exact (proj1 (Forall_forall _ _) Hall e He).
Qed.

Lemma find_latest_output_cases (items : list entry) (subreddit : string) :
  Forall (fun e => finite (st_mtime e)) items ->
  match find_latest_output (Some items) subreddit with
  | None => forall e, In e items -> matches subreddit e = false
  | Some latest =>
      In latest items /\ matches subreddit latest = true /\
      forall e, In e items -> matches subreddit e = true ->
                py_ltb (st_mtime latest) (st_mtime e) = false
  end.
Proof.
  intros Hfin. set (s := subreddit).
  assert (Hm : Forall (fun e => finite (st_mtime e)) (filter (matches s) items)).
  { apply Forall_forall. intros e He. apply filter_In in He as [He _].
    exact (proj1 (Forall_forall _ _) Hfin e He). }
  pose proof (latest_of_matching _ Hm) as Hlatest.
  unfold find_latest_output.
  destruct (filter (matches s) items) as [|m0 ms] eqn:Hf.
  - intros e He. destruct (matches s e) eqn:Hme; [|reflexivity].
    assert (In e (filter (matches s) items)) by (apply filter_In; auto).
    rewrite Hf in *. contradiction.
  - destruct (sort_desc py_ltb st_mtime (m0 :: ms)) as [|latest rest];
      [discriminate|].
    destruct Hlatest as [Hin Hmax]. rewrite <- Hf in Hin, Hmax.
    apply filter_In in Hin as [Hin Hmatch]. split; [exact Hin|].
    split; [exact Hmatch|]. intros e He Hme. apply Hmax, filter_In. auto.
Qed.

(** A match that is newer than every other match is the one returned. *)
Lemma find_latest_output_newest (items : list entry) (subreddit : string) fresh :
  Forall (fun e => finite (st_mtime e)) items ->
  In fresh items -> matches subreddit fresh = true ->
  (forall e, In e items -> matches subreddit e = true -> e <> fresh ->
             py_ltb (st_mtime e) (st_mtime fresh) = true) ->
  find_latest_output (Some items) subreddit = Some fresh.
Proof.
  intros Hfin Hin Hmatch Hnewer.
  pose proof (find_latest_output_cases items subreddit Hfin) as Hcases.
  destruct (find_latest_output (Some items) subreddit) as [latest|].
  - destruct Hcases as (Hl & Hlm & Hmax). f_equal.
    destruct (entry_eq_dec latest fresh) as [Heq|Hne]; [exact Heq|].
    specialize (Hnewer latest Hl Hlm Hne).
    rewrite (Hmax fresh Hin Hmatch) in Hnewer. discriminate.
  - rewrite (Hcases fresh Hin) in Hmatch. discriminate.
Qed.

(** [find_latest_output] returns [None] when the output directory is
    missing or holds no directory whose name starts with the subreddit and
    an underscore; otherwise it returns such a directory, and none of the
    others has a later modification time.  So a directory that is newer than
    every other match is the one returned. *)
Theorem find_latest_output_returns_newest_match :
  forall (items : list entry) (subreddit : string),
    Forall (fun e => finite (st_mtime e)) items ->
    find_latest_output None subreddit = None /\
    match find_latest_output (Some items) subreddit with
    | None => forall e, In e items -> matches subreddit e = false
    | Some latest =>
        In latest items /\ matches subreddit latest = true /\
        forall e, In e items -> matches subreddit e = true ->
                  py_ltb (st_mtime latest) (st_mtime e) = false
    end /\
    forall fresh,
      In fresh items -> matches subreddit fresh = true ->
      (forall e, In e items -> matches subreddit e = true -> e <> fresh ->
                 py_ltb (st_mtime e) (st_mtime fresh) = true) ->
      find_latest_output (Some items) subreddit = Some fresh.
Proof.
  intros items s Hfin. split; [reflexivity|].
  split; [now apply find_latest_output_cases|].
  intros fresh. now apply find_latest_output_newest.
Qed.

End LatestOutput.

Section LongerNames.
Import PyStr Clustering Scrape Backend.
Local Open Scope string_scope.

(** [find_latest_output] matches by prefix only: when the newest directory
    whose name starts with [subreddit] and an underscore is a run of the
    longer-named subreddit [subreddit_more], it is the latest output
    returned for [subreddit], while [load_existing_data] reads the same
    directory as a run of [subreddit_more]. *)
Theorem longer_subreddit_names_match_too :
  forall (items : list entry) (subreddit more date time : string)
         (mtime : pynum),
    Forall (fun e => finite (st_mtime e)) items ->
    In (Entry (run_dir_name (subreddit ++ "_" ++ more) date time) true mtime)
       items ->
    (forall e, In e items -> matches subreddit e = true ->
       e <> Entry (run_dir_name (subreddit ++ "_" ++ more) date time) true mtime ->
       py_ltb (st_mtime e) mtime = true) ->
    contains "_" date = false ->
    contains "_" time = false ->
    find_latest_output (Some items) subreddit
    = Some (Entry (run_dir_name (subreddit ++ "_" ++ more) date time) true mtime) /\
    subreddit_of_dir
      (Entry (run_dir_name (subreddit ++ "_" ++ more) date time) true mtime)
    = Some (subreddit ++ "_" ++ more) /\
    subreddit ++ "_" ++ more <> subreddit.
Proof.
  intros items s more d t mtime Hfin Hin Hnewer Hd Ht. split; [|split].
  - apply find_latest_output_newest; auto. apply matches_longer_run_dir.
  - now apply subreddit_of_run_dir.
  - apply append_longer. discriminate.
Qed.

End LongerNames.

Section BackendExamples.
Import PyStr Clustering Scrape Backend.
Local Open Scope string_scope.

(** A subreddit with an underscore in its name. *)
Lemma run_directory_name_round_trip_witness :
  let item := Entry "Makeup_Addiction_20251111_093000" true (PInt 0) in
  subreddit_of_dir item = Some "Makeup_Addiction" /\
  matches "Makeup_Addiction" item = true.
Proof.
  apply (run_directory_name_round_trip "Makeup_Addiction" "20251111" "093000"
           (PInt 0)); reflexivity.
Defined.

(** Two runs of one subreddit, a file and a run of another subreddit:
    the later run is found. *)
Lemma find_latest_output_returns_newest_match_witness :
  let older := Entry "makeup_20251110_080000" true (PFloat (FDyadic 3401 (-1))) in
  let newer := Entry "makeup_20251111_093000" true (PFloat (FDyadic 1701 0)) in
  let file := Entry "makeup_notes.txt" false (PInt 9999) in
  let other := Entry "skincare_20251112_101500" true (PInt 5000) in
  find_latest_output (Some [older; file; newer; other]) "makeup" = Some newer.
Proof.
  cbv zeta.
  refine (proj2 (proj2 (find_latest_output_returns_newest_match
            [Entry "makeup_20251110_080000" true (PFloat (FDyadic 3401 (-1)));
             Entry "makeup_notes.txt" false (PInt 9999);
             Entry "makeup_20251111_093000" true (PFloat (FDyadic 1701 0));
             Entry "skincare_20251112_101500" true (PInt 5000)]
            "makeup" _)) _ _ _ _).
  - repeat constructor; discriminate.
  - cbn. auto.
  - reflexivity.
  - intros e [<-|[<-|[<-|[<-|[]]]]] Hm Hne;
      try reflexivity; try discriminate. now contradiction Hne.
Defined.

(** An older run of [skin] and a newer run of [skin_care]: asked for
    [skin], the function returns the run of [skin_care]. *)
Lemma longer_subreddit_names_match_too_witness :
  let own := Entry "skin_20251110_080000" true (PInt 1000) in
  let other := Entry "skin_care_20251111_093000" true (PInt 2000) in
  find_latest_output (Some [own; other]) "skin" = Some other /\
  subreddit_of_dir other = Some "skin_care".
Proof.
  cbv zeta.
  refine ((fun H => conj (proj1 H) (proj1 (proj2 H))) _).
  apply (longer_subreddit_names_match_too
           [Entry "skin_20251110_080000" true (PInt 1000);
            Entry "skin_care_20251111_093000" true (PInt 2000)]
           "skin" "care" "20251111" "093000" (PInt 2000)).
  - repeat constructor; discriminate.
  - cbn. auto.
  - intros e [<-|[<-|[]]] Hm Hne; [reflexivity | now contradiction Hne].
  - reflexivity.
  - reflexivity.
Defined.

End BackendExamples.

Section BelowFacts.
Import Data Gateway Clustering Spec Cover.

Lemma lt_int_succ x n : lt_int x n = true -> lt_int x (n + 1) = true.
Proof.
  unfold lt_int. destruct (dyadic_of x) as [[m e]|]; [|auto].
  destruct (Z.leb_spec 0 e); rewrite !Z.ltb_lt; [lia|].
  assert (0 < 2 ^ (- e)) by (apply Z.pow_pos_nonneg; lia). nia.
Qed.

Lemma lt_int_self n : lt_int (PInt n) (n + 1) = true.
Proof.
  unfold lt_int. cbn [dyadic_of]. change (0 <=? 0) with true. cbv iota.
  rewrite Z.pow_0_r, Z.mul_1_r. apply Z.ltb_lt. lia.
Qed.

Lemma lt_int_index i n : i < n -> lt_int (PInt i) n = true.
Proof.
  intros H. unfold lt_int. cbn [dyadic_of]. change (0 <=? 0) with true. cbv iota.
  rewrite Z.pow_0_r, Z.mul_1_r. now apply Z.ltb_lt.
Qed.

Lemma lt_int_differs x n : lt_int x n = true -> py_eqb (PInt n) x = false.
Proof.
  unfold lt_int, py_eqb. cbn [dyadic_of].
  destruct (dyadic_of x) as [[m e]|]; [|reflexivity].
  destruct (Z.leb_spec 0 e) as [He|He]; rewrite Z.ltb_lt, Z.eqb_neq.
  - rewrite Z.min_l by lia. replace (0 - 0) with 0 by lia.
    replace (e - 0) with e by lia. rewrite Z.pow_0_r. lia.
  - rewrite Z.min_r by lia. replace (e - e) with 0 by lia.
    replace (0 - e) with (- e) by lia. rewrite Z.pow_0_r. lia.
Qed.

Lemma extend_In k xs (c : cluster_map) k' ms' :
  In (k', ms') (extend k xs c) ->
  exists ms, In (k', ms) c /\ (ms' = ms \/ ms' = ms ++ xs).
Proof.
  unfold extend. induction c as [|[k0 ms0] c IH]; cbn [dict_update]; [intros []|].
  destruct (k =? k0).
  - intros [[= <- <-]|Hin].
    + exists ms0. split; [now left | now right].
    + exists ms'. split; [now right | now left].
  - intros [[= <- <-]|Hin].
    + exists ms0. split; [now left | now left].
    + destruct (IH Hin) as (ms & Hms & Hor). exists ms. split; [now right | exact Hor].
Qed.

Lemma below_extend n k xs (c : cluster_map) :
  below n c -> (forall x, In x xs -> lt_int x n = true) -> below n (extend k xs c).
Proof.
  intros Hb Hxs k' ms' x Hin Hx.
  destruct (extend_In _ _ _ _ _ Hin) as (ms & Hms & [->| ->]).
  - eapply Hb; eauto.
  - apply in_app_or in Hx as [Hx|Hx]; [eapply Hb; eauto | now apply Hxs].
Qed.

Lemma below_succ n (c : cluster_map) : below n c -> below (n + 1) c.
Proof. intros Hb k ms x Hin Hx. apply lt_int_succ. eapply Hb; eauto. Qed.

Lemma not_held_beyond n (c : cluster_map) k :
  below n c -> ~ held_by c k (PInt n).
Proof.
  intros Hb (ms & Hget & Hin). apply py_in_In in Hin as (y & Hy & Heq).
  apply dict_get_Some_In in Hget.
  rewrite (lt_int_differs y n (Hb _ _ _ Hget Hy)) in Heq. discriminate.
Qed.

Lemma covers_append n k (c : cluster_map) :
  covers n c -> In k (ids c) -> covers (n + 1) (append k (PInt n) c).
Proof.
  intros (Hnd & Hb & Hone) Hk. split; [now rewrite ids_append|]. split.
  - apply below_extend; [now apply below_succ|].
    intros x [<-|[]]. apply lt_int_self.
  - intros i Hi. unfold in_one_cluster, append.
    destruct (Z.eq_dec i n) as [->|Hne].
    + exists k. split.
      * apply held_by_extend. right. repeat split; auto.
        unfold py_in. cbn [existsb]. rewrite py_eqb_int, Z.eqb_refl. reflexivity.
      * intros k' Hk'. apply held_by_extend in Hk' as [Hk'|(-> & _)]; [|reflexivity].
        now apply not_held_beyond in Hk'.
    + destruct (Hone i ltac:(lia)) as (k0 & Hheld & Huniq). exists k0. split.
      * apply held_by_extend. now left.
      * intros k' Hk'. apply held_by_extend in Hk' as [Hk'|(_ & _ & Hin)];
          [now apply Huniq|].
        unfold py_in in Hin. cbn [existsb] in Hin.
        rewrite py_eqb_int, orb_false_r in Hin.
        apply Z.eqb_eq in Hin. contradiction.
Qed.

Lemma span_succ lo n : span lo (S n) = lo :: span (lo + 1) n.
Proof.
  unfold span. cbn [seq map]. f_equal; [cbn; lia|].
  rewrite <- seq_shift, map_map. apply map_ext. intros j. lia.
Qed.

Lemma appended_ids c idxs c' : appended c idxs c' -> ids c' = ids c.
Proof.
  induction 1 as [|c k i rest c' _ _ IH]; [reflexivity|].
  now rewrite IH, ids_append.
Qed.

Lemma appended_app c a c1 b c2 :
  appended c a c1 -> appended c1 b c2 -> appended c (a ++ b) c2.
Proof.
  induction 1 as [|c k i rest c' Hk _ IH]; intros H2; cbn [app]; [exact H2|].
  econstructor; eauto.
Qed.

Lemma appended_covers c idxs c' :
  appended c idxs c' ->
  forall lo, idxs = span lo (List.length idxs) -> covers lo c ->
    covers (lo + Z.of_nat (List.length idxs)) c'.
Proof.
  induction 1 as [c|c k i rest c' Hk _ IH]; intros lo Hspan Hc.
  - cbn. now rewrite Z.add_0_r.
  - cbn [List.length] in *. rewrite span_succ in Hspan.
    injection Hspan as -> Hrest.
    replace (lo + Z.of_nat (S (List.length rest)))
      with (lo + 1 + Z.of_nat (List.length rest)) by lia.
    apply IH; [exact Hrest|]. now apply covers_append.
Qed.

End BelowFacts.

Section AppendedFacts.
Import PyStr Data Gateway Clustering Spec Cover.
Variable py_int : string -> option Z.

Lemma assign_parsed_appended lines indices :
  forall c c' : cluster_map,
    assign_parsed py_int lines c indices = (c', None) -> appended c indices c'.
Proof.
  induction indices as [|i indices IH]; intros c c'; cbn [assign_parsed].
  - intros [= <-]. constructor.
  - destruct (assign_post py_int lines c i) as [c1|e] eqn:Hp; [|discriminate].
    intros H. destruct (assign_post_Ok _ _ _ _ _ Hp) as (k & Hk & ->).
    econstructor; eauto.
Qed.

Lemma fold_append_appended k indices :
  forall c : cluster_map,
    In k (ids c) ->
    appended c indices (fold_left (fun c i => append k (PInt i) c) indices c).
Proof.
  induction indices as [|i indices IH]; intros c Hk; cbn [fold_left];
    [constructor|].
  econstructor; [exact Hk|]. apply IH. now rewrite ids_append.
Qed.

Lemma assign_batch_appended batch batch_start (c c' : cluster_map) w w' :
  assign_batch py_int batch batch_start c w = (Ok c', w') ->
  appended c (span batch_start (List.length batch)) c'.
Proof.
  unfold assign_batch. change (batch_indices batch_start batch)
    with (span batch_start (List.length batch)).
  destruct (ask w) as [[result|e] w1].
  - destruct (assign_parsed py_int (lines_of result) c
                (span batch_start (List.length batch))) as [c1 [e|]] eqn:Hp.
    + destruct (assign_parsed_perm _ _ _ _ _ _ Hp) as [_ Hnil].
      rewrite (Hnil e eq_refl). cbn. discriminate.
    + intros [= <- _]. now apply assign_parsed_appended in Hp.
  - unfold assign_all_to_largest. destruct (largest c) as [k|] eqn:Hk; [|discriminate].
    intros [= <- _]. apply fold_append_appended. now apply largest_id.
Qed.

Lemma assign_loop_appended posts start_idx batch_size :
  (1 <= batch_size)%nat ->
  forall fuel done (c c' : cluster_map) w w',
    (List.length (skipn done posts) <= fuel)%nat ->
    assign_loop py_int fuel posts start_idx batch_size done c w = (Ok c', w') ->
    appended c (span (start_idx + Z.of_nat done)
                     (List.length (skipn done posts))) c'.
Proof.
  intros Hbs. induction fuel as [|fuel IH]; intros done c c' w w' Hfuel;
    cbn [assign_loop].
  - intros [= <- _]. assert (Hz : List.length (skipn done posts) = 0%nat) by lia.
    rewrite Hz. constructor.
  - destruct (skipn done posts) as [|p todo] eqn:Htodo.
    + intros [= <- _]. constructor.
    + intros H. apply bind_Ok in H as (c1 & w1 & Hbatch & Hloop).
      apply assign_batch_appended in Hbatch.
      assert (Hskip : skipn (done + batch_size) posts = skipn batch_size (p :: todo)).
      { rewrite <- Htodo, skipn_skipn. f_equal. lia. }
      apply IH in Hloop; [|rewrite Hskip, length_skipn; cbn [List.length] in *; lia].
      rewrite Hskip in Hloop.
      assert (Heq : (span (start_idx + Z.of_nat done)
                          (List.length (firstn batch_size (p :: todo)))
                     ++ span (start_idx + Z.of_nat (done + batch_size))
                             (List.length (skipn batch_size (p :: todo))))%list
                    = span (start_idx + Z.of_nat done) (List.length (p :: todo))).
      { rewrite <- (firstn_skipn batch_size (p :: todo)) at 3.
        rewrite length_app, span_app. f_equal.
        destruct (Nat.le_gt_cases batch_size (List.length (p :: todo))) as [Hle|Hgt].
        - rewrite firstn_length_le by exact Hle. f_equal. lia.
        - rewrite skipn_all2 by lia. reflexivity. }
      rewrite <- Heq. eapply appended_app; eauto.
Qed.

Lemma assign_posts_appended posts themes (c c' : cluster_map) start_idx batch_size w w' :
  _assign_posts_to_clusters py_int posts themes c start_idx batch_size w
  = (Ok c', w') ->
  appended c (span start_idx (List.length posts)) c'.
Proof.
  unfold _assign_posts_to_clusters. destruct batch_size as [|bs].
  - discriminate.
  - intros H. apply assign_loop_appended in H; [|lia|cbn; lia].
    cbn [skipn] in H. now rewrite Z.add_0_r in H.
Qed.

End AppendedFacts.

Section CoverFacts.
Import PyStr Data Gateway Clustering Spec Cover.
Variable json_loads : string -> option json.
Variable py_int : string -> option Z.

Lemma build_below num_posts min_cluster_size clusters_array result :
  build_clusters num_posts min_cluster_size clusters_array = Ok result ->
  below (Z.of_nat num_posts) result.
Proof.
  intros Hb.
  assert (Hall : forall x, In x (all_indices num_posts) ->
                   lt_int x (Z.of_nat num_posts) = true).
  { intros x Hx. apply all_indices_In in Hx as (i & -> & Hi).
    apply lt_int_index. lia. }
  destruct (build_clusters_cases _ _ _ _ Hb)
    as (proposals & st & _ & _ & Hok &
        [(Hc & ->)|[(Hc & Hm & ->)|(Hc & Hm & L & HL & ->)]]).
  - intros k ms x [[= <- <-]|[]] Hx. now apply Hall.
  - intros k ms x Hin Hx. apply (ok_range _ _ _ Hok).
    rewrite <- (ok_members _ _ _ Hok). apply all_members_In. eauto.
  - apply below_extend.
    + intros k ms x Hin Hx. apply (ok_range _ _ _ Hok).
      rewrite <- (ok_members _ _ _ Hok). apply all_members_In. eauto.
    + intros x Hx. apply missing_In in Hx as (i & -> & Hi & _).
      apply lt_int_index. lia.
Qed.

Lemma contiguous_NoDup (c : cluster_map) : contiguous_ids c -> NoDup (ids c).
Proof. unfold contiguous_ids. intros ->. apply range_NoDup. Qed.

Lemma build_covers num_posts min_cluster_size clusters_array result :
  build_clusters num_posts min_cluster_size clusters_array = Ok result ->
  covers (Z.of_nat num_posts) result.
Proof.
  intros Hb. split; [|split].
  - apply contiguous_NoDup. eapply build_ids_contiguous; eauto.
  - eapply build_below; eauto.
  - intros i Hi. eapply one_cluster_per_index; eauto.
Qed.

Lemma one_cluster_covers n : covers (Z.of_nat n) (one_cluster n).
Proof.
  unfold one_cluster. split; [|split].
  - cbn. repeat constructor. intros [].
  - intros k ms x [[= <- <-]|[]] Hx. apply all_indices_In in Hx as (i & -> & Hi).
    apply lt_int_index. lia.
  - intros i Hi. exists 0. split.
    + exists (all_indices n). split; [reflexivity|].
      apply py_in_int_literal, all_indices_In. eauto.
    + intros k' (ms & Hget & _). cbn in Hget.
      destruct (Z.eqb_spec k' 0); [assumption | discriminate].
Qed.

Lemma span_length lo n : List.length (span lo n) = n.
Proof. unfold span. now rewrite length_map, length_seq. Qed.

Lemma same_ids_contiguous (c c' : cluster_map) :
  ids c' = ids c -> contiguous_ids c -> contiguous_ids c'.
Proof.
  unfold contiguous_ids. intros Hids Hc. rewrite Hids, Hc.
  apply (f_equal (@List.length _)) in Hids. unfold ids, dict_keys in Hids.
  rewrite !length_map in Hids. now rewrite Hids.
Qed.

(** Whatever the oracle replies, and on whichever path, [llm_cluster_posts]
    returns a non-empty map with the ids [0 .. K-1] in which every post
    index is a member of one cluster and of no other: no post is left out
    and none is shared between two clusters. *)
Theorem every_post_in_exactly_one_cluster :
  forall (posts : list post) (min_cluster_size : Z) (w : world),
    exists result,
      fst (llm_cluster_posts json_loads py_int posts min_cluster_size w)
      = Ok result /\
      result <> [] /\
      contiguous_ids result /\
      forall i, 0 <= i < Z.of_nat (List.length posts) -> in_one_cluster result i.
Proof.
  intros posts m w.
  assert (Hfallback :
    one_cluster (List.length posts) <> [] /\
    contiguous_ids (one_cluster (List.length posts)) /\
    forall i, 0 <= i < Z.of_nat (List.length posts) ->
              in_one_cluster (one_cluster (List.length posts)) i).
  { split; [discriminate|]. split; [reflexivity|].
    apply (one_cluster_covers (List.length posts)). }
  unfold llm_cluster_posts, llm_cluster_posts_from.
  destruct (Nat.leb_spec (List.length posts) INITIAL_SAMPLE_SIZE) as [Hsmall|Hlarge].
  - unfold bind at 1. unfold try_except. unfold bind at 1.
    destruct (_cluster_initial_sample json_loads posts m w) as [[c|e] w1] eqn:Hs;
      [|cbn; eexists; split; [reflexivity | exact Hfallback]].
    cbn. exists c. split; [reflexivity|].
    destruct (sample_shape _ _ _ _ _ _ Hs) as [Hids Hlen].
    apply sample_result in Hs as (arr & _ & Hb).
    split; [destruct c; [cbn in Hlen; lia | discriminate]|].
    split; [exact Hids|]. apply (build_covers _ _ _ _ Hb).
  - unfold bind at 1. unfold try_except. unfold bind at 1.
    destruct (_cluster_initial_sample json_loads (firstn INITIAL_SAMPLE_SIZE posts) m w)
      as [[c|e] w1] eqn:Hs;
      [|cbn; eexists; split; [reflexivity | exact Hfallback]].
    destruct (sample_shape _ _ _ _ _ _ Hs) as [Hids Hlen].
    apply sample_result in Hs as (arr & _ & Hb).
    rewrite firstn_length_le in Hb by lia.
    pose proof (build_covers _ _ _ _ Hb) as Hcov.
    destruct c as [|kv c]; [cbn in Hlen; lia|].
    unfold bind at 1.
    destruct (_extract_cluster_themes posts (kv :: c) w1) as [[themes|e] w2];
      [|cbn; eexists; split; [reflexivity | exact Hfallback]].
    destruct (skipn INITIAL_SAMPLE_SIZE posts) as [|p rest] eqn:Hrest.
    + apply (f_equal (@List.length _)) in Hrest. rewrite length_skipn in Hrest.
      cbn in Hrest. lia.
    + unfold bind at 1.
      destruct (_assign_posts_to_clusters py_int (p :: rest) themes (kv :: c)
                  (Z.of_nat INITIAL_SAMPLE_SIZE) 30 w2) as [[c'|e] w3] eqn:Ha;
        [|cbn; eexists; split; [reflexivity | exact Hfallback]].
      cbn [fst snd ret]. exists c'. split; [reflexivity|].
      apply assign_posts_appended in Ha.
      pose proof (appended_ids _ _ _ Ha) as Hsame.
      split; [eapply ids_nonempty; [exact Hsame | discriminate]|].
      split; [eapply same_ids_contiguous; eauto|].
      pose proof (appended_covers _ _ _ Ha (Z.of_nat INITIAL_SAMPLE_SIZE)) as Hc'.
      rewrite span_length in Hc'.
      specialize (Hc' eq_refl Hcov).
      rewrite <- Hrest, length_skipn in Hc'.
      replace (Z.of_nat INITIAL_SAMPLE_SIZE
               + Z.of_nat (List.length posts - INITIAL_SAMPLE_SIZE))
        with (Z.of_nat (List.length posts)) in Hc' by lia.
      apply Hc'.
Qed.

End CoverFacts.

Section FenceFacts.
Import PyStr Clustering Samples.
Local Open Scope string_scope.

Lemma append_nil_r s : s ++ "" = s.
Proof.
  induction s as [|c s IH]; cbn [String.append]; [reflexivity | now rewrite IH].
Qed.

Lemma remove_from_skip pat a rest :
  remove_from pat (String.length a) (a ++ rest) = remove_from pat 0 rest.
Proof.
  induction a as [|c a IH]; cbn [String.length String.append].
  - reflexivity.
  - cbn [remove_from]. exact IH.
Qed.

Lemma remove_all_head c pat rest :
  remove_all (String c pat) (String c pat ++ rest) = remove_all (String c pat) rest.
Proof.
  unfold remove_all. cbn [String.append]. cbn [remove_from].
  assert (Hp : String.prefix (String c pat) (String c (pat ++ rest)) = true)
    by exact (prefix_app (String c pat) rest).
  rewrite Hp. cbn [String.length Nat.sub].
  rewrite ?Nat.sub_0_r. apply remove_from_skip.
Qed.

Lemma remove_all_absent pat s :
  contains pat s = false -> remove_all pat s = s.
Proof.
  unfold remove_all. induction s as [|c s IH]; cbn [contains remove_from];
    [reflexivity|].
  intros H. apply orb_false_iff in H as [Hp Hc]. rewrite Hp. now rewrite IH.
Qed.

(** A text without the first character of the pattern, followed by
    anything. *)
Lemma prefix_other_head c pat x s :
  x <> c -> String.prefix (String c pat) (String x s) = false.
Proof.
  intros Hne. rewrite prefix_cons. destruct (Ascii.ascii_dec c x); congruence.
Qed.

Lemma char_absent_cons c x s :
  contains (String c "") (String x s) = false ->
  x <> c /\ contains (String c "") s = false.
Proof.
  cbn [contains]. rewrite prefix_cons. intros H.
  apply orb_false_iff in H as [Hp Hc]. split; [|exact Hc].
  intros ->. destruct (Ascii.ascii_dec c c); [|congruence]. now destruct s.
Qed.

Lemma contains_after_clean c pat clean tail :
  contains (String c "") clean = false ->
  contains (String c pat) (clean ++ tail) = contains (String c pat) tail.
Proof.
  induction clean as [|x clean IH]; cbn [String.append]; [reflexivity|].
  intros H. apply char_absent_cons in H as [Hne Hc].
  cbn [contains]. rewrite (prefix_other_head c pat x _ Hne). now apply IH.
Qed.

Lemma remove_all_after_clean c pat clean tail :
  contains (String c "") clean = false ->
  remove_all (String c pat) (clean ++ tail)
  = clean ++ remove_all (String c pat) tail.
Proof.
  unfold remove_all. induction clean as [|x clean IH]; cbn [String.append];
    [reflexivity|].
  intros H. apply char_absent_cons in H as [Hne Hc].
  cbn [remove_from]. rewrite (prefix_other_head c pat x _ Hne). now rewrite IH.
Qed.

Lemma char_absent_app c a b :
  contains (String c "") a = false -> contains (String c "") b = false ->
  contains (String c "") (a ++ b) = false.
Proof.
  intros Ha Hb. change (String c "") with (String c "") in *.
  now rewrite (contains_after_clean c "" a b Ha).
Qed.

Lemma rstrip_space_end s c :
  is_space c = true -> rstrip (s ++ String c "") = rstrip s.
Proof.
  intros Hc. induction s as [|a s IH]; cbn [String.append rstrip].
  - now rewrite Hc.
  - now rewrite IH.
Qed.

Lemma strip_space_end s c :
  is_space c = true -> strip (s ++ String c "") = strip s.
Proof.
  intros Hc. unfold strip. induction s as [|a s IH]; cbn [String.append lstrip].
  - now rewrite Hc.
  - destruct (is_space a); [exact IH|].
    change (String a (s ++ String c "")) with (String a s ++ String c "").
    now apply rstrip_space_end.
Qed.

Lemma strip_space_start s c :
  is_space c = true -> strip (String c s) = strip s.
Proof. intros Hc. unfold strip. cbn [lstrip]. now rewrite Hc. Qed.

(** A reply wrapped in a code fence, tagged [json] or not, reaches
    [json.loads] as the bare reply does: [unfence] leaves the text between
    the fences, stripped, provided that text holds no back-tick of its
    own. *)
Theorem unfence_removes_code_fence :
  forall body : string,
    contains "`" body = false ->
    unfence (fence ++ "json" ++ newline ++ body ++ newline ++ fence) = strip body /\
    unfence (fence ++ newline ++ body ++ newline ++ fence) = strip body /\
    unfence body = strip body.
Proof.
  intros body Hbody.
  assert (Hnl : is_space (ascii_of_nat 10) = true) by reflexivity.
  assert (Hclean : contains "`" (newline ++ body ++ newline) = false).
  { apply char_absent_app; [reflexivity|]. now apply char_absent_app. }
  assert (Hinner : forall tail,
            newline ++ body ++ newline ++ tail = (newline ++ body ++ newline) ++ tail).
  { intros tail. now rewrite !append_assoc. }
  assert (Hstrip : strip (newline ++ body ++ newline) = strip body).
  { unfold newline. cbn [String.append]. rewrite strip_space_start by exact Hnl.
    now apply strip_space_end. }
  unfold unfence. split; [|split].
  - change (fence ++ "json" ++ newline ++ body ++ newline ++ fence)
      with ((fence ++ "json") ++ (newline ++ body ++ newline ++ fence)).
    change (fence ++ "json") with (String "`" ("``json")).
    rewrite remove_all_head, Hinner.
    rewrite (remove_all_after_clean "`" "``json" _ _ Hclean).
    change (remove_all (String "`" "``json") fence) with fence.
    change fence with (String "`" "``") at 1.
    rewrite (remove_all_after_clean "`" "``" _ _ Hclean).
    change (remove_all (String "`" "``") fence) with "".
    now rewrite append_nil_r.
  - rewrite (remove_all_absent (fence ++ "json")).
    + change (fence ++ newline ++ body ++ newline ++ fence)
        with (fence ++ (newline ++ body ++ newline ++ fence)).
      change fence with (String "`" "``") at 1 2.
      rewrite remove_all_head, Hinner.
      rewrite (remove_all_after_clean "`" "``" _ _ Hclean).
      change (remove_all (String "`" "``") fence) with "".
      now rewrite append_nil_r.
    + unfold fence, newline. cbn [String.append contains].
      rewrite !prefix_cons, !orb_false_l.
      repeat (match goal with |- context [Ascii.ascii_dec ?a ?b] =>
                destruct (Ascii.ascii_dec a b); try discriminate end).
      cbn [orb].
      change "```json" with (String "`" "``json").
      rewrite (contains_after_clean "`" "``json" _ _ Hbody). reflexivity.
  - rewrite (remove_all_absent (fence ++ "json")).
    + now rewrite (remove_all_absent fence)
        by (change fence with (String "`" "``");
            rewrite <- (append_nil_r body), (contains_after_clean "`" "``" _ _ Hbody);
            reflexivity).
    + change (fence ++ "json") with (String "`" "``json").
      rewrite <- (append_nil_r body), (contains_after_clean "`" "``json" _ _ Hbody).
      reflexivity.
Qed.

End FenceFacts.

Section LookupFacts.
Import PyStr Data Dashboard.

Lemma sdict_get_set {V} (k k' : string) (v : V) d :
  dict_get String.eqb k' (dict_set String.eqb k v d)
  = if String.eqb k' k then Some v else dict_get String.eqb k' d.
Proof.
  induction d as [|[k0 v0] d IH]; cbn [dict_set dict_get]; [reflexivity|].
  destruct (String.eqb_spec k k0) as [->|Hne]; cbn [dict_get].
  - destruct (String.eqb_spec k' k0); reflexivity.
  - rewrite IH. destruct (String.eqb_spec k' k0) as [->|]; [|reflexivity].
    destruct (String.eqb_spec k0 k); [congruence | reflexivity].
Qed.

Lemma post_lookup_last posts p :
  post_lookup (posts ++ [p]) = dict_set String.eqb (id p) p (post_lookup posts).
Proof. unfold post_lookup. now rewrite fold_left_app. Qed.

(** A lookup by id finds a post of the list with that id. *)
Lemma post_lookup_sound posts i p :
  dict_get String.eqb i (post_lookup posts) = Some p -> In p posts /\ id p = i.
Proof.
  induction posts as [|q posts IH] using rev_ind; [discriminate|].
  rewrite post_lookup_last, sdict_get_set.
  destruct (String.eqb_spec i (id q)) as [->|Hne].
  - intros [= <-]. split; [apply in_or_app; right; now left | reflexivity].
  - intros H. destruct (IH H) as [Hin Hid]. split; [|exact Hid].
    apply in_or_app. now left.
Qed.

(** Every id of the list is found. *)
Lemma post_lookup_complete posts i :
  In i (map id posts) -> exists p, dict_get String.eqb i (post_lookup posts) = Some p.
Proof.
  induction posts as [|q posts IH] using rev_ind; [intros []|].
  rewrite post_lookup_last, sdict_get_set, map_app. intros Hin.
  destruct (String.eqb_spec i (id q)) as [->|Hne]; [eauto|].
  apply in_app_or in Hin as [Hin|[Hq|[]]]; [now apply IH | congruence].
Qed.

Lemma linked_resolves posts links :
  incl links (map id posts) ->
  map id (linked (post_lookup posts) links) = links.
Proof.
  unfold linked. induction links as [|i links IH]; intros Hincl; [reflexivity|].
  cbn [flat_map].
  destruct (post_lookup_complete posts i (Hincl i (or_introl eq_refl))) as [p Hp].
  rewrite Hp. cbn [app map]. destruct (post_lookup_sound _ _ _ Hp) as [_ ->].
  f_equal. apply IH. intros x Hx. apply Hincl. now right.
Qed.

Lemma linked_members posts links p :
  In p (linked (post_lookup posts) links) -> In p posts /\ In (id p) links.
Proof.
  unfold linked. intros H. apply in_flat_map in H as (i & Hi & Hp).
  destruct (dict_get String.eqb i (post_lookup posts)) as [q|] eqn:Hq; [|contradiction].
  destruct Hp as [<-|[]]. destruct (post_lookup_sound _ _ _ Hq) as [Hin ->]. auto.
Qed.

Lemma same_id_same_post (posts : list post) p q :
  NoDup (map id posts) -> In p posts -> In q posts -> id p = id q -> p = q.
Proof.
  induction posts as [|r posts IH]; [intros _ []|].
  cbn [map]. intros Hnd Hp Hq Hid. inversion Hnd as [|? ? Hnot Hnd']; subst.
  destruct Hp as [<-|Hp], Hq as [<-|Hq]; auto.
  - exfalso. apply Hnot. rewrite Hid. now apply in_map.
  - exfalso. apply Hnot. rewrite <- Hid. now apply in_map.
Qed.

End LookupFacts.

Section DashboardLinks.
Import PyStr Data Gateway Clustering Insights Stages Dashboard.
Variable json_loads : string -> option json.
Variable py_int : string -> option Z.

Lemma posts_of_category_incl cat posts : incl (posts_of_category cat posts) posts.
Proof. unfold posts_of_category. intros p Hp. now apply filter_In in Hp. Qed.

(** Every link an insight of [generate_insights_llm_clustering] carries
    resolves when [generate_dashboard_json] looks it up among the same
    posts: [linked], from which [linked_posts_full] is listed, has one post
    per link, in order and with the linked id, so as many as [cluster_size]
    says.  When no two posts share an id, the posts found are posts of the
    insight's own category. *)
Theorem dashboard_resolves_every_link :
  forall (posts : list post) (categories : list string) (min_cluster_size : Z)
         (w : world) (insights_db : list (string * list insight)) (w' : world),
    generate_insights_llm_clustering json_loads py_int posts categories
      min_cluster_size w = (Ok insights_db, w') ->
    forall cat made ins,
      In (cat, made) insights_db -> In ins made ->
      map id (linked_of posts ins) = linked_posts ins /\
      List.length (linked_of posts ins) = cluster_size ins /\
      (NoDup (map id posts) ->
       incl (linked_of posts ins) (posts_of_category cat posts)).
Proof.
  intros posts categories m w db w' H cat made ins Hmade Hins.
  unfold generate_insights_llm_clustering in H.
  destruct (categories_loop_spec _ _ _ _ _ _ _ _ _ H) as (H1 & _ & _).
  destruct (H1 cat made Hmade) as [[]|(_ & _ & Hall)].
  destruct (proj1 (Forall_forall _ _) Hall ins Hins) as (_ & Hincl & Hsize).
  assert (Hall_ids : incl (linked_posts ins) (map id posts)).
  { intros i Hi. apply Hincl in Hi. apply in_map_iff in Hi as (p & <- & Hp).
    apply in_map. now apply posts_of_category_incl in Hp. }
  pose proof (linked_resolves posts _ Hall_ids) as Hres.
  unfold linked_of. split; [exact Hres|]. split.
  - rewrite Hsize, <- (length_map id). now rewrite Hres.
  - intros Hnd p Hp. destruct (linked_members _ _ _ Hp) as [Hin Hid].
    apply Hincl in Hid. apply in_map_iff in Hid as (q & Hq & Hqin).
    pose proof (posts_of_category_incl _ _ _ Hqin) as Hqposts.
    now rewrite (same_id_same_post posts p q Hnd Hin Hqposts (eq_sym Hq)).
Qed.

End DashboardLinks.

Section LinkExamples.
Import PyStr Data Gateway Clustering Insights Pipeline Stages Dashboard Samples.
Local Open Scope string_scope.

(** Two posts of one category and one insight over both. *)
Lemma dashboard_resolves_every_link_witness :
  let posts := sample_posts "Cat A" 2 in
  let ins := Insight "cat _01" "Cat A" "text" ["p0"; "p1"] 2 in
  map id (linked_of posts ins) = ["p0"; "p1"] /\
  List.length (linked_of posts ins) = 2%nat.
Proof.
  cbv zeta.
  destruct (dashboard_resolves_every_link loads_index_arrays int_dec
              (sample_posts "Cat A" 2) ["Cat A"; "Cat B"] 2
              (start [Reply "[[0,1]]"; Reply "text"])
              [("Cat A", [Insight "cat _01" "Cat A" "text" ["p0"; "p1"] 2])]
              (snd (generate_insights_llm_clustering loads_index_arrays int_dec
                      (sample_posts "Cat A" 2) ["Cat A"; "Cat B"] 2
                      (start [Reply "[[0,1]]"; Reply "text"])))
              eq_refl "Cat A"
              [Insight "cat _01" "Cat A" "text" ["p0"; "p1"] 2]
              (Insight "cat _01" "Cat A" "text" ["p0"; "p1"] 2)
              (or_introl eq_refl) (or_introl eq_refl)) as (Hids & Hlen & _).
  split; [exact Hids | exact Hlen].
Defined.

(** A fenced reply with the language tag. *)
Lemma unfence_removes_code_fence_witness :
  unfence (fence ++ "json" ++ newline ++ "[[0,1],[2]]" ++ newline ++ fence)
  = "[[0,1],[2]]".
Proof.
  exact (proj1 (unfence_removes_code_fence "[[0,1],[2]]" eq_refl)).
Defined.

End LinkExamples.

Section PipelineFacts.
Import PyStr Data Gateway Clustering Insights Pipeline Stages Samples.
Local Open Scope string_scope.

(** C8, as the code has it.  With no scraped post, [run_pipeline] returns
    normally, with Python's [None]: it raises nothing, makes no request and
    hands no aggregate to the persistence layer.  An exception of the
    scraping step is re-raised to the caller.  After a non-empty scrape the
    summarization and the categorization return, and an exception of the
    insight stage is re-raised to the caller as it is, with no aggregate
    saved. *)
Theorem run_pipeline_empty_returns :
  forall (json_loads : string -> option json) (py_int : string -> option Z)
         (min_cluster_size : Z) (w : world),
    run_pipeline json_loads py_int (Ok []) min_cluster_size w = (Ok tt, w) /\
    (forall e,
       run_pipeline json_loads py_int (Raise e) min_cluster_size w = (Raise e, w)) /\
    forall posts, posts <> [] ->
      exists summarized w1 categorized w2,
        summarize_posts posts w = (Ok summarized, w1) /\
        categorize_posts py_int summarized FIXED_CATEGORIES w1
        = (Ok categorized, w2) /\
        forall e w3,
          generate_insights_llm_clustering json_loads py_int categorized
            FIXED_CATEGORIES min_cluster_size w2 = (Raise e, w3) ->
          run_pipeline json_loads py_int (Ok posts) min_cluster_size w
          = (Raise e, w3) /\
          saved w3 = saved w.
Proof.
  intros json_loads py_int m w.
  split; [reflexivity|]. split; [intros e; reflexivity|].
  intros [|p0 posts0] Hne; [contradiction|].
  remember (p0 :: posts0) as posts eqn:Hposts.
  destruct (summarize_posts_shape posts w) as (s & Hs & _ & _ & _ & _ & Hsv).
  destruct (summarize_posts posts w) as [r1 w1] eqn:Hsum.
  cbn [fst snd] in Hs, Hsv. subst r1.
  destruct (categorize_posts_shape py_int s FIXED_CATEGORIES w1)
    as (c & Hc & _ & _ & _ & _ & _ & Hcv).
  destruct (categorize_posts py_int s FIXED_CATEGORIES w1) as [r2 w2] eqn:Hcat.
  cbn [fst snd] in Hc, Hcv. subst r2.
  exists s, w1, c, w2. split; [reflexivity|]. split; [exact Hcat|].
  intros e w3 Hgen.
  pose proof (silent_insights json_loads py_int c FIXED_CATEGORIES m w2) as [_ Hiv].
  rewrite Hgen in Hiv. cbn [snd] in Hiv. split; [|congruence].
  subst posts. rewrite run_pipeline_nonempty.
  unfold try_except, bind. rewrite Hsum, Hcat, Hgen. reflexivity.
Qed.

(** C8, as worded, fails on the empty input itself: the call ends without
    an exception, and nothing was saved. *)
Lemma empty_input_counterexample :
  let out := run_pipeline loads_index_arrays int_dec (Ok []) 3 (start []) in
  fst out = Ok tt /\ saved (snd out) = [] /\ calls (snd out) = 0%nat.
Proof. cbv zeta. repeat split. Qed.

(** One post, summarized and put in the first fixed category by the first
    two replies; the request for its insight fails three times and the run
    ends with that failure, nothing saved. *)
Lemma run_pipeline_empty_returns_witness :
  let w := start [Reply "POST_1: text || SENTIMENT: neutral"; Reply "POST_1: 1"] in
  let out := run_pipeline loads_index_arrays int_dec
               (Ok (sample_posts "" 1)) 3 w in
  fst out = Raise (OracleError "no answer") /\ saved (snd out) = [] /\
  calls (snd out) = 5%nat.
Proof.
  cbv zeta.
  destruct (proj2 (proj2 (run_pipeline_empty_returns loads_index_arrays int_dec 3
              (start [Reply "POST_1: text || SENTIMENT: neutral";
                      Reply "POST_1: 1"])))
              (sample_posts "" 1) ltac:(discriminate))
    as (s & w1 & c & w2 & Hs & Hc & Hraise).
  vm_compute in Hs. injection Hs as <- <-.
  vm_compute in Hc. injection Hc as <- <-.
  destruct (Hraise (OracleError "no answer")
              (World (scripted [Reply "POST_1: text || SENTIMENT: neutral";
                                Reply "POST_1: 1"]) 5 [3; 6] [])
              ltac:(vm_compute; reflexivity)) as [Hrun Hsaved].
  rewrite Hrun. repeat split.
Defined.

End PipelineFacts.

Section PhaseThreeLoop.
Import PyStr Data Gateway Clustering Spec.
Variable py_int : string -> option Z.







End PhaseThreeLoop.

Section PhaseThreeRecords.
Import PyStr Data Gateway Clustering Spec.
Variable py_int : string -> option Z.




Lemma place_record_ids reply (c : cluster_map) post_idx :
  ids (place_record py_int reply c post_idx) = ids c.
Proof.
  unfold place_record.
  destruct (match reply with
            | Some lines => scan_lines py_int post_idx c lines
            | None => None
            end) as [c'|] eqn:Hs.
  - destruct reply as [lines|]; [|discriminate].
    destruct (scan_lines_Some _ _ _ _ _ Hs) as (k & _ & ->). apply ids_append.
  - destruct (largest c); [apply ids_append | reflexivity].
Qed.









End PhaseThreeRecords.

Section CurrentLargest.
Import PyStr Data Gateway Clustering Spec.
Variable json_loads : string -> option json.
Variable py_int : string -> option Z.


End CurrentLargest.

Section CurrentLargestExamples.
Import PyStr Data Gateway Clustering Spec Samples.
Local Open Scope string_scope.


End CurrentLargestExamples.
